(** * Business Finance web app: the accounting core of [app.js]

    A shallow embedding of the calculation functions of [src/app.js]
    ([safeNum], [openingBalance], [totals], [sumPaid], [purchasesByCategory],
    [calcReceivables], [calcPayables], [balanceSheet], [cashFlow],
    [calcPartyBalance]) together with the loader ([loadState], [importData]),
    the router and its pages, the forms and their handlers, and the
    properties of the specification that are stated about them.

    The records of the store hold primitive values in their numeric fields,
    as the forms and [seedDemo] write them; the module [Raw] embeds
    [safeNum] and the calculation functions over the arrays and objects
    that an imported file can put there.

    JavaScript numbers are IEEE-754 binary64 values.  The functions are
    written once, over an interface [Arith] of the operations the code uses
    ([0], [+], [-], [Number.isFinite], ...).  The interface is instantiated
    by Rocq's primitive binary64 floats (module [F64]: the arithmetic the
    program really runs on) and by exact integers extended with a NaN
    (module [Exact]: arithmetic without rounding). *)

From Stdlib Require Import ZArith List String Bool Lia Permutation.
From Stdlib Require PrimFloat.
Import ListNotations.

Set Implicit Arguments.

(** ** Numbers *)

(** The operations on numbers used by the accounting code. *)
Class Arith (num : Type) : Type := {
  num0 : num;                          (* the literal [0] *)
  num1 : num;                          (* [Number(true)] *)
  numNaN : num;                        (* [NaN] *)
  nadd : num -> num -> num;            (* [a + b] on numbers *)
  nsub : num -> num -> num;            (* [a - b] *)
  isFinite : num -> bool;              (* [Number.isFinite] *)
  StringToNumber : string -> num;      (* [Number(s)] for a string [s] *)
  isFinite_0 : isFinite num0 = true;
  isFinite_NaN : isFinite numNaN = false;
  nadd_0_0 : nadd num0 num0 = num0;
  nsub_0_0 : nsub num0 num0 = num0
}.

Declare Scope num_scope.
Delimit Scope num_scope with num.
Notation "a + b" := (nadd a b) : num_scope.
Notation "a - b" := (nsub a b) : num_scope.

(** Arithmetic without rounding: the laws of exact addition and subtraction
    that the reconciliation properties rest on.  Binary64 arithmetic does not
    satisfy [nadd_assoc]. *)
Class ExactArith {num : Type} (A : Arith num) : Prop := {
  nadd_comm : forall a b : num, (a + b = b + a)%num;
  nadd_assoc : forall a b c : num, (a + (b + c) = (a + b) + c)%num;
  nadd_0_l : forall a : num, (num0 + a = a)%num;
  nsub_def : forall a b : num, (a - b = a + (num0 - b))%num;
  nopp_add : forall a b : num, (num0 - (a + b) = (num0 - a) + (num0 - b))%num
}.

(** ** Exceptions *)

(** A JavaScript exception: its constructor name and its [message]. *)
Record exn : Type := mkExn { exn_name : string; message : string }.

Inductive result (A : Type) : Type :=
| Ok (a : A)
| Throw (e : exn).
Arguments Ok {A} a.
Arguments Throw {A} e.

Definition bind {A B : Type} (r : result A) (k : A -> result B) : result B :=
  match r with
  | Ok a => k a
  | Throw e => Throw e
  end.

Definition rmap {A B : Type} (f : A -> B) (r : result A) : result B :=
  bind r (fun a => Ok (f a)).

Definition throws {A : Type} (r : result A) : bool :=
  match r with Ok _ => false | Throw _ => true end.

Notation "x <- r ;; k" := (bind r (fun x => k))
  (at level 61, r at next level, right associativity).

Local Open Scope string_scope.

(** Reading a collection for a [for ... of] loop: a missing one is
    [undefined], and iterating it throws a [TypeError] (the messages are
    worded as V8 words them). *)
Definition iterable {A : Type} (what : string) (o : option (list A))
  : result (list A) :=
  match o with
  | Some l => Ok l
  | None => Throw (mkExn "TypeError" (what ++ " is not iterable"))
  end.

(** Strict equality of a nullable string with a string. *)
Definition opt_eqb (o : option string) (s : string) : bool :=
  match o with
  | Some s' => String.eqb s' s
  | None => false
  end.

(** Strict equality of two nullable strings. *)
Definition opt_eqb2 (o1 o2 : option string) : bool :=
  match o1, o2 with
  | Some s1, Some s2 => String.eqb s1 s2
  | None, None => true
  | _, _ => false
  end.

(** Truthiness of a nullable string: [null] and [""] are falsy. *)
Definition truthy (o : option string) : bool :=
  match o with
  | Some s => negb (String.eqb s "")
  | None => false
  end.

(** [o || ""]. *)
Definition orEmpty (o : option string) : string :=
  match o with
  | Some s => s
  | None => ""
  end.

(** A session: [{username, role}]. *)
Record Session : Type := mkSession { s_username : string; s_role : string }.

Section Core.

Context {num : Type} {A : Arith num}.
Local Open Scope num_scope.

(** ** Values and records *)

(** The primitive values a numeric field can hold once a snapshot has been
    parsed from JSON or filled from a form ([VUndefined] is a missing
    field).  Arrays and objects are the matter of the module [Raw]. *)
Inductive jsval : Type :=
| VUndefined
| VNull
| VBool (b : bool)
| VNum (n : num)
| VStr (s : string).

(** [Number(v)]. *)
Definition Number (v : jsval) : num :=
  match v with
  | VUndefined => numNaN
  | VNull => num0
  | VBool true => num1
  | VBool false => num0
  | VNum n => n
  | VStr s => StringToNumber s
  end.

(** [const safeNum = (v) => { const n = Number(v);
                              return Number.isFinite(n) ? n : 0; }] *)
Definition safeNum (v : jsval) : num :=
  let n := Number v in
  if isFinite n then n else num0.

(** A party record: [{id,name,phone,address,openingBalance,notes}]. *)
Record Party : Type := mkParty {
  p_id : string;
  p_name : string;
  p_openingBalance : jsval
}.

(** A ledger row:
    [{id,date,type,partyType,partyId,ref,desc,category,amount,paid,method}]. *)
Record Entry : Type := mkEntry {
  t_id : string;
  t_type : string;
  t_partyType : option string;
  t_partyId : option string;
  t_category : option string;
  t_amount : jsval;
  t_paid : jsval
}.

Record Company : Type := mkCompany {
  c_name : string;
  c_currency : string;
  c_fiscalYearStartMonth : nat
}.

Record User : Type := mkUser {
  username : string;
  password : string;
  role : string
}.

(** The record store [state]; a top-level key that is absent reads as
    [undefined] ([None]). *)
Record State : Type := mkState {
  company : option Company;
  users : option (list User);
  clients : option (list Party);
  vendors : option (list Party);
  ledger : option (list Entry)
}.

(** [defaultState()]. *)
Definition defaultState : State :=
  {| company := Some (mkCompany "My Business" "PKR" 7);
     users := Some [mkUser "admin" "admin123" "admin";
                    mkUser "manager" "manager123" "manager"];
     clients := Some [];
     vendors := Some [];
     ledger := Some [] |}.

(** ** [Map] objects keyed by party id

    A JavaScript [Map] keeps its keys in insertion order, [set] on a key that
    is present replaces the value in place, and [values()] lists the values
    in that order. *)
Definition JsMap : Type := list (string * num).

Fixpoint map_get (m : JsMap) (k : string) : option num :=
  match m with
  | [] => None
  | (k', v) :: m' => if String.eqb k' k then Some v else map_get m' k
  end.

Fixpoint map_set (m : JsMap) (k : string) (v : num) : JsMap :=
  match m with
  | [] => [(k, v)]
  | (k', v') :: m' =>
      if String.eqb k' k then (k', v) :: m' else (k', v') :: map_set m' k v
  end.

Definition map_values (m : JsMap) : list num := List.map snd m.

(** [xs.reduce((a, x) => a + f(x), 0)]. *)
Definition sumOf {X : Type} (f : X -> num) (xs : list X) : num :=
  fold_left (fun a x => a + f x) xs num0.

(** [let total = 0; for (const v of vs) total += v;]. *)
Definition sumValues (vs : list num) : num :=
  fold_left nadd vs num0.

(** A snapshot in which the three collections are present. *)
Definition store (co : option Company) (us : option (list User))
  (cs vs : list Party) (l : list Entry) : State :=
  {| company := co; users := us; clients := Some cs; vendors := Some vs;
     ledger := Some l |}.

(** ** The accounting calculations *)

(** Calling a method ([.filter], [.find], [.findIndex], [.map]) on a
    collection: on [undefined] the property read throws a [TypeError]. *)
Definition member {X : Type} (meth : string) (o : option (list X))
  : result (list X) :=
  match o with
  | Some l => Ok l
  | None =>
      Throw (mkExn "TypeError"
        ("Cannot read properties of undefined (reading '" ++ meth ++ "')"))
  end.

(** [list.find(x => x.id === partyId)]. *)
Definition findParty (ps : list Party) (partyId : option string)
  : option Party :=
  find (fun x => opt_eqb partyId (p_id x)) ps.

(** [function partyName(partyType, partyId)]. *)
Definition partyName (st : State) (partyType partyId : option string)
  : result string :=
  if negb (truthy partyType) || negb (truthy partyId) then Ok "-"
  else
    ps <- member "find"
            (if opt_eqb partyType "client" then clients st else vendors st) ;;
    Ok (match findParty ps partyId with
        | Some p => if String.eqb (p_name p) "" then "-" else p_name p
        | None => "-"
        end).

(** [function openingBalance(partyType, partyId)]; [p?.openingBalance] is
    [undefined] when no party is found. *)
Definition openingBalance (st : State) (partyType partyId : option string)
  : result num :=
  if negb (truthy partyType) || negb (truthy partyId) then Ok num0
  else
    ps <- member "find"
            (if opt_eqb partyType "client" then clients st else vendors st) ;;
    Ok (safeNum (match findParty ps partyId with
                 | Some p => p_openingBalance p
                 | None => VUndefined
                 end)).

(** [function sumPaid(type)]. *)
Definition sumPaid (st : State) (type : string) : result num :=
  l <- member "filter" (ledger st) ;;
  Ok (sumOf (fun t => safeNum (t_paid t))
            (filter (fun t => String.eqb (t_type t) type) l)).

(** [function purchasesByCategory(cat)]. *)
Definition purchasesByCategory (st : State) (cat : string) : result num :=
  l <- member "filter" (ledger st) ;;
  Ok (sumOf (fun t => safeNum (t_amount t))
            (filter (fun t => String.eqb (t_type t) "purchase"
                              && String.eqb (orEmpty (t_category t)) cat) l)).

(** The body of the ledger loop of [calcReceivables] and [calcPayables]:
    [pt] is the party type the loop keeps (["client"] or ["vendor"]), [plus]
    the entry type that adds [cur + amount - paid], [minus] the one that
    subtracts the amount. *)
Definition party_step (pt plus minus : string) (m : JsMap) (t : Entry)
  : JsMap :=
  if negb (opt_eqb (t_partyType t) pt) || negb (truthy (t_partyId t)) then m
  else
    let k := orEmpty (t_partyId t) in
    let cur := match map_get m k with Some v => v | None => num0 end in
    let m1 :=
      if String.eqb (t_type t) plus
      then map_set m k ((cur + safeNum (t_amount t)) - safeNum (t_paid t))
      else m in
    if String.eqb (t_type t) minus
    then map_set m1 k (cur - safeNum (t_amount t))
    else m1.

(** [for (const c of parties) byParty.set(c.id, safeNum(c.openingBalance))]. *)
Definition openingMap (parties : list Party) : JsMap :=
  fold_left (fun m c => map_set m (p_id c) (safeNum (p_openingBalance c)))
            parties [].

(** [function calcReceivables()]. *)
Definition calcReceivables (st : State) : result num :=
  cs <- iterable "state.clients" (clients st) ;;
  let byClient := openingMap cs in
  l <- iterable "state.ledger" (ledger st) ;;
  let byClient :=
    fold_left (party_step "client" "sale" "cash_in") l byClient in
  Ok (sumValues (map_values byClient)).

(** [function calcPayables()]. *)
Definition calcPayables (st : State) : result num :=
  vs <- iterable "state.vendors" (vendors st) ;;
  let byVendor := openingMap vs in
  l <- iterable "state.ledger" (ledger st) ;;
  let byVendor :=
    fold_left (party_step "vendor" "purchase" "cash_out") l byVendor in
  Ok (sumValues (map_values byVendor)).

(** The five running sums of the loop of [totals]. *)
Record Sums : Type := mkSums {
  s_sales : num;
  s_purchases : num;
  s_expenses : num;
  s_cashIn : num;
  s_cashOut : num
}.

Definition totals_step (s : Sums) (t : Entry) : Sums :=
  let amt := safeNum (t_amount t) in
  {| s_sales :=
       if String.eqb (t_type t) "sale" then s_sales s + amt else s_sales s;
     s_purchases :=
       if String.eqb (t_type t) "purchase"
       then s_purchases s + amt else s_purchases s;
     s_expenses :=
       if String.eqb (t_type t) "expense"
       then s_expenses s + amt else s_expenses s;
     s_cashIn :=
       if String.eqb (t_type t) "cash_in"
       then s_cashIn s + amt else s_cashIn s;
     s_cashOut :=
       if String.eqb (t_type t) "cash_out"
       then s_cashOut s + amt else s_cashOut s |}.

(** The object returned by [totals()]. *)
Record Totals : Type := mkTotals {
  sales : num;
  purchases : num;
  cogs : num;
  expenses : num;
  cashIn : num;
  cashOut : num;
  cash : num;
  receivable : num;
  payable : num;
  profit : num
}.

(** [function totals()]. *)
Definition totals (st : State) : result Totals :=
  l <- iterable "ledger" (ledger st) ;;
  let s := fold_left totals_step l (mkSums num0 num0 num0 num0 num0) in
  paidSales <- sumPaid st "sale" ;;
  paidPurchases <- sumPaid st "purchase" ;;
  let cash :=
    (paidSales + s_cashIn s) - ((paidPurchases + s_expenses s) + s_cashOut s) in
  receivable <- calcReceivables st ;;
  payable <- calcPayables st ;;
  cogs <- purchasesByCategory st "COGS" ;;
  let profit := (s_sales s - cogs) - s_expenses s in
  Ok {| sales := s_sales s; purchases := s_purchases s; cogs := cogs;
        expenses := s_expenses s; cashIn := s_cashIn s;
        cashOut := s_cashOut s; cash := cash; receivable := receivable;
        payable := payable; profit := profit |}.

(** The object returned by [balanceSheet()]; an asset or liability line is a
    name with its value. *)
Record BalanceSheet : Type := mkBalanceSheet {
  assets : list (string * num);
  liabilities : list (string * num);
  equity : num;
  totalAssets : num;
  totalLiab : num
}.

(** [function balanceSheet()]. *)
Definition balanceSheet (st : State) : result BalanceSheet :=
  t <- totals st ;;
  let assets := [("Cash", cash t);
                 ("Accounts Receivable (Clients)", receivable t)] in
  let liabilities := [("Accounts Payable (Vendors)", payable t)] in
  let totalAssets := sumOf snd assets in
  let totalLiab := sumOf snd liabilities in
  let equity := totalAssets - totalLiab in
  Ok {| assets := assets; liabilities := liabilities; equity := equity;
        totalAssets := totalAssets; totalLiab := totalLiab |}.

(** The object returned by [cashFlow()]. *)
Record CashFlow : Type := mkCashFlow {
  cashFromSales : num;
  cashToSuppliers : num;
  cashToExpenses : num;
  net : num
}.

Definition amountsOfType (type : string) (l : list Entry) : num :=
  sumOf (fun t => safeNum (t_amount t))
        (filter (fun t => String.eqb (t_type t) type) l).

(** [function cashFlow()]. *)
Definition cashFlow (st : State) : result CashFlow :=
  paidSales <- sumPaid st "sale" ;;
  l1 <- member "filter" (ledger st) ;;
  let cashFromSales := paidSales + amountsOfType "cash_in" l1 in
  paidPurchases <- sumPaid st "purchase" ;;
  l2 <- member "filter" (ledger st) ;;
  let cashToSuppliers := paidPurchases + amountsOfType "cash_out" l2 in
  l3 <- member "filter" (ledger st) ;;
  let cashToExpenses := amountsOfType "expense" l3 in
  let net := (cashFromSales - cashToSuppliers) - cashToExpenses in
  Ok {| cashFromSales := cashFromSales; cashToSuppliers := cashToSuppliers;
        cashToExpenses := cashToExpenses; net := net |}.

(** The body of the loop of [calcPartyBalance]. *)
Definition balance_step (partyType : string) (id : option string)
  (bal : num) (t : Entry) : num :=
  if negb (opt_eqb (t_partyType t) partyType)
     || negb (opt_eqb2 (t_partyId t) id)
  then bal
  else if String.eqb partyType "client" then
    let bal1 :=
      if String.eqb (t_type t) "sale"
      then bal + (safeNum (t_amount t) - safeNum (t_paid t)) else bal in
    if String.eqb (t_type t) "cash_in"
    then bal1 - safeNum (t_amount t) else bal1
  else
    let bal1 :=
      if String.eqb (t_type t) "purchase"
      then bal + (safeNum (t_amount t) - safeNum (t_paid t)) else bal in
    if String.eqb (t_type t) "cash_out"
    then bal1 - safeNum (t_amount t) else bal1.

(** [function calcPartyBalance(kind, id)], the specification's [balanceOf]. *)
Definition calcPartyBalance (st : State) (kind : string) (id : option string)
  : result num :=
  let partyType := if String.eqb kind "client" then "client" else "vendor" in
  bal <- openingBalance st (Some partyType) id ;;
  l <- iterable "state.ledger" (ledger st) ;;
  Ok (fold_left (balance_step partyType id) l bal).

(** ** Deleting a party

    The [del] action of [bindPartyTable]:
    [const idx = list.findIndex(x => x.id === id);
     if (idx >= 0) list.splice(idx, 1);]. *)
Fixpoint removeFirst (id : string) (ps : list Party) : list Party :=
  match ps with
  | [] => []
  | x :: rest =>
      if String.eqb (p_id x) id then rest else x :: removeFirst id rest
  end.

Definition deleteParty (st : State) (kind : string) (id : string)
  : result State :=
  if String.eqb kind "client" then
    ps <- member "findIndex" (clients st) ;;
    Ok {| company := company st; users := users st;
          clients := Some (removeFirst id ps);
          vendors := vendors st; ledger := ledger st |}
  else
    ps <- member "findIndex" (vendors st) ;;
    Ok {| company := company st; users := users st;
          clients := clients st;
          vendors := Some (removeFirst id ps); ledger := ledger st |}.

(** ** The application around the core: storage, import, routing *)

(** What [JSON.parse] makes of a text: a [SyntaxError], the value [null], or
    an object read as a snapshot (an absent key is [None]). *)
Inductive Parsed : Type :=
| ParseError (msg : string)
| ParsedNull
| ParsedObject (obj : State).

(** [JSON.parse(text)] followed by the first property read [obj.company],
    which throws on [null]. *)
Definition parseSnapshot (p : Parsed) : result State :=
  match p with
  | ParseError msg => Throw (mkExn "SyntaxError" msg)
  | ParsedNull =>
      Throw (mkExn "TypeError"
        "Cannot read properties of null (reading 'company')")
  | ParsedObject obj => Ok obj
  end.

Definition present {X : Type} (o : option X) : bool :=
  match o with Some _ => true | None => false end.

(** The guard shared by [loadState] and [importData]:
    [!st.company || !st.users || !st.ledger]. *)
Definition guardFails (st : State) : bool :=
  negb (present (company st)) || negb (present (users st))
  || negb (present (ledger st)).

(** [function loadState()]; [raw] is the item stored under [STORAGE_KEY],
    if any. *)
Definition loadState (raw : option Parsed) : State :=
  match raw with
  | None => defaultState
  | Some p =>
      match parseSnapshot p with
      | Ok st => if guardFails st then defaultState else st
      | Throw _ => defaultState
      end
  end.

(** The [filterType] of a transactions page, of its search and of its CSV
    export. *)
Definition filterType (mode : string) (t : Entry) : bool :=
  if String.eqb mode "sale" then String.eqb (t_type t) "sale"
  else if String.eqb mode "purchase" then String.eqb (t_type t) "purchase"
  else if String.eqb mode "expense" then String.eqb (t_type t) "expense"
  else if String.eqb mode "cash"
    then String.eqb (t_type t) "cash_in" || String.eqb (t_type t) "cash_out"
  else true.

(** The users offered by the selector of the settings page:
    [session?.role === "admin" ? state.users
     : state.users.filter(u => u.username === session?.username)], on which
    [.map] is then called. *)
Definition allowedUsers (st : State) (session : option Session)
  : result (list User) :=
  match session with
  | Some s =>
      if String.eqb (s_role s) "admin"
      then match users st with
           | Some us => Ok us
           | None =>
               Throw (mkExn "TypeError"
                 "Cannot read properties of undefined (reading 'map')")
           end
      else
        us <- member "filter" (users st) ;;
        Ok (filter (fun u => String.eqb (username u) (s_username s)) us)
  | None =>
      us <- member "filter" (users st) ;;
      Ok []
  end.

(** Reading a property of [state.company] in a page: on a state without
    [company] the read throws a [TypeError]. *)
Definition companyField (field : string) (st : State) : result Company :=
  match company st with
  | Some c => Ok c
  | None =>
      Throw (mkExn "TypeError"
        ("Cannot read properties of undefined (reading '" ++ field ++ "')"))
  end.

(** What a page shows of the state (the HTML is not modelled): the figures
    of the dashboard and of the reports, the balances of a party table, the
    number of rows of a transactions page, the users offered by the
    settings page. *)
Inductive View : Type :=
| Blank
| Dashboard (t : Totals) (bs : BalanceSheet) (cf : CashFlow)
| Reports (t : Totals) (bs : BalanceSheet) (cf : CashFlow)
| PartyTable (kind : string) (balances : list num)
| TxnPage (mode : string) (rows : nat)
| Settings (offered : list User).

(** The running application: the record store [state], the session
    ([None] when nobody is logged in), the route of [location.hash], the
    snapshot last written by [saveState], the messages shown by [alert]
    (latest first), the page shown, and a ghost log of the snapshots on
    which the pages that call the functions of the core were rendered
    (latest first). *)
Record App : Type := mkApp {
  state : State;
  session : option Session;
  path : string;
  storage : option State;
  alerts : list string;
  view : View;
  coreLog : list State
}.

(** [ensureLogin()] lets [route] go on when there is a session. *)
Definition loggedIn (app : App) : bool := present (session app).

Definition alert (app : App) (msg : string) : App :=
  {| state := state app; session := session app; path := path app;
     storage := storage app; alerts := msg :: alerts app; view := view app;
     coreLog := coreLog app |}.

(** [saveState(state)]. *)
Definition saveState (app : App) : App :=
  {| state := state app; session := session app; path := path app;
     storage := Some (state app); alerts := alerts app; view := view app;
     coreLog := coreLog app |}.

Definition setState (app : App) (st : State) : App :=
  {| state := st; session := session app; path := path app;
     storage := storage app; alerts := alerts app; view := view app;
     coreLog := coreLog app |}.

Definition setPath (app : App) (p : string) : App :=
  {| state := state app; session := session app; path := p;
     storage := storage app; alerts := alerts app; view := view app;
     coreLog := coreLog app |}.

(** Rendering a page that calls functions of the core on the current
    snapshot: the page is shown unless building it throws. *)
Definition runCore (app : App) (page : State -> result View)
  : App * option exn :=
  let app' :=
    {| state := state app; session := session app; path := path app;
       storage := storage app; alerts := alerts app; view := view app;
       coreLog := state app :: coreLog app |} in
  match page (state app) with
  | Ok v =>
      ({| state := state app; session := session app; path := path app;
          storage := storage app; alerts := alerts app; view := v;
          coreLog := coreLog app' |}, None)
  | Throw e => (app', Some e)
  end.

(** Rendering a page that calls no function of the core. *)
Definition showPage (app : App) (page : State -> result View)
  : App * option exn :=
  match page (state app) with
  | Ok v =>
      ({| state := state app; session := session app; path := path app;
          storage := storage app; alerts := alerts app; view := v;
          coreLog := coreLog app |}, None)
  | Throw e => (app, Some e)
  end.

(** [function renderDashboard()]: [totals()], [balanceSheet()] and
    [cashFlow()] in this order, then the template, which reads
    [state.company.name] first.  The table of recent entries calls
    [partyName] on its rows; once [totals()] has returned, the three
    collections are there and [partyName] returns (lemma
    [partyName_store]), so the rows, whose choice depends on the dates, are
    left out. *)
Definition renderDashboard (st : State) : result View :=
  t <- totals st ;;
  bs <- balanceSheet st ;;
  cf <- cashFlow st ;;
  _ <- companyField "name" st ;;
  Ok (Dashboard t bs cf).

(** [function renderReports()]: the three reports, then the template, which
    reads [state.company.currency] first; the rows of [renderPartyAging]
    call [calcPartyBalance], which returns once [totals()] has. *)
Definition renderReports (st : State) : result View :=
  t <- totals st ;;
  bs <- balanceSheet st ;;
  cf <- cashFlow st ;;
  _ <- companyField "currency" st ;;
  Ok (Reports t bs cf).

Fixpoint mapM {X Y : Type} (f : X -> result Y) (xs : list X)
  : result (list Y) :=
  match xs with
  | [] => Ok []
  | x :: xs' => y <- f x ;; ys <- mapM f xs' ;; Ok (y :: ys)
  end.

(** [function renderPartyTable(kind)]: every row reads
    [state.company.currency] and then calls [calcPartyBalance(kind, p.id)]. *)
Definition renderPartyTable (kind : string) (st : State) : result View :=
  ps <- member "map"
          (if String.eqb kind "client" then clients st else vendors st) ;;
  bals <- mapM (fun p =>
                  _ <- companyField "currency" st ;;
                  calcPartyBalance st kind (Some (p_id p))) ps ;;
  Ok (PartyTable kind bals).

(** [function renderTxnTable(rows)]: every row calls
    [partyName(t.partyType, t.partyId)] and then reads
    [state.company.currency]. *)
Definition renderTxnTable (st : State) (rows : list Entry)
  : result (list string) :=
  mapM (fun t =>
          name <- partyName st (t_partyType t) (t_partyId t) ;;
          _ <- companyField "currency" st ;;
          Ok name) rows.

(** [function transactionsPage(mode, title, subtitle)]:
    [state.ledger.slice().filter(filterType)] and the table of these rows.
    The source sorts the rows by date, which is not modelled, and the rows
    are taken in ledger order here; the order decides nothing but which of
    the two [TypeError]s is reported on a state that lacks both [company]
    and a collection. *)
Definition transactionsPage (mode : string) (st : State) : result View :=
  l <- member "slice" (ledger st) ;;
  parties <- renderTxnTable st (filter (filterType mode) l) ;;
  Ok (TxnPage mode (List.length parties)).

(** [function renderSettings()]: the template reads [state.company.name],
    then the selector of users is filled. *)
Definition renderSettings (session : option Session) (st : State)
  : result View :=
  _ <- companyField "name" st ;;
  offered <- allowedUsers st session ;;
  Ok (Settings offered).

(** [function route()]: nothing is rendered without a session; the first
    run writes the state; then the page of the route is rendered; an
    unknown route resets the hash. *)
Definition route (app : App) : App * option exn :=
  if negb (loggedIn app) then (app, None)
  else
    let app := if present (storage app) then app else saveState app in
    if String.eqb (path app) "dashboard" then runCore app renderDashboard
    else if String.eqb (path app) "clients"
      then runCore app (renderPartyTable "client")
    else if String.eqb (path app) "vendors"
      then runCore app (renderPartyTable "vendor")
    else if String.eqb (path app) "sales"
      then runCore app (transactionsPage "sale")
    else if String.eqb (path app) "purchases"
      then runCore app (transactionsPage "purchase")
    else if String.eqb (path app) "expenses"
      then runCore app (transactionsPage "expense")
    else if String.eqb (path app) "cash"
      then runCore app (transactionsPage "cash")
    else if String.eqb (path app) "reports" then runCore app renderReports
    else if String.eqb (path app) "settings"
      then showPage app (renderSettings (session app))
    else (setPath app "dashboard", None).

(** The [onload] handler of [function importData(e)]; [file] is what
    [JSON.parse] makes of the chosen file, [None] when no file was chosen. *)
Definition importData (file : option Parsed) (app : App) : App :=
  match file with
  | None => app
  | Some p =>
      match parseSnapshot p with
      | Throw err => alert app ("Import failed: " ++ message err)
      | Ok obj =>
          if guardFails obj then alert app "Import failed: Invalid file"
          else
            let app1 := saveState (setState app obj) in
            let app2 := alert app1 "Imported successfully." in
            match route app2 with
            | (app3, None) => app3
            | (app3, Some err) =>
                alert app3 ("Import failed: " ++ message err)
            end
      end
  end.

(** ** Definitions that follow the words of the specification *)

(** "sum of paid over all entries of a type". *)
Definition paidOfType (type : string) (l : list Entry) : num :=
  sumOf (fun t => safeNum (t_paid t))
        (filter (fun t => String.eqb (t_type t) type) l).

(** "purchase entries whose category equals exactly the literal string
    COGS". *)
Definition isCOGS (t : Entry) : bool :=
  String.eqb (t_type t) "purchase"
  && match t_category t with
     | Some c => String.eqb c "COGS"
     | None => false
     end.

(** The entry type that raises a party's balance and the one that lowers
    it: sales and receipts for a client, purchases and payments for a
    vendor. *)
Definition plusType (partyType : string) : string :=
  if String.eqb partyType "client" then "sale" else "purchase".

Definition minusType (partyType : string) : string :=
  if String.eqb partyType "client" then "cash_in" else "cash_out".

(** "entries whose partyType and partyId both match exactly". *)
Definition ofParty (partyType : string) (id : option string) (t : Entry)
  : bool :=
  opt_eqb (t_partyType t) partyType && opt_eqb2 (t_partyId t) id.

(** The specification's scan of [balanceOf]: a matching entry of the raising
    type adds [amount - paid], one of the lowering type subtracts [amount],
    every other entry is ignored. *)
Definition balance_spec_step (partyType : string) (id : option string)
  (bal : num) (t : Entry) : num :=
  if ofParty partyType id t then
    if String.eqb (t_type t) (plusType partyType)
    then bal + (safeNum (t_amount t) - safeNum (t_paid t))
    else if String.eqb (t_type t) (minusType partyType)
    then bal - safeNum (t_amount t)
    else bal
  else bal.

(** "the party's openingBalance (0 if party not found)"; an empty or null
    id finds no party. *)
Definition openingOf (ps : list Party) (id : option string) : num :=
  if truthy id then
    match findParty ps id with
    | Some p => safeNum (p_openingBalance p)
    | None => num0
    end
  else num0.

(** The signed contribution of an entry to the balance of its party. *)
Definition delta (partyType : string) (t : Entry) : num :=
  if String.eqb (t_type t) (plusType partyType)
  then safeNum (t_amount t) - safeNum (t_paid t)
  else if String.eqb (t_type t) (minusType partyType)
  then num0 - safeNum (t_amount t)
  else num0.

(** The value a [Map] of [calcReceivables] or [calcPayables] accumulates
    under the key [k], one entry at a time. *)
Definition key_step (partyType k : string) (cur : num) (t : Entry) : num :=
  if ofParty partyType (Some k) t then
    if String.eqb (t_type t) (plusType partyType)
    then (cur + safeNum (t_amount t)) - safeNum (t_paid t)
    else if String.eqb (t_type t) (minusType partyType)
    then cur - safeNum (t_amount t)
    else cur
  else cur.

(** Some entry of the ledger writes the key [k] of that [Map]. *)
Definition touches (partyType k : string) (t : Entry) : bool :=
  ofParty partyType (Some k) t
  && (String.eqb (t_type t) (plusType partyType)
      || String.eqb (t_type t) (minusType partyType)).

(** An entry of the given party type whose non-empty partyId matches no
    party of the collection. *)
Definition dangling (partyType : string) (ps : list Party) (t : Entry)
  : bool :=
  opt_eqb (t_partyType t) partyType && truthy (t_partyId t)
  && negb (existsb (fun p => opt_eqb (t_partyId t) (p_id p)) ps).

Definition danglingSum (partyType : string) (ps : list Party)
  (l : list Entry) : num :=
  sumOf (delta partyType) (filter (dangling partyType ps) l).


(** "sum(balanceOf(kind, p.id) for p in parties)". *)
Definition balancesOf (st : State) (kind : string) : result (list num) :=
  ps <- member "map"
          (if String.eqb kind "client" then clients st else vendors st) ;;
  mapM (fun p => calcPartyBalance st kind (Some (p_id p))) ps.

Definition sumBalances (st : State) (kind : string) : result num :=
  rmap sumValues (balancesOf st kind).

(** The contribution of an entry to the balance of the party [id]: its
    signed amount when it is an entry of that party, nothing otherwise. *)
Definition contribution (partyType : string) (id : option string)
  (t : Entry) : num :=
  if ofParty partyType id t then delta partyType t else num0.

(** What an entry adds to the total of the [Map] of [calcReceivables] or
    [calcPayables]: its signed amount when it is typed for that party type
    and names a party, nothing otherwise. *)
Definition increment (partyType : string) (t : Entry) : num :=
  if opt_eqb (t_partyType t) partyType && truthy (t_partyId t)
  then delta partyType t else num0.

(** The total of the values of a [Map]. *)
Definition mapTotal (m : JsMap) : num := sumOf snd m.

(** The figures of [totals()] that are computed from the ledger alone. *)
Definition flows (t : Totals)
  : num * num * num * num * num * num * num * num :=
  (sales t, purchases t, cogs t, expenses t, cashIn t, cashOut t, cash t,
   profit t).

(** "sum(openingBalance of parties)". *)
Definition sumOpening (ps : list Party) : num :=
  sumOf (fun p => safeNum (p_openingBalance p)) ps.

(** "sum of amount over purchase entries tagged COGS". *)
Definition cogsOf (l : list Entry) : num :=
  sumOf (fun t => safeNum (t_amount t)) (filter isCOGS l).

(** The total of the [Map] built by [calcReceivables] (party type
    ["client"]) or [calcPayables] (["vendor"]) from the parties [ps] and the
    ledger [l]. *)
Definition outstandingMap (partyType : string) (ps : list Party)
  (l : list Entry) : JsMap :=
  fold_left (party_step partyType (plusType partyType) (minusType partyType))
            l (openingMap ps).

Definition outstanding (partyType : string) (ps : list Party)
  (l : list Entry) : num :=
  sumValues (map_values (outstandingMap partyType ps l)).

(** *** The figures in the words of the specification

    The definitions below say what a figure is without the functions of
    the code ([Number], [safeNum], [reduce], the loops): the number a field
    stands for, and sums written as plain additions from [0] in list
    order. *)

(** "v's numeric value when it is a finite number and 0 otherwise". *)
Definition finiteOrZero (n : num) : num := if isFinite n then n else num0.

(** The number a field stands for: a number or a numeric string is its
    value when that is finite, [true] is [1], and [false], [null], a missing
    field, [NaN], an infinity and a text that is not a number are [0]. *)
Definition fieldValue (v : jsval) : num :=
  match v with
  | VNum n => finiteOrZero n
  | VStr s => finiteOrZero (StringToNumber s)
  | VBool true => finiteOrZero num1
  | VBool false => num0
  | VNull => num0
  | VUndefined => num0
  end.

(** The numbers of a list added one by one to [acc], in list order. *)
Fixpoint addUp (acc : num) (xs : list num) : num :=
  match xs with
  | [] => acc
  | x :: rest => addUp (acc + x) rest
  end.

(** "sum of [f] over [xs]". *)
Definition sumOver {X : Type} (f : X -> num) (xs : list X) : num :=
  addUp num0 (map f xs).

Definition amountOf (t : Entry) : num := fieldValue (t_amount t).

Definition paidOf (t : Entry) : num := fieldValue (t_paid t).

Definition openingOfParty (p : Party) : num :=
  fieldValue (p_openingBalance p).

(** "entries of the matching type". *)
Definition entriesOfType (type : string) (l : list Entry) : list Entry :=
  filter (fun t => String.eqb (t_type t) type) l.

(** "amount - paid for a sale, -amount for a cash_in" of a client;
    likewise a purchase and a cash_out of a vendor; nothing for an entry of
    another type. *)
Definition signedAmount (partyType : string) (t : Entry) : num :=
  if String.eqb (t_type t) (plusType partyType)
  then amountOf t - paidOf t
  else if String.eqb (t_type t) (minusType partyType)
  then num0 - amountOf t
  else num0.

(** What the entries of the party [k] accumulate "from an implicit opening
    balance of 0", one entry after the other: [cur + amount - paid] for a
    sale (purchase), [cur - amount] for a [cash_in] ([cash_out]). *)
Definition keyTotal (partyType k : string) (l : list Entry) : num :=
  fold_left
    (fun cur t =>
       if ofParty partyType (Some k) t then
         if String.eqb (t_type t) (plusType partyType)
         then (cur + amountOf t) - paidOf t
         else if String.eqb (t_type t) (minusType partyType)
         then cur - amountOf t
         else cur
       else cur)
    l num0.

End Core.

Arguments jsval num : clear implicits.
Arguments Party num : clear implicits.
Arguments Entry num : clear implicits.
Arguments State num : clear implicits.
Arguments JsMap num : clear implicits.
Arguments Sums num : clear implicits.
Arguments Totals num : clear implicits.
Arguments BalanceSheet num : clear implicits.
Arguments CashFlow num : clear implicits.
Arguments Parsed num : clear implicits.
Arguments View num : clear implicits.
Arguments App num : clear implicits.
Arguments VUndefined {num}.
Arguments VNull {num}.
Arguments VBool {num} b.
Arguments VStr {num} s.
Arguments ParseError {num} msg.
Arguments ParsedNull {num}.
Arguments Blank {num}.

(** ** Values that are not primitive

    A snapshot comes from [JSON.parse], so a numeric field can also hold an
    array or an object.  [Number(v)] first converts such a value to a
    primitive (ECMAScript's ToPrimitive with the hint number, which tries
    [valueOf] and then [toString]), and that conversion can throw.  The
    module [Raw] embeds [safeNum] and the calculation functions over such
    fields; the functions above are these functions on snapshots whose
    numeric fields are primitive (lemmas [raw_core_on_primitives] and
    [raw_totals_on_primitives]). *)

Module Raw.

(** The elements of an array joined by commas, as [Array.prototype.join]
    does: the elements are converted from left to right. *)
Section Join.

Variable X : Type.
Variable element : X -> result string.

Fixpoint joinWith (xs : list X) : result string :=
  match xs with
  | [] => Ok ""
  | x :: rest =>
      s <- element x ;;
      match rest with
      | [] => Ok s
      | _ :: _ => r <- joinWith rest ;; Ok (s ++ "," ++ r)
      end
  end.

End Join.

(** [for (const x of xs) s = f(s, x)] where [f] can throw. *)
Fixpoint foldM {X S : Type} (f : S -> X -> result S) (xs : list X) (s : S)
  : result S :=
  match xs with
  | [] => Ok s
  | x :: rest => s' <- f s x ;; foldM f rest s'
  end.

Section RawCore.

Context {num : Type} {A : Arith num}.
Local Open Scope num_scope.

(** [String(n)] for a number [n]. *)
Variable NumberToString : num -> string.

#[local] Set Warnings "-register-all".

(** A value of a parsed snapshot: a primitive, an array, or an object with
    its own properties in the order of the text. *)
Inductive jsdata : Type :=
| JPrim (v : jsval num)
| JArr (items : list jsdata)
| JObj (fields : list (string * jsdata)).

(** The object has an own property of that name. *)
Definition hasOwn (key : string) (fields : list (string * jsdata)) : bool :=
  existsb (fun kv => String.eqb (fst kv) key) fields.

(** The [TypeError] of a conversion to a primitive that finds no method to
    call. *)
Definition cannotConvert : exn :=
  mkExn "TypeError" "Cannot convert object to primitive value".

(** [String(v)] for a primitive. *)
Definition primToString (v : jsval num) : string :=
  match v with
  | VUndefined => "undefined"
  | VNull => "null"
  | VBool true => "true"
  | VBool false => "false"
  | VNum n => NumberToString n
  | VStr s => s
  end.

(** ECMAScript's ToString.  An array is the join of its elements, where
    [undefined] and [null] give the empty string.  An object parsed from
    JSON has no callable property of its own: when it has an own property
    [toString], neither that property nor [valueOf] (own and not callable,
    or [Object.prototype.valueOf], which returns the object) gives a
    primitive, and the conversion throws; otherwise
    [Object.prototype.toString] is found. *)
Fixpoint ToString (d : jsdata) : result string :=
  match d with
  | JPrim v => Ok (primToString v)
  | JArr items =>
      joinWith (fun x => match x with
                         | JPrim VUndefined => Ok ""
                         | JPrim VNull => Ok ""
                         | _ => ToString x
                         end) items
  | JObj fields =>
      if hasOwn "toString" fields then Throw cannotConvert
      else Ok "[object Object]"
  end.

(** ECMAScript's ToPrimitive with the hint number: for an array or an
    object of a parsed snapshot, [valueOf] gives no primitive and the
    result is that of [toString]. *)
Definition ToPrimitive (d : jsdata) : result (jsval num) :=
  match d with
  | JPrim v => Ok v
  | JArr _ => s <- ToString d ;; Ok (VStr s)
  | JObj _ => s <- ToString d ;; Ok (VStr s)
  end.

(** [Number(v)]. *)
Definition Number (d : jsdata) : result num :=
  v <- ToPrimitive d ;; Ok (Number v).

(** [const safeNum = (v) => { const n = Number(v);
                              return Number.isFinite(n) ? n : 0; }] *)
Definition safeNum (d : jsdata) : result num :=
  n <- Number d ;; Ok (if isFinite n then n else num0).

(** A party and a ledger row as they are parsed. *)
Record Party : Type := mkParty {
  p_id : string;
  p_name : string;
  p_openingBalance : jsdata
}.

Record Entry : Type := mkEntry {
  t_id : string;
  t_type : string;
  t_partyType : option string;
  t_partyId : option string;
  t_category : option string;
  t_amount : jsdata;
  t_paid : jsdata
}.

(** The collections of the record store, which are what the calculation
    functions read. *)
Record State : Type := mkState {
  clients : option (list Party);
  vendors : option (list Party);
  ledger : option (list Entry)
}.

Definition findParty (ps : list Party) (partyId : option string)
  : option Party :=
  find (fun x => opt_eqb partyId (p_id x)) ps.

(** [function openingBalance(partyType, partyId)]. *)
Definition openingBalance (st : State) (partyType partyId : option string)
  : result num :=
  if negb (truthy partyType) || negb (truthy partyId) then Ok num0
  else
    ps <- member "find"
            (if opt_eqb partyType "client" then clients st else vendors st) ;;
    safeNum (match findParty ps partyId with
             | Some p => p_openingBalance p
             | None => JPrim VUndefined
             end).

(** [function sumPaid(type)]. *)
Definition sumPaid (st : State) (type : string) : result num :=
  l <- member "filter" (ledger st) ;;
  foldM (fun a t => p <- safeNum (t_paid t) ;; Ok (a + p))
        (filter (fun t => String.eqb (t_type t) type) l) num0.

(** [function purchasesByCategory(cat)]. *)
Definition purchasesByCategory (st : State) (cat : string) : result num :=
  l <- member "filter" (ledger st) ;;
  foldM (fun a t => x <- safeNum (t_amount t) ;; Ok (a + x))
        (filter (fun t => String.eqb (t_type t) "purchase"
                          && String.eqb (orEmpty (t_category t)) cat) l)
        num0.

(** The body of the ledger loop of [calcReceivables] and [calcPayables]. *)
Definition party_step (pt plus minus : string) (m : JsMap num) (t : Entry)
  : result (JsMap num) :=
  if negb (opt_eqb (t_partyType t) pt) || negb (truthy (t_partyId t))
  then Ok m
  else
    let k := orEmpty (t_partyId t) in
    let cur := match map_get m k with Some v => v | None => num0 end in
    m1 <- (if String.eqb (t_type t) plus
           then x <- safeNum (t_amount t) ;;
                p <- safeNum (t_paid t) ;;
                Ok (map_set m k ((cur + x) - p))
           else Ok m) ;;
    if String.eqb (t_type t) minus
    then x <- safeNum (t_amount t) ;; Ok (map_set m1 k (cur - x))
    else Ok m1.

(** [for (const c of parties) byParty.set(c.id, safeNum(c.openingBalance))]. *)
Definition openingMap (parties : list Party) : result (JsMap num) :=
  foldM (fun m c => v <- safeNum (p_openingBalance c) ;;
                    Ok (map_set m (p_id c) v))
        parties [].

(** [function calcReceivables()]. *)
Definition calcReceivables (st : State) : result num :=
  cs <- iterable "state.clients" (clients st) ;;
  byClient <- openingMap cs ;;
  l <- iterable "state.ledger" (ledger st) ;;
  byClient <- foldM (party_step "client" "sale" "cash_in") l byClient ;;
  Ok (sumValues (map_values byClient)).

(** [function calcPayables()]. *)
Definition calcPayables (st : State) : result num :=
  vs <- iterable "state.vendors" (vendors st) ;;
  byVendor <- openingMap vs ;;
  l <- iterable "state.ledger" (ledger st) ;;
  byVendor <- foldM (party_step "vendor" "purchase" "cash_out") l byVendor ;;
  Ok (sumValues (map_values byVendor)).

(** [if (cond) acc += safeNum(v);]. *)
Definition addIf (cond : bool) (acc : num) (v : jsdata) : result num :=
  if cond then x <- safeNum v ;; Ok (acc + x) else Ok acc.

(** The body of the loop of [totals]. *)
Definition totals_step (s : Sums num) (t : Entry) : result (Sums num) :=
  sales <- addIf (String.eqb (t_type t) "sale") (s_sales s) (t_amount t) ;;
  purchases <- addIf (String.eqb (t_type t) "purchase") (s_purchases s)
                     (t_amount t) ;;
  expenses <- addIf (String.eqb (t_type t) "expense") (s_expenses s)
                    (t_amount t) ;;
  cashIn <- addIf (String.eqb (t_type t) "cash_in") (s_cashIn s)
                  (t_amount t) ;;
  cashOut <- addIf (String.eqb (t_type t) "cash_out") (s_cashOut s)
                   (t_amount t) ;;
  Ok {| s_sales := sales; s_purchases := purchases; s_expenses := expenses;
        s_cashIn := cashIn; s_cashOut := cashOut |}.

(** [function totals()]. *)
Definition totals (st : State) : result (Totals num) :=
  l <- iterable "ledger" (ledger st) ;;
  s <- foldM totals_step l (mkSums num0 num0 num0 num0 num0) ;;
  paidSales <- sumPaid st "sale" ;;
  paidPurchases <- sumPaid st "purchase" ;;
  let cash :=
    (paidSales + s_cashIn s) - ((paidPurchases + s_expenses s) + s_cashOut s) in
  receivable <- calcReceivables st ;;
  payable <- calcPayables st ;;
  cogs <- purchasesByCategory st "COGS" ;;
  let profit := (s_sales s - cogs) - s_expenses s in
  Ok {| sales := s_sales s; purchases := s_purchases s; cogs := cogs;
        expenses := s_expenses s; cashIn := s_cashIn s;
        cashOut := s_cashOut s; cash := cash; receivable := receivable;
        payable := payable; profit := profit |}.

(** [function balanceSheet()]. *)
Definition balanceSheet (st : State) : result (BalanceSheet num) :=
  t <- totals st ;;
  let assets := [("Cash", cash t);
                 ("Accounts Receivable (Clients)", receivable t)] in
  let liabilities := [("Accounts Payable (Vendors)", payable t)] in
  let totalAssets := sumOf snd assets in
  let totalLiab := sumOf snd liabilities in
  let equity := totalAssets - totalLiab in
  Ok {| assets := assets; liabilities := liabilities; equity := equity;
        totalAssets := totalAssets; totalLiab := totalLiab |}.

(** [state.ledger.filter(t => t.type === type)
       .reduce((a, t) => a + safeNum(t.amount), 0)]. *)
Definition amountsOfType (type : string) (l : list Entry) : result num :=
  foldM (fun a t => x <- safeNum (t_amount t) ;; Ok (a + x))
        (filter (fun t => String.eqb (t_type t) type) l) num0.

(** [function cashFlow()]. *)
Definition cashFlow (st : State) : result (CashFlow num) :=
  paidSales <- sumPaid st "sale" ;;
  l1 <- member "filter" (ledger st) ;;
  cashIn <- amountsOfType "cash_in" l1 ;;
  let cashFromSales := paidSales + cashIn in
  paidPurchases <- sumPaid st "purchase" ;;
  l2 <- member "filter" (ledger st) ;;
  cashOut <- amountsOfType "cash_out" l2 ;;
  let cashToSuppliers := paidPurchases + cashOut in
  l3 <- member "filter" (ledger st) ;;
  cashToExpenses <- amountsOfType "expense" l3 ;;
  let net := (cashFromSales - cashToSuppliers) - cashToExpenses in
  Ok {| cashFromSales := cashFromSales; cashToSuppliers := cashToSuppliers;
        cashToExpenses := cashToExpenses; net := net |}.

(** The body of the loop of [calcPartyBalance]. *)
Definition balance_step (partyType : string) (id : option string)
  (bal : num) (t : Entry) : result num :=
  if negb (opt_eqb (t_partyType t) partyType)
     || negb (opt_eqb2 (t_partyId t) id)
  then Ok bal
  else if String.eqb partyType "client" then
    bal1 <- (if String.eqb (t_type t) "sale"
             then x <- safeNum (t_amount t) ;;
                  p <- safeNum (t_paid t) ;;
                  Ok (bal + (x - p))
             else Ok bal) ;;
    if String.eqb (t_type t) "cash_in"
    then x <- safeNum (t_amount t) ;; Ok (bal1 - x)
    else Ok bal1
  else
    bal1 <- (if String.eqb (t_type t) "purchase"
             then x <- safeNum (t_amount t) ;;
                  p <- safeNum (t_paid t) ;;
                  Ok (bal + (x - p))
             else Ok bal) ;;
    if String.eqb (t_type t) "cash_out"
    then x <- safeNum (t_amount t) ;; Ok (bal1 - x)
    else Ok bal1.

(** [function calcPartyBalance(kind, id)]. *)
Definition calcPartyBalance (st : State) (kind : string) (id : option string)
  : result num :=
  let partyType := if String.eqb kind "client" then "client" else "vendor" in
  bal <- openingBalance st (Some partyType) id ;;
  l <- iterable "state.ledger" (ledger st) ;;
  foldM (balance_step partyType id) l bal.

End RawCore.

Arguments jsdata num : clear implicits.
Arguments Party num : clear implicits.
Arguments Entry num : clear implicits.
Arguments State num : clear implicits.

End Raw.

(** *** Raw snapshots against primitive ones *)

Section RawSpec.

Context {num : Type} {A : Arith num}.

Variable NumberToString : num -> string.

(** The values that cannot be converted to a primitive: an object with an
    own property [toString], and an array that holds such a value. *)
Fixpoint unconvertible (d : Raw.jsdata num) : bool :=
  match d with
  | Raw.JPrim _ => false
  | Raw.JArr items => existsb unconvertible items
  | Raw.JObj fields => Raw.hasOwn "toString" fields
  end.

(** The primitive a value is converted to ([undefined] stands for the
    values that cannot be converted). *)
Definition primOf (d : Raw.jsdata num) : jsval num :=
  match Raw.ToPrimitive NumberToString d with
  | Ok v => v
  | Throw _ => VUndefined
  end.

Definition primParty (p : Raw.Party num) : Party num :=
  mkParty (Raw.p_id p) (Raw.p_name p) (primOf (Raw.p_openingBalance p)).

Definition primEntry (t : Raw.Entry num) : Entry num :=
  mkEntry (Raw.t_id t) (Raw.t_type t) (Raw.t_partyType t) (Raw.t_partyId t)
          (Raw.t_category t) (primOf (Raw.t_amount t))
          (primOf (Raw.t_paid t)).

Definition convertibleParty (p : Raw.Party num) : bool :=
  negb (unconvertible (Raw.p_openingBalance p)).

Definition convertibleEntry (t : Raw.Entry num) : bool :=
  negb (unconvertible (Raw.t_amount t))
  && negb (unconvertible (Raw.t_paid t)).

(** A party and an entry of the store, as parsed values. *)
Definition rawParty (p : Party num) : Raw.Party num :=
  Raw.mkParty (p_id p) (p_name p) (Raw.JPrim (p_openingBalance p)).

Definition rawEntry (t : Entry num) : Raw.Entry num :=
  Raw.mkEntry (t_id t) (t_type t) (t_partyType t) (t_partyId t)
              (t_category t) (Raw.JPrim (t_amount t))
              (Raw.JPrim (t_paid t)).

(** A raw snapshot in which the three collections are present. *)
Definition rawStore (cs vs : list (Raw.Party num))
  (l : list (Raw.Entry num)) : Raw.State num :=
  {| Raw.clients := Some cs; Raw.vendors := Some vs; Raw.ledger := Some l |}.

End RawSpec.

(** ** Binary64 arithmetic: the numbers of the running program *)

Module F64.

Import PrimFloat.
#[local] Set Warnings "-inexact-float".
Local Open Scope float_scope.

Definition arith (s2n : string -> PrimFloat.float) : Arith PrimFloat.float :=
  {| num0 := PrimFloat.zero;
     num1 := PrimFloat.one;
     numNaN := PrimFloat.nan;
     nadd := PrimFloat.add;
     nsub := PrimFloat.sub;
     isFinite := PrimFloat.is_finite;
     StringToNumber := s2n;
     isFinite_0 := eq_refl;
     isFinite_NaN := eq_refl;
     nadd_0_0 := eq_refl;
     nsub_0_0 := eq_refl |}.

(** The ledgers evaluated below hold numbers only, so the conversion of
    strings plays no part in them; this function stands for it there. *)
Definition noStrings : string -> PrimFloat.float := fun _ => PrimFloat.nan.

(** A snapshot with the default company and users. *)
Definition snapshot (cs vs : list (Party PrimFloat.float))
  (l : list (Entry PrimFloat.float)) : State PrimFloat.float :=
  store (Some (mkCompany "My Business" "PKR" 7)) (Some []) cs vs l.

(** An entry without a party. *)
Definition entry (type : string) (category : option string)
  (amount paid : PrimFloat.float) : Entry PrimFloat.float :=
  mkEntry "" type None None category (VNum amount) (VNum paid).

(** An entry of a party. *)
Definition entryOf (type partyType partyId : string)
  (amount paid : PrimFloat.float) : Entry PrimFloat.float :=
  mkEntry "" type (Some partyType) (Some partyId) None
          (VNum amount) (VNum paid).

Definition js : Arith float := arith noStrings.

(** The parties of [seedDemo] (their ids are random in the source). *)
Definition demoClients : list (Party PrimFloat.float) :=
  [mkParty "c1" "Ali Store" (VNum 12000%float);
   mkParty "c2" "Khan Mart" (VNum 0%float)].

Definition demoVendors : list (Party PrimFloat.float) :=
  [mkParty "v1" "ABC Supplier" (VNum 8000%float)].

(** The ledger of [seedDemo]. *)
Definition demoLedger : list (Entry float) :=
  [mkEntry "t1" "sale" (Some "client") (Some "c1") (Some "Sales")
     (VNum 55000) (VNum 20000);
   mkEntry "t2" "purchase" (Some "vendor") (Some "v1") (Some "COGS")
     (VNum 40000) (VNum 10000);
   mkEntry "t3" "expense" None None (Some "Fuel") (VNum 3000) (VNum 3000);
   mkEntry "t4" "cash_in" (Some "client") (Some "c1") (Some "Receipt")
     (VNum 5000) (VNum 5000);
   mkEntry "t5" "cash_out" (Some "vendor") (Some "v1") (Some "Payment")
     (VNum 7000) (VNum 7000)].

(** A ledger on which [totals().cash] and [cashFlow().net] differ: a sale of
    0.3 paid in full, a purchase of 0.1 paid in full, an expense of 0.2. *)
Definition roundingLedger : list (Entry float) :=
  [entry "sale" None 0.3 0.3;
   entry "purchase" None 0.1 0.1;
   entry "expense" None 0.2 0.2].

(** Three unpaid sales of one client, of 0.1, 0.2 and 0.3. *)
Definition threeSales : list (Entry float) :=
  [entryOf "sale" "client" "c1" 0.1 0;
   entryOf "sale" "client" "c1" 0.2 0;
   entryOf "sale" "client" "c1" 0.3 0].

(** A sale of 1000, 400 of it paid, to the client [c1]. *)
Definition partialSale : list (Entry float) :=
  [entryOf "sale" "client" "c1" 1000 400].

Definition ali : Party float := mkParty "c1" "Ali" (VNum 0).

(** A sale to a client that is not in the store. *)
Definition ghostSale : list (Entry float) :=
  [entryOf "sale" "client" "ghost" 100 0].

End F64.

(** ** Exact arithmetic: integers with a NaN *)

Module Exact.

Local Open Scope Z_scope.

Inductive xnum : Type :=
| XInt (z : Z)
| XNaN.

Definition xadd (a b : xnum) : xnum :=
  match a, b with
  | XInt x, XInt y => XInt (x + y)
  | _, _ => XNaN
  end.

Definition xsub (a b : xnum) : xnum :=
  match a, b with
  | XInt x, XInt y => XInt (x - y)
  | _, _ => XNaN
  end.

Definition xfinite (a : xnum) : bool :=
  match a with XInt _ => true | XNaN => false end.

Definition arith (s2n : string -> xnum) : Arith xnum :=
  {| num0 := XInt 0;
     num1 := XInt 1;
     numNaN := XNaN;
     nadd := xadd;
     nsub := xsub;
     isFinite := xfinite;
     StringToNumber := s2n;
     isFinite_0 := eq_refl;
     isFinite_NaN := eq_refl;
     nadd_0_0 := eq_refl;
     nsub_0_0 := eq_refl |}.

Definition noStrings : string -> xnum := fun _ => XNaN.

Definition zs : Arith xnum := arith noStrings.

Definition snapshot (cs vs : list (Party xnum)) (l : list (Entry xnum))
  : State xnum :=
  store (Some (mkCompany "My Business" "PKR" 7)) (Some []) cs vs l.

Definition entryOf (type partyType partyId : string) (amount paid : Z)
  : Entry xnum :=
  mkEntry "" type (Some partyType) (Some partyId) None
          (VNum (XInt amount)) (VNum (XInt paid)).

Definition demoClients : list (Party xnum) :=
  [mkParty "c1" "Ali Store" (VNum (XInt 12000));
   mkParty "c2" "Khan Mart" (VNum (XInt 0))].

Definition demoVendors : list (Party xnum) :=
  [mkParty "v1" "ABC Supplier" (VNum (XInt 8000))].

(** The ledger of [seedDemo], and a sale to a client that was deleted. *)
Definition demoLedger : list (Entry xnum) :=
  [entryOf "sale" "client" "c1" 55000 20000;
   entryOf "purchase" "vendor" "v1" 40000 10000;
   mkEntry "t3" "expense" None None (Some "Fuel")
     (VNum (XInt 3000)) (VNum (XInt 3000));
   entryOf "cash_in" "client" "c1" 5000 5000;
   entryOf "cash_out" "vendor" "v1" 7000 7000;
   entryOf "sale" "client" "gone" 900 100].

End Exact.

Import Ascii.
Local Open Scope string_scope.
Local Open Scope list_scope.

(** * The pages around the core: text, forms, sessions *)

(** ** Text for HTML and CSV

    A string holds the UTF-8 encoding of a text.  The five characters that
    [escapeHtml] replaces and the double quote of the CSV export are ASCII
    characters, which UTF-8 encodes as themselves and uses in the encoding
    of no other character, so these functions work byte by byte. *)

(** The double quote character. *)
Definition dquote : Ascii.ascii := Eval cbv in Ascii.ascii_of_nat 34.

(** The replacement of one character by [escapeHtml]: the ampersand by
    [&amp;], [<] by [&lt;], [>] by [&gt;], the double quote by [&quot;] and
    the apostrophe by [&#39;]. *)
Definition escapeChar (c : Ascii.ascii) : string :=
  if Ascii.eqb c "&"%char then "&amp;"
  else if Ascii.eqb c "<"%char then "&lt;"
  else if Ascii.eqb c ">"%char then "&gt;"
  else if Ascii.eqb c dquote then "&quot;"
  else if Ascii.eqb c "'"%char then "&#39;"
  else String c "".

(** [function escapeHtml(s)], on a string. *)
Fixpoint escapeHtml (s : string) : string :=
  match s with
  | EmptyString => ""
  | String c s' => escapeChar c ++ escapeHtml s'
  end.

(** One of the five characters [escapeHtml] replaces. *)
Definition isHtmlSpecial (c : Ascii.ascii) : bool :=
  Ascii.eqb c "&"%char || Ascii.eqb c "<"%char || Ascii.eqb c ">"%char
  || Ascii.eqb c dquote || Ascii.eqb c "'"%char.

(** A character that opens or closes a tag or an attribute value. *)
Definition isHtmlDelimiter (c : Ascii.ascii) : bool :=
  Ascii.eqb c "<"%char || Ascii.eqb c ">"%char || Ascii.eqb c dquote
  || Ascii.eqb c "'"%char.

(** [s.replaceAll] of every double quote by two double quotes. *)
Fixpoint doubleQuotes (s : string) : string :=
  match s with
  | EmptyString => ""
  | String c s' =>
      if Ascii.eqb c dquote
      then String dquote (String dquote (doubleQuotes s'))
      else String c (doubleQuotes s')
  end.

(** A text column of the CSV export: the value (the empty string when it is
    missing), its double quotes doubled, between two double quotes. *)
Definition csvField (x : option string) : string :=
  String dquote (doubleQuotes (orEmpty x)) ++ String dquote "".

(** How a CSV reader takes a quoted field: after the opening quote, a
    doubled quote stands for one quote and a single quote ends the field;
    the result is the field's text and the text left after it. *)
Fixpoint readQuoted (s : string) : option (string * string) :=
  match s with
  | EmptyString => None
  | String c s' =>
      if Ascii.eqb c dquote then
        match s' with
        | String c2 s'' =>
            if Ascii.eqb c2 dquote
            then match readQuoted s'' with
                 | Some (f, rest) => Some (String dquote f, rest)
                 | None => None
                 end
            else Some ("", s')
        | EmptyString => Some ("", "")
        end
      else match readQuoted s' with
           | Some (f, rest) => Some (String c f, rest)
           | None => None
           end
  end.

Definition readField (s : string) : option (string * string) :=
  match s with
  | String c s' => if Ascii.eqb c dquote then readQuoted s' else None
  | EmptyString => None
  end.

(** The line feed that joins the lines of the export. *)
Definition newline : Ascii.ascii := Eval cbv in Ascii.ascii_of_nat 10.

(** [function typesForMode()] of a transactions page: the values and the
    labels of the type selector. *)
Definition typesForMode (mode : string) : list (string * string) :=
  if String.eqb mode "sale" then [("sale", "Sale")]
  else if String.eqb mode "purchase" then [("purchase", "Purchase")]
  else if String.eqb mode "expense" then [("expense", "Expense")]
  else if String.eqb mode "cash"
    then [("cash_in", "Cash In (Receipt)"); ("cash_out", "Cash Out (Payment)")]
  else [("sale", "Sale")].

(** [function categoriesFor(type)]. *)
Definition categoriesFor (type : string) : list string :=
  if String.eqb type "sale" then ["Sales"]
  else if String.eqb type "purchase" then ["COGS"; "Asset"; "Other"]
  else if String.eqb type "expense"
    then ["Office"; "Fuel"; "Salary"; "Rent"; "Electricity"; "Internet";
          "Transport"; "Other"]
  else if String.eqb type "cash_in" then ["Receipt"]
  else if String.eqb type "cash_out" then ["Payment"]
  else ["Other"].

(** The routes of the four transactions pages. *)
Definition txnModes : list string := ["sale"; "purchase"; "expense"; "cash"].

(** The five entry types. *)
Definition entryTypes : list string :=
  ["sale"; "purchase"; "expense"; "cash_in"; "cash_out"].

(** The number of UTF-16 code units of the character that a byte of a
    UTF-8 text starts: a byte below 128 is a character of one code unit, a
    byte [10xxxxxx] continues a character, a leading byte [110xxxxx] or
    [1110xxxx] starts a character of one code unit and a leading byte
    [11110xxx] a character of two (a surrogate pair). *)
Definition codeUnits (c : Ascii.ascii) : nat :=
  let n := nat_of_ascii c in
  if Nat.ltb n 128 then 1
  else if Nat.ltb n 192 then 0
  else if Nat.ltb n 240 then 1
  else 2.

(** [s.length]: the number of UTF-16 code units of the text. *)
Fixpoint jsLength (s : string) : nat :=
  match s with
  | EmptyString => 0
  | String c s' => codeUnits c + jsLength s'
  end.

(** [u.password = newPass] on the first user of that name. *)
Fixpoint setPassword (uname newPass : string) (us : list User) : list User :=
  match us with
  | [] => []
  | u :: rest =>
      if String.eqb (username u) uname
      then mkUser (username u) newPass (role u) :: rest
      else u :: setPassword uname newPass rest
  end.

Section Pages.

Context {num : Type} {A : Arith num}.

(** [s.trim()]. *)
Variable trim : string -> string.

(** [function partyOptions(type)]: the ids and names of the party selector. *)
Definition partyOptions (st : State num) (type : string)
  : result (list (string * string)) :=
  if String.eqb type "sale" || String.eqb type "cash_in" then
    cs <- member "map" (clients st) ;;
    Ok (("", "(No Party)") :: map (fun c => (p_id c, p_name c)) cs)
  else if String.eqb type "purchase" || String.eqb type "cash_out" then
    vs <- member "map" (vendors st) ;;
    Ok (("", "(No Party)") :: map (fun v => (p_id v, p_name v)) vs)
  else Ok [("", "(No Party)")].

(** [function tryLogin(username, password)]: the session it sets, [None]
    when it returns [false] and leaves the session as it is. *)
Definition tryLogin (st : State num) (uname pass : string)
  : result (option Session) :=
  us <- member "find" (users st) ;;
  Ok (match find (fun x => String.eqb (username x) uname
                           && String.eqb (password x) pass) us with
      | Some u => Some (mkSession (username u) (role u))
      | None => None
      end).

(** The [btnSavePass] handler on the state: the state it leaves and the
    message it alerts. *)
Definition changePassword (st : State num) (uname newPass : string)
  : result (State num * string) :=
  if String.eqb newPass "" || Nat.ltb (jsLength newPass) 4
  then Ok (st, "Password must be at least 4 characters.")
  else
    us <- member "find" (users st) ;;
    match find (fun x => String.eqb (username x) uname) us with
    | None => Ok (st, "User not found.")
    | Some _ =>
        Ok ({| company := company st;
               users := Some (setPassword uname newPass us);
               clients := clients st; vendors := vendors st;
               ledger := ledger st |}, "Password updated.")
    end.

(** ** The party form *)

(** The fields of the party form that the calculations read: the hidden id
    (empty when a party is added), the name and the opening balance as
    typed. *)
Record PartyForm : Type := mkPartyForm {
  f_id : string;
  f_name : string;
  f_opening : string
}.

(** [Object.assign(existing, obj)] on the first party of that id. *)
Fixpoint replaceParty (id : string) (obj : Party num) (ps : list (Party num))
  : list (Party num) :=
  match ps with
  | [] => []
  | x :: rest =>
      if String.eqb (p_id x) id then obj :: rest
      else x :: replaceParty id obj rest
  end.

(** The object the party form builds; [uid] is what [uid()] returns. *)
Definition partyOfForm (form : PartyForm) (uid : string) : Party num :=
  mkParty (if String.eqb (f_id form) "" then uid else f_id form)
          (trim (f_name form))
          (VNum (safeNum (VStr (f_opening form)))).

(** The submit handler of [bindPartyModal], on the state. *)
Definition upsertParty (st : State num) (kind : string) (form : PartyForm)
  (uid : string) : result (State num) :=
  ps <- member "find"
          (if String.eqb kind "client" then clients st else vendors st) ;;
  let obj := partyOfForm form uid in
  let ps' :=
    match findParty ps (Some (p_id obj)) with
    | Some _ => replaceParty (p_id obj) obj ps
    | None => ps ++ [obj]
    end in
  Ok (if String.eqb kind "client"
      then {| company := company st; users := users st;
              clients := Some ps'; vendors := vendors st;
              ledger := ledger st |}
      else {| company := company st; users := users st;
              clients := clients st; vendors := Some ps';
              ledger := ledger st |}).

(** ** The transaction form *)

(** The fields of the transaction form that the calculations read: the
    hidden id, the type, the value of the party selector (empty for no
    party), the category, and the amount and the paid amount as typed. *)
Record TxnForm : Type := mkTxnForm {
  x_id : string;
  x_type : string;
  x_party : string;
  x_category : string;
  x_amount : string;
  x_paid : string
}.

(** The object the transaction form builds. *)
Definition entryOfForm (form : TxnForm) (uid : string) : Entry num :=
  let type := x_type form in
  let partyId :=
    if String.eqb (x_party form) "" then None else Some (x_party form) in
  let partyType :=
    if String.eqb type "sale" || String.eqb type "cash_in"
    then (if truthy partyId then Some "client" else None)
    else if String.eqb type "purchase" || String.eqb type "cash_out"
    then (if truthy partyId then Some "vendor" else None)
    else None in
  mkEntry (if String.eqb (x_id form) "" then uid else x_id form)
          type partyType partyId (Some (x_category form))
          (VNum (safeNum (VStr (x_amount form))))
          (VNum (safeNum (VStr (x_paid form)))).

(** [state.ledger.find(x => x.id === id)]. *)
Definition findEntry (l : list (Entry num)) (id : string)
  : option (Entry num) :=
  find (fun x => String.eqb (t_id x) id) l.

(** [Object.assign(existing, obj)] on the first entry of that id. *)
Fixpoint replaceEntry (id : string) (obj : Entry num) (l : list (Entry num))
  : list (Entry num) :=
  match l with
  | [] => []
  | x :: rest =>
      if String.eqb (t_id x) id then obj :: rest
      else x :: replaceEntry id obj rest
  end.

(** The submit handler of the transaction form, on the state. *)
Definition saveTxn (st : State num) (form : TxnForm) (uid : string)
  : result (State num) :=
  let obj := entryOfForm form uid in
  l <- member "find" (ledger st) ;;
  let l' :=
    match findEntry l (t_id obj) with
    | Some _ => replaceEntry (t_id obj) obj l
    | None => l ++ [obj]
    end in
  Ok {| company := company st; users := users st; clients := clients st;
        vendors := vendors st; ledger := Some l' |}.

(** [const idx = state.ledger.findIndex(x => x.id === id);
     if (idx >= 0) state.ledger.splice(idx, 1);]. *)
Fixpoint removeEntry (id : string) (l : list (Entry num))
  : list (Entry num) :=
  match l with
  | [] => []
  | x :: rest =>
      if String.eqb (t_id x) id then rest else x :: removeEntry id rest
  end.

(** The [del] action of a transactions table, on the state. *)
Definition deleteTxn (st : State num) (id : string) : result (State num) :=
  l <- member "findIndex" (ledger st) ;;
  Ok {| company := company st; users := users st; clients := clients st;
        vendors := vendors st; ledger := Some (removeEntry id l) |}.

(** ** The handlers in the running application *)

(** The end of every handler that changes the state:
    [saveState(state); route();]. *)
Definition commit (app : App num) (r : result (State num))
  : App num * option exn :=
  match r with
  | Ok st => route (saveState (setState app st))
  | Throw e => (app, Some e)
  end.

(** The submit handler of the party form. *)
Definition onSaveParty (kind : string) (form : PartyForm) (uid : string)
  (app : App num) : App num * option exn :=
  commit app (upsertParty (state app) kind form uid).

(** The [del] action of the party table; [confirmed] is the answer to
    [confirm(...)]. *)
Definition onDeleteParty (kind id : string) (confirmed : bool)
  (app : App num) : App num * option exn :=
  if String.eqb id "" then (app, None)
  else if negb confirmed then (app, None)
  else commit app (deleteParty (state app) kind id).

(** The submit handler of the transaction form. *)
Definition onSaveTxn (form : TxnForm) (uid : string) (app : App num)
  : App num * option exn :=
  commit app (saveTxn (state app) form uid).

(** The [del] action of a transactions table. *)
Definition onDeleteTxn (id : string) (confirmed : bool) (app : App num)
  : App num * option exn :=
  if String.eqb id "" then (app, None)
  else if negb confirmed then (app, None)
  else commit app (deleteTxn (state app) id).

End Pages.

(** ** Forms and numbers for the examples *)

Module Demo.

Import PrimFloat.

(** The value of a decimal digit. *)
Definition digitValue (c : ascii) : option nat :=
  let n := nat_of_ascii c in
  if Nat.leb 48 n && Nat.leb n 57 then Some (n - 48)%nat else None.

(** [Number(s)] on the strings the examples type into the forms: the empty
    string is [0] and a string of decimal digits is its value; every other
    string stands for a text that is not a number. *)
Fixpoint digitsZ (s : string) (acc : Z) : option Z :=
  match s with
  | EmptyString => Some acc
  | String c s' =>
      match digitValue c with
      | Some d => digitsZ s' (10 * acc + Z.of_nat d)%Z
      | None => None
      end
  end.

Definition exactNumber (s : string) : Exact.xnum :=
  match digitsZ s 0%Z with
  | Some z => Exact.XInt z
  | None => Exact.XNaN
  end.

Definition floatDigit (d : nat) : PrimFloat.float :=
  match d with
  | 0%nat => 0%float | 1%nat => 1%float | 2%nat => 2%float
  | 3%nat => 3%float | 4%nat => 4%float | 5%nat => 5%float
  | 6%nat => 6%float | 7%nat => 7%float | 8%nat => 8%float
  | _ => 9%float
  end.

Fixpoint digitsFloat (s : string) (acc : PrimFloat.float)
  : option PrimFloat.float :=
  match s with
  | EmptyString => Some acc
  | String c s' =>
      match digitValue c with
      | Some d =>
          digitsFloat s'
            (PrimFloat.add (PrimFloat.mul 10%float acc) (floatDigit d))
      | None => None
      end
  end.

Definition floatNumber (s : string) : PrimFloat.float :=
  match digitsFloat s 0%float with
  | Some x => x
  | None => PrimFloat.nan
  end.

Definition js : Arith PrimFloat.float := F64.arith floatNumber.

Definition zs : Arith Exact.xnum := Exact.arith exactNumber.

(** An expense of 500 for fuel, paid in full. *)
Definition fuelForm : TxnForm := mkTxnForm "" "expense" "" "Fuel" "500" "500".

(** A sale of 1000 to the client [c1], 400 of it paid. *)
Definition saleForm : TxnForm :=
  mkTxnForm "" "sale" "c1" "Sales" "1000" "400".

(** A new party with an opening balance of 2500. *)
Definition shopForm : PartyForm := mkPartyForm "" "New Shop" "2500".

(** A ledger whose numeric fields hold what an import or a half-filled
    form can leave in them: numbers, numeric strings, a text, [null], a
    missing field, an infinity. *)
Definition mixedLedger : list (Entry PrimFloat.float) :=
  [mkEntry "m1" "sale" None None (Some "Sales")
     (VNum 55000%float) (VNum 20000%float);
   mkEntry "m2" "sale" None None (Some "Sales") (VStr "1500") VNull;
   mkEntry "m3" "purchase" None None (Some "COGS")
     (VNum 40000%float) (VStr "abc");
   mkEntry "m4" "purchase" None None (Some "Asset")
     (VNum 250%float) (VNum 250%float);
   mkEntry "m5" "purchase" None None (Some "cogs") (VStr "10") VUndefined;
   mkEntry "m6" "expense" None None (Some "Fuel") VUndefined VUndefined;
   mkEntry "m7" "expense" None None None
     (VNum 3000%float) (VNum 3000%float);
   mkEntry "m8" "cash_in" None None None (VNum 5000%float) VNull;
   mkEntry "m9" "cash_in" None None None (VNum PrimFloat.infinity) VNull;
   mkEntry "m10" "cash_out" None None None (VStr "7000") VNull].

(** The parsed ledgers evaluated below hold no array of numbers, so the
    printing of numbers plays no part in them; this function stands for it
    there. *)
Definition noPrinting : PrimFloat.float -> string := fun _ => "NaN".

(** A parsed ledger whose numeric fields hold values that are not numbers
    but convert: a numeric string, an array of one numeric string, an empty
    array, an object without a [toString] of its own, [null], a missing
    field. *)
Definition parsedLedger : list (Raw.Entry PrimFloat.float) :=
  [Raw.mkEntry "r1" "sale" None None None
     (Raw.JPrim (VNum 55000%float)) (Raw.JPrim (VStr "20000"));
   Raw.mkEntry "r2" "sale" None None None
     (Raw.JArr [Raw.JPrim (VStr "1500")]) (Raw.JArr []);
   Raw.mkEntry "r3" "expense" None None None
     (Raw.JObj [("value", Raw.JPrim (VNum 3000%float))]) (Raw.JPrim VNull);
   Raw.mkEntry "r4" "expense" None None None
     (Raw.JPrim (VNum 3000%float)) (Raw.JPrim VUndefined)].

(** What [JSON.parse] makes of [{"valueOf":0,"toString":0}]. *)
Definition badAmount : Raw.jsdata PrimFloat.float :=
  Raw.JObj [("valueOf", Raw.JPrim (VNum 0%float));
            ("toString", Raw.JPrim (VNum 0%float))].

(** The parsed ledger followed by a sale whose amount is that object. *)
Definition poisonedLedger : list (Raw.Entry PrimFloat.float) :=
  parsedLedger
  ++ [Raw.mkEntry "r5" "sale" None None None
        badAmount (Raw.JPrim (VNum 0%float))].

(** The demo data on the dashboard, with a session, saved. *)
Definition app : App PrimFloat.float :=
  mkApp (F64.snapshot F64.demoClients F64.demoVendors F64.demoLedger)
        (Some (mkSession "admin" "admin")) "dashboard"
        (Some (F64.snapshot F64.demoClients F64.demoVendors F64.demoLedger))
        [] Blank [].

End Demo.

(** * Properties *)

Section CoreFacts.

Context {num : Type} {A : Arith num}.
Local Open Scope num_scope.
Local Open Scope string_scope.
Local Open Scope list_scope.

(** ** Numeric coercion *)

Lemma safeNum_finite (v : jsval num) : isFinite (safeNum v) = true.
Proof.
  unfold safeNum.
  destruct (isFinite (Number v)) eqn:E.
  - exact E.
  - apply isFinite_0.
Qed.

Lemma safeNum_undefined : safeNum VUndefined = num0.
Proof. unfold safeNum; simpl. now rewrite isFinite_NaN. Qed.

Lemma safeNum_null : safeNum VNull = num0.
Proof. unfold safeNum; simpl. now destruct (isFinite num0). Qed.

(** ** The loop of [totals] against [filter] and [reduce] *)

Lemma totals_loop (l : list (Entry num)) (s : Sums num) :
  fold_left totals_step l s =
  let amt := fun a (t : Entry num) => a + safeNum (t_amount t) in
  let of_type := fun ty => filter (fun t => String.eqb (t_type t) ty) l in
  {| s_sales := fold_left amt (of_type "sale") (s_sales s);
     s_purchases := fold_left amt (of_type "purchase") (s_purchases s);
     s_expenses := fold_left amt (of_type "expense") (s_expenses s);
     s_cashIn := fold_left amt (of_type "cash_in") (s_cashIn s);
     s_cashOut := fold_left amt (of_type "cash_out") (s_cashOut s) |}.
Proof.
  revert s; induction l as [|t l IH]; intros s.
  - now destruct s.
  - cbn [fold_left filter]. rewrite IH. cbv zeta. unfold totals_step.
    cbn [s_sales s_purchases s_expenses s_cashIn s_cashOut].
    f_equal.
    + now destruct (String.eqb (t_type t) "sale").
    + now destruct (String.eqb (t_type t) "purchase").
    + now destruct (String.eqb (t_type t) "expense").
    + now destruct (String.eqb (t_type t) "cash_in").
    + now destruct (String.eqb (t_type t) "cash_out").
Qed.

Lemma source_cogs_filter (l : list (Entry num)) :
  filter (fun t => String.eqb (t_type t) "purchase"
                   && String.eqb (orEmpty (t_category t)) "COGS") l
  = filter isCOGS l.
Proof.
  apply filter_ext; intros t. unfold isCOGS.
  now destruct (t_category t).
Qed.

(** [totals()] on a snapshot whose collections are present. *)
Lemma totals_store co us (cs vs : list (Party num)) (l : list (Entry num)) :
  totals (store co us cs vs l) =
  Ok {| sales := amountsOfType "sale" l;
        purchases := amountsOfType "purchase" l;
        cogs := cogsOf l;
        expenses := amountsOfType "expense" l;
        cashIn := amountsOfType "cash_in" l;
        cashOut := amountsOfType "cash_out" l;
        cash := (paidOfType "sale" l + amountsOfType "cash_in" l)
                - ((paidOfType "purchase" l + amountsOfType "expense" l)
                   + amountsOfType "cash_out" l);
        receivable := outstanding "client" cs l;
        payable := outstanding "vendor" vs l;
        profit := (amountsOfType "sale" l - cogsOf l)
                  - amountsOfType "expense" l |}.
Proof.
  unfold totals, store, sumPaid, purchasesByCategory, calcReceivables,
    calcPayables.
  cbn [ledger clients vendors iterable member bind].
  rewrite totals_loop. cbv zeta.
  cbn [s_sales s_purchases s_expenses s_cashIn s_cashOut].
  rewrite source_cogs_filter.
  reflexivity.
Qed.

Lemma cashFlow_store co us (cs vs : list (Party num)) (l : list (Entry num)) :
  cashFlow (store co us cs vs l) =
  Ok {| cashFromSales := paidOfType "sale" l + amountsOfType "cash_in" l;
        cashToSuppliers :=
          paidOfType "purchase" l + amountsOfType "cash_out" l;
        cashToExpenses := amountsOfType "expense" l;
        net := ((paidOfType "sale" l + amountsOfType "cash_in" l)
                - (paidOfType "purchase" l + amountsOfType "cash_out" l))
               - amountsOfType "expense" l |}.
Proof. reflexivity. Qed.

(** ** Maps *)

Lemma map_set_fresh (m : JsMap num) (k : string) (v : num) :
  map_get m k = None -> map_set m k v = m ++ [(k, v)].
Proof.
  induction m as [|[k' v'] m IH]; simpl; intros H.
  - reflexivity.
  - destruct (String.eqb k' k); [discriminate|].
    now rewrite IH.
Qed.

Lemma map_get_app (m1 m2 : JsMap num) (k : string) :
  map_get (m1 ++ m2) k =
  match map_get m1 k with Some v => Some v | None => map_get m2 k end.
Proof.
  induction m1 as [|[k' v'] m1 IH]; simpl.
  - reflexivity.
  - now destruct (String.eqb k' k).
Qed.

Lemma openingMap_from (cs : list (Party num)) (m : JsMap num) :
  NoDup (map (@p_id num) cs) ->
  (forall c, In c cs -> map_get m (p_id c) = None) ->
  fold_left (fun m c => map_set m (p_id c) (safeNum (p_openingBalance c)))
            cs m
  = m ++ map (fun c => (p_id c, safeNum (p_openingBalance c))) cs.
Proof.
  revert m; induction cs as [|c cs IH]; simpl; intros m ND Hm.
  - now rewrite app_nil_r.
  - inversion ND as [|x xs Hnotin ND']; subst.
    rewrite map_set_fresh by (apply Hm; now left).
    rewrite IH; trivial.
    + now rewrite <- app_assoc.
    + intros c' Hc'. rewrite map_get_app.
      rewrite Hm by (now right). simpl.
      destruct (String.eqb (p_id c) (p_id c')) eqn:E; trivial.
      apply String.eqb_eq in E. exfalso; apply Hnotin.
      rewrite E. now apply in_map.
Qed.

(** With distinct ids the first loop of [calcReceivables] lists the
    parties' opening balances in their order. *)
Lemma openingMap_nodup (cs : list (Party num)) :
  NoDup (map (@p_id num) cs) ->
  openingMap cs = map (fun c => (p_id c, safeNum (p_openingBalance c))) cs.
Proof.
  intros ND. unfold openingMap. now rewrite openingMap_from.
Qed.

Lemma fold_left_map_add {X : Type} (g : X -> num) (xs : list X) (a : num) :
  fold_left nadd (map g xs) a = fold_left (fun a x => a + g x) xs a.
Proof.
  revert a; induction xs as [|x xs IH]; simpl; intros a; trivial.
Qed.

Lemma sumValues_opening (cs : list (Party num)) :
  sumValues
    (map_values (map (fun c => (p_id c, safeNum (p_openingBalance c))) cs))
  = sumOpening cs.
Proof.
  unfold sumValues, map_values, sumOpening, sumOf.
  rewrite map_map. simpl. apply fold_left_map_add.
Qed.

(** ** The code against the figures of the specification *)

Lemma safeNum_fieldValue (v : jsval num) : safeNum v = fieldValue v.
Proof.
  destruct v as [| |[|]|n|s]; unfold safeNum, fieldValue, finiteOrZero;
    cbn [Number]; trivial.
  - now rewrite isFinite_NaN.
  - now destruct (isFinite num0).
  - now destruct (isFinite num0).
Qed.

Lemma addUp_fold (xs : list num) (acc : num) :
  addUp acc xs = fold_left nadd xs acc.
Proof. revert acc; induction xs as [|x xs IH]; intros acc; cbn; trivial. Qed.

Lemma sumValues_sumOver (m : JsMap num) :
  sumValues (map_values m) = sumOver snd m.
Proof. unfold sumValues, sumOver, map_values. now rewrite addUp_fold. Qed.

Lemma sumOf_sumOver {X : Type} (f g : X -> num) (xs : list X) :
  (forall x, f x = g x) -> sumOf f xs = sumOver g xs.
Proof.
  intros H. unfold sumOf, sumOver. rewrite addUp_fold, fold_left_map_add.
  generalize (@num0 num A) as acc.
  induction xs as [|x xs IH]; intros acc; cbn; trivial.
  now rewrite H, IH.
Qed.

Lemma amountsOfType_sumOver (type : string) (l : list (Entry num)) :
  amountsOfType type l = sumOver amountOf (entriesOfType type l).
Proof.
  unfold amountsOfType, entriesOfType. apply sumOf_sumOver.
  intros t. apply safeNum_fieldValue.
Qed.

Lemma paidOfType_sumOver (type : string) (l : list (Entry num)) :
  paidOfType type l = sumOver paidOf (entriesOfType type l).
Proof.
  unfold paidOfType, entriesOfType. apply sumOf_sumOver.
  intros t. apply safeNum_fieldValue.
Qed.

Lemma cogsOf_sumOver (l : list (Entry num)) :
  cogsOf l = sumOver amountOf (filter isCOGS l).
Proof.
  unfold cogsOf. apply sumOf_sumOver. intros t. apply safeNum_fieldValue.
Qed.

(** ** C5, C6, C9 *)

(** C5: for every snapshot, [totals()] returns [sales], [purchases] and
    [expenses] as the sum of [amount] over the entries of the matching type,
    [cashIn] and [cashOut] as the sum of [amount] over the [cash_in] and
    [cash_out] entries, and [cash] as (sum of [paid] over the sale entries +
    [cashIn]) minus (sum of [paid] over the purchase entries + [expenses] +
    [cashOut]); the amounts are the numbers the fields stand for, added from
    [0] in ledger order. *)
Theorem totals_flow_figures :
  forall co us (cs vs : list (Party num)) (l : list (Entry num)),
  exists t,
    totals (store co us cs vs l) = Ok t
    /\ sales t = sumOver amountOf (entriesOfType "sale" l)
    /\ purchases t = sumOver amountOf (entriesOfType "purchase" l)
    /\ expenses t = sumOver amountOf (entriesOfType "expense" l)
    /\ cashIn t = sumOver amountOf (entriesOfType "cash_in" l)
    /\ cashOut t = sumOver amountOf (entriesOfType "cash_out" l)
    /\ cash t = (sumOver paidOf (entriesOfType "sale" l) + cashIn t)
                - ((sumOver paidOf (entriesOfType "purchase" l) + expenses t)
                   + cashOut t).
Proof.
  intros. eexists. split; [apply totals_store|].
  cbn [sales purchases expenses cashIn cashOut cash].
  rewrite !amountsOfType_sumOver, !paidOfType_sumOver.
  repeat split.
Qed.

Lemma amountsOfType_insert (ty : string) (e : Entry num)
  (l1 l2 : list (Entry num)) :
  String.eqb (t_type e) ty = false ->
  amountsOfType ty (l1 ++ e :: l2) = amountsOfType ty (l1 ++ l2).
Proof.
  intros H. unfold amountsOfType.
  rewrite !filter_app. cbn [filter]. now rewrite H.
Qed.

Lemma cogsOf_insert (e : Entry num) (l1 l2 : list (Entry num)) :
  isCOGS e = false -> cogsOf (l1 ++ e :: l2) = cogsOf (l1 ++ l2).
Proof.
  intros H. unfold cogsOf.
  rewrite !filter_app. cbn [filter]. now rewrite H.
Qed.

Lemma isCOGS_iff (t : Entry num) :
  isCOGS t = true <-> t_type t = "purchase" /\ t_category t = Some "COGS".
Proof.
  unfold isCOGS. rewrite andb_true_iff, String.eqb_eq.
  destruct (t_category t) as [c|].
  - rewrite String.eqb_eq. split; intros [H1 H2]; split; congruence.
  - split; intros [H1 H2]; discriminate.
Qed.

(** C6: for every snapshot, [totals().cogs] is the sum of [amount] over the
    purchase entries whose category is exactly the string COGS (an entry with
    another category, or none, is left out), [totals().profit] is
    [sales - cogs - expenses], and a purchase that is not tagged COGS does
    not change the profit. *)
Theorem cogs_and_profit :
  forall co us (cs vs : list (Party num)) (l : list (Entry num)),
  exists t,
    totals (store co us cs vs l) = Ok t
    /\ cogs t = sumOver amountOf (filter isCOGS l)
    /\ (forall e : Entry num, isCOGS e = true <->
                  t_type e = "purchase" /\ t_category e = Some "COGS")
    /\ profit t = (sales t - cogs t) - expenses t
    /\ (forall (e : Entry num) l1 l2,
          l = l1 ++ e :: l2 ->
          t_type e = "purchase" -> t_category e <> Some "COGS" ->
          rmap (@profit num) (totals (store co us cs vs (l1 ++ l2)))
          = Ok (profit t)).
Proof.
  intros. eexists. split; [apply totals_store|].
  cbn [sales cogs expenses profit].
  split; [apply cogsOf_sumOver|]. split; [exact isCOGS_iff|].
  split; [reflexivity|].
  intros e l1 l2 -> Hty Hcat.
  rewrite totals_store. cbn [rmap bind profit].
  assert (Hc : isCOGS e = false).
  { destruct (isCOGS e) eqn:E; trivial.
    apply isCOGS_iff in E. tauto. }
  rewrite !amountsOfType_insert, cogsOf_insert; trivial;
    now rewrite Hty.
Qed.

Lemma calcPartyBalance_store co us (cs vs : list (Party num))
  (l : list (Entry num)) (kind : string) (id : option string) :
  let partyType := if String.eqb kind "client" then "client" else "vendor" in
  calcPartyBalance (store co us cs vs l) kind id =
  Ok (fold_left (balance_step partyType id) l
        (openingOf (if String.eqb kind "client" then cs else vs) id)).
Proof.
  unfold calcPartyBalance, openingBalance, openingOf, store.
  destruct (String.eqb kind "client"); cbn;
    destruct (truthy id); cbn; trivial;
    destruct (findParty _ id); trivial;
    now rewrite safeNum_undefined.
Qed.

Lemma balanceSheet_store co us (cs vs : list (Party num))
  (l : list (Entry num)) :
  throws (balanceSheet (store co us cs vs l)) = false.
Proof. unfold balanceSheet. now rewrite totals_store. Qed.

(** C9: for every snapshot whose ledger is empty, [sales], [purchases],
    [expenses] and [cash] are [0], and, the clients' ids being distinct,
    [totals().receivable] is the sum of the clients' opening balances. *)
Theorem zero_ledger_baseline :
  forall co us (cs vs : list (Party num)),
  exists t,
    totals (store co us cs vs []) = Ok t
    /\ sales t = num0 /\ purchases t = num0 /\ expenses t = num0
    /\ cash t = num0
    /\ (NoDup (map (@p_id num) cs) ->
        receivable t = sumOver openingOfParty cs).
Proof.
  intros co us cs vs. eexists. split; [apply totals_store|].
  cbn [receivable sales purchases expenses cash].
  do 3 (split; [reflexivity|]).
  split.
  - unfold paidOfType, amountsOfType, sumOf. cbn [filter fold_left].
    now rewrite !nadd_0_0, nsub_0_0.
  - intros ND. unfold outstanding, outstandingMap. cbn [fold_left].
    rewrite openingMap_nodup by exact ND.
    rewrite sumValues_opening. unfold sumOpening, openingOfParty.
    apply sumOf_sumOver. intros p. apply safeNum_fieldValue.
Qed.

(** ** The scan of [calcPartyBalance] *)

Lemma plus_not_minus (pt : string) :
  String.eqb (plusType pt) (minusType pt) = false.
Proof. unfold plusType, minusType. now destruct (String.eqb pt "client"). Qed.

Lemma eqb_plus_minus (pt ty : string) :
  String.eqb ty (plusType pt) = true -> String.eqb ty (minusType pt) = false.
Proof.
  intros H. apply String.eqb_eq in H. subst ty. apply plus_not_minus.
Qed.

Lemma sale_not_cash_in (ty : string) :
  String.eqb ty "sale" = true -> String.eqb ty "cash_in" = false.
Proof. exact (eqb_plus_minus "client" ty). Qed.

Lemma purchase_not_cash_out (ty : string) :
  String.eqb ty "purchase" = true -> String.eqb ty "cash_out" = false.
Proof. exact (eqb_plus_minus "vendor" ty). Qed.

(** The two consecutive [if]s of the source are the case distinction of the
    specification. *)
Lemma balance_step_spec (kind : string) (id : option string) (bal : num)
  (t : Entry num) :
  let partyType := if String.eqb kind "client" then "client" else "vendor" in
  balance_step partyType id bal t = balance_spec_step partyType id bal t.
Proof.
  cbv zeta. unfold balance_step, balance_spec_step, ofParty.
  destruct (opt_eqb (t_partyType t) _); cbn [negb orb andb]; trivial.
  destruct (opt_eqb2 (t_partyId t) id); cbn [negb]; trivial.
  destruct (String.eqb kind "client"); cbn.
  - destruct (String.eqb (t_type t) "sale") eqn:E; trivial.
    now rewrite (sale_not_cash_in _ E).
  - destruct (String.eqb (t_type t) "purchase") eqn:E; trivial.
    now rewrite (purchase_not_cash_out _ E).
Qed.

Lemma balance_fold_spec (kind : string) (id : option string)
  (l : list (Entry num)) (bal : num) :
  let partyType := if String.eqb kind "client" then "client" else "vendor" in
  fold_left (balance_step partyType id) l bal
  = fold_left (balance_spec_step partyType id) l bal.
Proof.
  cbv zeta. revert bal; induction l as [|t l IH]; intros bal; simpl; trivial.
  rewrite IH. f_equal. apply (balance_step_spec kind).
Qed.

(** [balanceOf] on a snapshot whose collections are present: the scan of
    the specification, started from the opening balance. *)
Lemma calcPartyBalance_spec co us (cs vs : list (Party num))
  (l : list (Entry num)) (kind : string) (id : option string) :
  calcPartyBalance (store co us cs vs l) kind id =
  Ok (fold_left
        (balance_spec_step
           (if String.eqb kind "client" then "client" else "vendor") id)
        l (openingOf (if String.eqb kind "client" then cs else vs) id)).
Proof.
  rewrite calcPartyBalance_store. cbv zeta.
  now rewrite (balance_fold_spec kind).
Qed.

(** ** The [Map] of [calcReceivables] and [calcPayables], key by key *)

Lemma map_get_set_same (m : JsMap num) (k : string) (v : num) :
  map_get (map_set m k v) k = Some v.
Proof.
  induction m as [|[k' v'] m IH]; simpl.
  - now rewrite String.eqb_refl.
  - destruct (String.eqb k' k) eqn:E; simpl; now rewrite E.
Qed.

Lemma map_get_set_other (m : JsMap num) (k k' : string) (v : num) :
  String.eqb k k' = false ->
  map_get (map_set m k v) k' = map_get m k'.
Proof.
  intros H. induction m as [|[k0 v0] m IH]; simpl.
  - now rewrite H.
  - destruct (String.eqb k0 k) eqn:E; simpl.
    + apply String.eqb_eq in E. subst k0. now rewrite H.
    + now rewrite IH.
Qed.

Lemma key_step_untouched (pt k : string) (cur : num) (t : Entry num) :
  touches pt k t = false -> key_step pt k cur t = cur.
Proof.
  unfold touches, key_step.
  destruct (ofParty pt (Some k) t); simpl; trivial.
  destruct (String.eqb (t_type t) (plusType pt)); simpl; [discriminate|].
  now destruct (String.eqb (t_type t) (minusType pt)).
Qed.

Lemma map_get_party_step (pt k : string) (m : JsMap num) (t : Entry num) :
  k <> "" ->
  map_get (party_step pt (plusType pt) (minusType pt) m t) k =
  if touches pt k t
  then Some (key_step pt k
               (match map_get m k with Some v => v | None => num0 end) t)
  else map_get m k.
Proof.
  intros Hk. unfold party_step, touches, key_step, ofParty.
  destruct (opt_eqb (t_partyType t) pt); cbn [negb orb andb]; trivial.
  destruct (t_partyId t) as [k0|]; cbn [truthy negb opt_eqb2 orEmpty];
    trivial.
  destruct (String.eqb k0 "") eqn:E0; cbn [negb].
  - apply String.eqb_eq in E0. subst k0.
    destruct (String.eqb "" k) eqn:E; trivial.
    apply String.eqb_eq in E. congruence.
  - destruct (String.eqb k0 k) eqn:Ek.
    + apply String.eqb_eq in Ek. subst k0.
      destruct (String.eqb (t_type t) (plusType pt)) eqn:Ep; cbn [orb].
      * rewrite (eqb_plus_minus pt _ Ep). apply map_get_set_same.
      * destruct (String.eqb (t_type t) (minusType pt)); trivial.
        apply map_get_set_same.
    + destruct (String.eqb (t_type t) (plusType pt));
        destruct (String.eqb (t_type t) (minusType pt));
        rewrite ?map_get_set_other; trivial.
Qed.

(** Under each key, the ledger loop accumulates the entries of that key in
    ledger order, from the opening balance set by the first loop or from
    [0] for a key the first loop did not set. *)
Lemma map_get_ledger_loop (pt k : string) (l : list (Entry num))
  (m : JsMap num) :
  k <> "" ->
  map_get (fold_left (party_step pt (plusType pt) (minusType pt)) l m) k =
  match map_get m k with
  | Some v => Some (fold_left (key_step pt k) l v)
  | None =>
      if existsb (touches pt k) l
      then Some (fold_left (key_step pt k) l num0)
      else None
  end.
Proof.
  intros Hk. revert m; induction l as [|t l IH]; intros m.
  - simpl. now destruct (map_get m k).
  - cbn [fold_left existsb]. rewrite IH, map_get_party_step by exact Hk.
    destruct (touches pt k t) eqn:Et.
    + now destruct (map_get m k).
    + destruct (map_get m k); cbn [orb];
        now rewrite ?key_step_untouched by exact Et.
Qed.

Lemma map_get_set_None (m : JsMap num) (k k' : string) (v : num) :
  String.eqb k k' = false -> map_get m k' = None ->
  map_get (map_set m k v) k' = None.
Proof. intros H1 H2. now rewrite map_get_set_other. Qed.

Lemma map_get_openingMap_None (ps : list (Party num)) (k : string) :
  ~ In k (map (@p_id num) ps) -> map_get (openingMap ps) k = None.
Proof.
  unfold openingMap.
  assert (G : forall m, map_get m k = None ->
            ~ In k (map (@p_id num) ps) ->
            map_get (fold_left
              (fun m c => map_set m (p_id c) (safeNum (p_openingBalance c)))
              ps m) k = None).
  { induction ps as [|c ps IH]; simpl; intros m Hm Hnot; trivial.
    apply IH; [|tauto].
    apply map_get_set_None; trivial.
    destruct (String.eqb (p_id c) k) eqn:E; trivial.
    apply String.eqb_eq in E. tauto. }
  now apply G.
Qed.

Lemma touches_entry (pt k : string) (e : Entry num) :
  t_partyType e = Some pt -> t_partyId e = Some k ->
  t_type e = plusType pt \/ t_type e = minusType pt ->
  touches pt k e = true.
Proof.
  intros Hpt Hid Hty. unfold touches, ofParty.
  rewrite Hpt, Hid. cbn [opt_eqb opt_eqb2]. rewrite !String.eqb_refl.
  cbn [andb]. apply orb_true_iff.
  destruct Hty as [-> | ->]; rewrite String.eqb_refl; tauto.
Qed.

(** An entry of a party that is not in the collection still writes its key:
    the value under the key is accumulated from [0], through that entry. *)
Lemma dangling_key (pt k : string) (ps : list (Party num))
  (l1 l2 : list (Entry num)) (e : Entry num) :
  k <> "" -> ~ In k (map (@p_id num) ps) ->
  t_partyType e = Some pt -> t_partyId e = Some k ->
  t_type e = plusType pt \/ t_type e = minusType pt ->
  map_get (outstandingMap pt ps (l1 ++ e :: l2)) k =
  Some (fold_left (key_step pt k) l2
          (let cur := fold_left (key_step pt k) l1 num0 in
           if String.eqb (t_type e) (plusType pt)
           then (cur + safeNum (t_amount e)) - safeNum (t_paid e)
           else cur - safeNum (t_amount e))).
Proof.
  intros Hk Hnot Hpt Hid Hty. unfold outstandingMap.
  rewrite map_get_ledger_loop by exact Hk.
  rewrite map_get_openingMap_None by exact Hnot.
  rewrite existsb_app. cbn [existsb].
  rewrite (@touches_entry pt k e Hpt Hid Hty), orb_true_r.
  rewrite fold_left_app. cbn [fold_left]. cbv zeta.
  do 2 f_equal. unfold key_step, ofParty.
  rewrite Hpt, Hid. cbn [opt_eqb opt_eqb2]. rewrite !String.eqb_refl.
  cbn [andb].
  destruct (String.eqb (t_type e) (plusType pt)) eqn:Ep; trivial.
  destruct Hty as [H | H]; rewrite H, String.eqb_refl in *;
    [discriminate | reflexivity].
Qed.

Lemma keyTotal_fold (pt k : string) (l : list (Entry num)) :
  fold_left (key_step pt k) l num0 = keyTotal pt k l.
Proof.
  unfold keyTotal. generalize (@num0 num A) as cur.
  induction l as [|t l IH]; intros cur; cbn [fold_left]; trivial.
  rewrite IH. f_equal. unfold key_step, amountOf, paidOf.
  now rewrite !safeNum_fieldValue.
Qed.

(** The key of a party that is not in the collection holds what the
    entries of that party accumulate from [0]. *)
Lemma dangling_key_total (pt k : string) (ps : list (Party num))
  (l1 l2 : list (Entry num)) (e : Entry num) :
  k <> "" -> ~ In k (map (@p_id num) ps) ->
  t_partyType e = Some pt -> t_partyId e = Some k ->
  t_type e = plusType pt \/ t_type e = minusType pt ->
  map_get (outstandingMap pt ps (l1 ++ e :: l2)) k
  = Some (keyTotal pt k (l1 ++ e :: l2)).
Proof.
  intros Hk Hnot Hpt Hid Hty. unfold outstandingMap.
  rewrite map_get_ledger_loop by exact Hk.
  rewrite map_get_openingMap_None by exact Hnot.
  rewrite existsb_app. cbn [existsb].
  rewrite (@touches_entry pt k e Hpt Hid Hty), orb_true_r.
  now rewrite keyTotal_fold.
Qed.

Lemma increment_signedAmount (pt k : string) (e : Entry num) :
  k <> "" -> t_partyType e = Some pt -> t_partyId e = Some k ->
  increment pt e = signedAmount pt e.
Proof.
  intros Hk Hpt Hid. unfold increment, signedAmount, delta, amountOf, paidOf.
  rewrite Hpt, Hid. cbn [opt_eqb truthy]. rewrite String.eqb_refl.
  apply String.eqb_neq in Hk. rewrite Hk. cbn [negb andb].
  now rewrite !safeNum_fieldValue.
Qed.

(** ** Deleting a party that entries still reference *)

Lemma removeFirst_notin (id : string) (ps : list (Party num)) :
  NoDup (map (@p_id num) ps) ->
  ~ In id (map (@p_id num) (removeFirst id ps)).
Proof.
  induction ps as [|x ps IH]; simpl; intros ND.
  - tauto.
  - inversion ND as [|y ys Hnotin ND']; subst.
    destruct (String.eqb (p_id x) id) eqn:E.
    + apply String.eqb_eq in E. now subst id.
    + apply String.eqb_neq in E. simpl. intros [H | H]; [tauto|].
      now apply IH.
Qed.

Lemma findParty_notin (id : string) (ps : list (Party num)) :
  ~ In id (map (@p_id num) ps) -> findParty ps (Some id) = None.
Proof.
  unfold findParty. induction ps as [|x ps IH]; simpl; intros H; trivial.
  destruct (String.eqb id (p_id x)) eqn:E.
  - apply String.eqb_eq in E. exfalso. apply H. now left.
  - apply IH. tauto.
Qed.

Lemma openingOf_missing (id : string) (ps : list (Party num)) :
  ~ In id (map (@p_id num) ps) -> openingOf ps (Some id) = num0.
Proof.
  intros H. unfold openingOf. rewrite findParty_notin by exact H.
  now destruct (truthy (Some id)).
Qed.

(** A party that is not in its collection is shown as ["-"]. *)
Lemma partyName_missing co us (cs vs : list (Party num))
  (l : list (Entry num)) (kind id : string) :
  ~ In id (map (@p_id num) (if String.eqb kind "client" then cs else vs)) ->
  partyName (store co us cs vs l)
    (Some (if String.eqb kind "client" then "client" else "vendor"))
    (Some id) = Ok "-".
Proof.
  intros H. unfold partyName.
  destruct (String.eqb kind "client"); cbn;
    destruct (String.eqb id ""); cbn; trivial;
    now rewrite findParty_notin.
Qed.

Lemma deleteParty_store co us (cs vs : list (Party num))
  (l : list (Entry num)) (kind id : string) :
  deleteParty (store co us cs vs l) kind id =
  Ok (store co us
        (if String.eqb kind "client" then removeFirst id cs else cs)
        (if String.eqb kind "client" then vs else removeFirst id vs) l).
Proof.
  unfold deleteParty. now destruct (String.eqb kind "client").
Qed.

Lemma flows_store co us (cs vs cs' vs' : list (Party num))
  (l : list (Entry num)) :
  rmap flows (totals (store co us cs' vs' l))
  = rmap flows (totals (store co us cs vs l)).
Proof. now rewrite !totals_store. Qed.

(** C3 (as amended): after a party is removed from its collection (its id
    being the only one of that value), [totals], [balanceOf], [balanceSheet]
    and [cashFlow] return; [balanceOf] for the missing party starts from an
    opening balance of [0] and still accumulates the entries that reference
    it; the party is displayed as ["-"]; and the figures of [totals()]
    computed from the ledger (sales, purchases, cogs, expenses, cashIn,
    cashOut, cash, profit) are unchanged. *)
Theorem dangling_party_tolerance :
  forall co us (cs vs : list (Party num)) (l : list (Entry num))
         (kind id : string),
  NoDup (map (@p_id num) (if String.eqb kind "client" then cs else vs)) ->
  exists st',
    deleteParty (store co us cs vs l) kind id = Ok st'
    /\ throws (totals st') = false
    /\ throws (balanceSheet st') = false
    /\ throws (cashFlow st') = false
    /\ calcPartyBalance st' kind (Some id) =
       Ok (fold_left
             (balance_spec_step
                (if String.eqb kind "client" then "client" else "vendor")
                (Some id)) l num0)
    /\ partyName st'
         (Some (if String.eqb kind "client" then "client" else "vendor"))
         (Some id) = Ok "-"
    /\ rmap flows (totals st') = rmap flows (totals (store co us cs vs l)).
Proof.
  intros co us cs vs l kind id ND.
  eexists. split; [apply deleteParty_store|].
  split; [now rewrite totals_store|].
  split; [apply balanceSheet_store|].
  split; [now rewrite cashFlow_store|].
  assert (Hnot : ~ In id (map (@p_id num)
            (removeFirst id (if String.eqb kind "client" then cs else vs))))
    by now apply removeFirst_notin.
  split; [|split].
  - rewrite calcPartyBalance_spec. do 2 f_equal.
    apply openingOf_missing.
    now destruct (String.eqb kind "client").
  - apply partyName_missing. now destruct (String.eqb kind "client").
  - apply flows_store.
Qed.

End CoreFacts.

(** ** Numeric fields that are not primitive *)

Section RawFacts.

Context {num : Type} {A : Arith num}.
Local Open Scope num_scope.
Local Open Scope string_scope.
Local Open Scope list_scope.

(** Induction on a value and, for an array, on its elements. *)
Lemma jsdata_induction (P : Raw.jsdata num -> Prop) :
  (forall v, P (Raw.JPrim v)) ->
  (forall items, Forall P items -> P (Raw.JArr items)) ->
  (forall fields, P (Raw.JObj fields)) ->
  forall d, P d.
Proof.
  intros Hp Ha Ho. fix IH 1. intros [v|items|fields].
  - apply Hp.
  - apply Ha. induction items as [|x xs IHxs]; constructor.
    + apply IH.
    + exact IHxs.
  - apply Ho.
Qed.

(** A join throws when the conversion of an element does, and what it
    throws is what the elements throw. *)
Lemma joinWith_throws {X : Type} (f : X -> result string) (b : X -> bool)
  (e : exn) (xs : list X) :
  Forall (fun x => throws (f x) = b x
                   /\ forall e', f x = Throw e' -> e' = e) xs ->
  throws (Raw.joinWith f xs) = existsb b xs
  /\ forall e', Raw.joinWith f xs = Throw e' -> e' = e.
Proof.
  induction 1 as [|x xs [Hb He] _ [IHb IHe]]; cbn [Raw.joinWith existsb].
  - split; [reflexivity | discriminate].
  - rewrite <- Hb, <- IHb. destruct (f x) as [s0|e0]; cbn [bind throws orb].
    + destruct xs as [|y ys]; [split; [reflexivity | discriminate]|].
      destruct (Raw.joinWith f (y :: ys)) as [r|e1]; cbn [bind throws].
      * split; [reflexivity | discriminate].
      * split; [reflexivity|]. intros e' H. apply IHe. exact H.
    + split; [reflexivity|]. intros e' H. now apply He.
Qed.

Lemma ToString_throws (n2s : num -> string) (d : Raw.jsdata num) :
  throws (Raw.ToString n2s d) = unconvertible d
  /\ forall e, Raw.ToString n2s d = Throw e -> e = Raw.cannotConvert.
Proof.
  induction d as [v|items IH|fields] using jsdata_induction.
  - split; [reflexivity | discriminate].
  - cbn [Raw.ToString unconvertible].
    apply joinWith_throws.
    induction IH as [|x xs [Hb He] _ IHxs]; constructor; [|exact IHxs].
    destruct x as [[| | | |]| |]; try (split; [exact Hb | exact He]);
      (split; [reflexivity | discriminate]).
  - cbn [Raw.ToString unconvertible].
    destruct (Raw.hasOwn "toString" fields).
    + split; [reflexivity|]. intros e H. now injection H as <-.
    + split; [reflexivity | discriminate].
Qed.

(** The conversion to a primitive throws exactly on the values that cannot
    be converted, and always the same [TypeError]. *)
Lemma ToPrimitive_cases (n2s : num -> string) (d : Raw.jsdata num) :
  Raw.ToPrimitive n2s d
  = if unconvertible d then Throw Raw.cannotConvert
    else Ok (primOf n2s d).
Proof.
  destruct (ToString_throws n2s d) as [Hb He]. unfold primOf.
  destruct d as [v|items|fields]; [reflexivity| |];
    unfold Raw.ToPrimitive; rewrite <- Hb;
    destruct (Raw.ToString n2s _) as [s0|e0]; cbn [bind throws]; trivial;
    now rewrite (He e0 eq_refl).
Qed.

(** [safeNum] on every value. *)
Lemma rawSafeNum_cases (n2s : num -> string) (d : Raw.jsdata num) :
  Raw.safeNum n2s d
  = if unconvertible d then Throw Raw.cannotConvert
    else Ok (safeNum (primOf n2s d)).
Proof.
  unfold Raw.safeNum, Raw.Number. rewrite ToPrimitive_cases.
  now destruct (unconvertible d).
Qed.

Lemma rawSafeNum_convertible (n2s : num -> string) (d : Raw.jsdata num) :
  unconvertible d = false ->
  Raw.safeNum n2s d = Ok (safeNum (primOf n2s d)).
Proof. intros H. now rewrite rawSafeNum_cases, H. Qed.

(** *** Loops that can throw *)

Lemma foldM_map {X Y S : Type} (f : S -> X -> result S) (g : S -> Y -> S)
  (h : X -> Y) (xs : list X) (s : S) :
  Forall (fun x => forall s, f s x = Ok (g s (h x))) xs ->
  Raw.foldM f xs s = Ok (fold_left g (map h xs) s).
Proof.
  intros H. revert s.
  induction H as [|x xs Hx _ IH]; intros s; cbn [Raw.foldM map fold_left].
  - reflexivity.
  - rewrite Hx. cbn [bind]. apply IH.
Qed.

Lemma foldM_throws {X S : Type} (f : S -> X -> result S) (e : exn)
  (xs : list X) (x0 : X) (s : S) :
  In x0 xs -> (forall s, f s x0 = Throw e) ->
  (forall s x e', f s x = Throw e' -> e' = e) ->
  Raw.foldM f xs s = Throw e.
Proof.
  intros Hin H0 He. revert s.
  induction xs as [|x xs IH]; intros s; [destruct Hin|].
  cbn [Raw.foldM]. destruct (f s x) as [s'|e'] eqn:F; cbn [bind].
  - destruct Hin as [<- | Hin]; [now rewrite H0 in F | now apply IH].
  - now rewrite (He _ _ _ F).
Qed.

Lemma filter_map_comm {X Y : Type} (h : X -> Y) (p : Y -> bool)
  (xs : list X) :
  filter p (map h xs) = map h (filter (fun x => p (h x)) xs).
Proof.
  induction xs as [|x xs IH]; cbn [map filter]; trivial.
  destruct (p (h x)); cbn [map]; now rewrite IH.
Qed.

Lemma Forall_filter {X : Type} (P : X -> Prop) (p : X -> bool)
  (xs : list X) :
  Forall P xs -> Forall P (filter p xs).
Proof.
  induction 1 as [|x xs Hx _ IH]; cbn [filter]; [constructor|].
  destruct (p x); [constructor|]; assumption.
Qed.

(** *** The calculations on fields that can be converted *)

Section Convertible.

Variable n2s : num -> string.
Variables (cs vs : list (Raw.Party num)) (l : list (Raw.Entry num)).
Hypothesis Hcs : Forall (fun p => convertibleParty p = true) cs.
Hypothesis Hvs : Forall (fun p => convertibleParty p = true) vs.
Hypothesis Hl : Forall (fun t => convertibleEntry t = true) l.

Lemma convertible_amount (t : Raw.Entry num) :
  convertibleEntry t = true ->
  Raw.safeNum n2s (Raw.t_amount t) = Ok (safeNum (t_amount (primEntry n2s t)))
  /\ Raw.safeNum n2s (Raw.t_paid t) = Ok (safeNum (t_paid (primEntry n2s t))).
Proof.
  unfold convertibleEntry. intros H. apply andb_true_iff in H.
  destruct H as [H1 H2]. apply negb_true_iff in H1, H2.
  split; now apply rawSafeNum_convertible.
Qed.

Lemma sum_amounts_prim (p : Entry num -> bool) :
  Raw.foldM (fun a t => x <- Raw.safeNum n2s (Raw.t_amount t) ;; Ok (a + x))
            (filter (fun t => p (primEntry n2s t)) l) num0
  = Ok (sumOf (fun t => safeNum (t_amount t))
              (filter p (map (primEntry n2s) l))).
Proof.
  unfold sumOf. rewrite filter_map_comm. apply foldM_map.
  apply Forall_filter. revert Hl. apply Forall_impl. intros t Ht a.
  now rewrite (proj1 (convertible_amount t Ht)).
Qed.

Lemma sum_paid_prim (p : Entry num -> bool) :
  Raw.foldM (fun a t => x <- Raw.safeNum n2s (Raw.t_paid t) ;; Ok (a + x))
            (filter (fun t => p (primEntry n2s t)) l) num0
  = Ok (sumOf (fun t => safeNum (t_paid t))
              (filter p (map (primEntry n2s) l))).
Proof.
  unfold sumOf. rewrite filter_map_comm. apply foldM_map.
  apply Forall_filter. revert Hl. apply Forall_impl. intros t Ht a.
  now rewrite (proj2 (convertible_amount t Ht)).
Qed.

Lemma sumPaid_prim co us (type : string) :
  Raw.sumPaid n2s (rawStore cs vs l) type
  = sumPaid (store co us (map (primParty n2s) cs) (map (primParty n2s) vs)
               (map (primEntry n2s) l)) type.
Proof.
  unfold Raw.sumPaid, sumPaid, rawStore, store.
  cbn [Raw.ledger ledger member bind].
  apply (sum_paid_prim (fun t => String.eqb (t_type t) type)).
Qed.

Lemma purchasesByCategory_prim co us (cat : string) :
  Raw.purchasesByCategory n2s (rawStore cs vs l) cat
  = purchasesByCategory
      (store co us (map (primParty n2s) cs) (map (primParty n2s) vs)
         (map (primEntry n2s) l)) cat.
Proof.
  unfold Raw.purchasesByCategory, purchasesByCategory, rawStore, store.
  cbn [Raw.ledger ledger member bind].
  apply (sum_amounts_prim
           (fun t => String.eqb (t_type t) "purchase"
                     && String.eqb (orEmpty (t_category t)) cat)).
Qed.

Lemma amountsOfType_prim (type : string) :
  Raw.amountsOfType n2s type l
  = Ok (amountsOfType type (map (primEntry n2s) l)).
Proof.
  unfold Raw.amountsOfType, amountsOfType.
  apply (sum_amounts_prim (fun t => String.eqb (t_type t) type)).
Qed.

Lemma openingMap_prim (ps : list (Raw.Party num)) :
  Forall (fun p => convertibleParty p = true) ps ->
  Raw.openingMap n2s ps = Ok (openingMap (map (primParty n2s) ps)).
Proof.
  intros H. unfold Raw.openingMap, openingMap. apply foldM_map.
  revert H. apply Forall_impl. intros p Hp m.
  unfold convertibleParty in Hp. apply negb_true_iff in Hp.
  now rewrite (rawSafeNum_convertible n2s _ Hp).
Qed.

Lemma party_step_prim (pt plus minus : string) (m : JsMap num)
  (t : Raw.Entry num) :
  convertibleEntry t = true ->
  Raw.party_step n2s pt plus minus m t
  = Ok (party_step pt plus minus m (primEntry n2s t)).
Proof.
  intros Ht. destruct (convertible_amount t Ht) as [Ha Hp].
  unfold Raw.party_step, party_step.
  cbn [primEntry t_partyType t_partyId t_type] in *.
  destruct (negb (opt_eqb (Raw.t_partyType t) pt)
            || negb (truthy (Raw.t_partyId t))); trivial.
  cbv zeta. rewrite Ha, Hp. cbn [bind].
  destruct (String.eqb (Raw.t_type t) plus);
    destruct (String.eqb (Raw.t_type t) minus); reflexivity.
Qed.

Lemma ledger_loop_prim (pt plus minus : string) (m : JsMap num) :
  Raw.foldM (Raw.party_step n2s pt plus minus) l m
  = Ok (fold_left (party_step pt plus minus) (map (primEntry n2s) l) m).
Proof.
  apply foldM_map. revert Hl. apply Forall_impl. intros t Ht m'.
  now apply party_step_prim.
Qed.

Lemma calcReceivables_prim co us :
  Raw.calcReceivables n2s (rawStore cs vs l)
  = calcReceivables
      (store co us (map (primParty n2s) cs) (map (primParty n2s) vs)
         (map (primEntry n2s) l)).
Proof.
  unfold Raw.calcReceivables, calcReceivables, rawStore, store.
  cbn [Raw.clients Raw.ledger clients ledger iterable bind].
  rewrite (openingMap_prim Hcs). cbn [bind].
  now rewrite ledger_loop_prim.
Qed.

Lemma calcPayables_prim co us :
  Raw.calcPayables n2s (rawStore cs vs l)
  = calcPayables
      (store co us (map (primParty n2s) cs) (map (primParty n2s) vs)
         (map (primEntry n2s) l)).
Proof.
  unfold Raw.calcPayables, calcPayables, rawStore, store.
  cbn [Raw.vendors Raw.ledger vendors ledger iterable bind].
  rewrite (openingMap_prim Hvs). cbn [bind].
  now rewrite ledger_loop_prim.
Qed.

Lemma totals_step_prim (s : Sums num) (t : Raw.Entry num) :
  convertibleEntry t = true ->
  Raw.totals_step n2s s t = Ok (totals_step s (primEntry n2s t)).
Proof.
  intros Ht. destruct (convertible_amount t Ht) as [Ha _].
  unfold Raw.totals_step, Raw.addIf, totals_step.
  cbn [primEntry t_type] in *. rewrite Ha. cbn [bind].
  destruct (String.eqb (Raw.t_type t) "sale");
    destruct (String.eqb (Raw.t_type t) "purchase");
    destruct (String.eqb (Raw.t_type t) "expense");
    destruct (String.eqb (Raw.t_type t) "cash_in");
    destruct (String.eqb (Raw.t_type t) "cash_out"); reflexivity.
Qed.

Lemma totals_prim co us :
  Raw.totals n2s (rawStore cs vs l)
  = totals (store co us (map (primParty n2s) cs) (map (primParty n2s) vs)
              (map (primEntry n2s) l)).
Proof.
  unfold Raw.totals, totals.
  rewrite !(sumPaid_prim co us), (calcReceivables_prim co us),
    (calcPayables_prim co us), (purchasesByCategory_prim co us).
  unfold rawStore at 1, store at 1.
  cbn [Raw.ledger ledger iterable bind].
  rewrite (@foldM_map _ _ _ (Raw.totals_step n2s) totals_step
             (primEntry n2s)).
  - reflexivity.
  - revert Hl. apply Forall_impl. intros t Ht s. now apply totals_step_prim.
Qed.

Lemma balanceSheet_prim co us :
  Raw.balanceSheet n2s (rawStore cs vs l)
  = balanceSheet
      (store co us (map (primParty n2s) cs) (map (primParty n2s) vs)
         (map (primEntry n2s) l)).
Proof.
  unfold Raw.balanceSheet, balanceSheet. now rewrite (totals_prim co us).
Qed.

Lemma cashFlow_prim co us :
  Raw.cashFlow n2s (rawStore cs vs l)
  = cashFlow
      (store co us (map (primParty n2s) cs) (map (primParty n2s) vs)
         (map (primEntry n2s) l)).
Proof.
  unfold Raw.cashFlow, cashFlow.
  rewrite !(sumPaid_prim co us).
  destruct (sumPaid _ "sale") as [ps|e]; cbn [bind]; trivial.
  unfold rawStore at 1, store at 1. cbn [Raw.ledger ledger member bind].
  rewrite (amountsOfType_prim "cash_in"). cbn [bind].
  destruct (sumPaid _ "purchase") as [pp|e]; cbn [bind]; trivial.
  unfold rawStore, store. cbn [Raw.ledger ledger member bind].
  rewrite (amountsOfType_prim "cash_out"), (amountsOfType_prim "expense").
  reflexivity.
Qed.

Lemma findParty_prim (ps : list (Raw.Party num)) (id : option string) :
  findParty (map (primParty n2s) ps) id
  = option_map (primParty n2s) (Raw.findParty ps id).
Proof.
  unfold findParty, Raw.findParty.
  induction ps as [|p ps IH]; cbn [map find option_map]; trivial.
  cbn [primParty p_id]. now destruct (opt_eqb id (Raw.p_id p)).
Qed.

Lemma openingBalance_prim co us (partyType partyId : option string) :
  Raw.openingBalance n2s (rawStore cs vs l) partyType partyId
  = openingBalance
      (store co us (map (primParty n2s) cs) (map (primParty n2s) vs)
         (map (primEntry n2s) l)) partyType partyId.
Proof.
  unfold Raw.openingBalance, openingBalance, rawStore, store.
  destruct (negb (truthy partyType) || negb (truthy partyId)); trivial.
  cbn [Raw.clients Raw.vendors clients vendors].
  assert (G : forall ps, Forall (fun p => convertibleParty p = true) ps ->
            Raw.safeNum n2s
              (match Raw.findParty ps partyId with
               | Some p => Raw.p_openingBalance p
               | None => Raw.JPrim VUndefined
               end)
            = Ok (safeNum
                    (match findParty (map (primParty n2s) ps) partyId with
                     | Some p => p_openingBalance p
                     | None => VUndefined
                     end))).
  { intros ps Hps. rewrite findParty_prim.
    destruct (Raw.findParty ps partyId) as [p|] eqn:F; cbn [option_map].
    - apply find_some in F. destruct F as [Hin _].
      rewrite Forall_forall in Hps. specialize (Hps p Hin).
      unfold convertibleParty in Hps. apply negb_true_iff in Hps.
      now rewrite (rawSafeNum_convertible n2s _ Hps).
    - reflexivity. }
  destruct (opt_eqb partyType "client"); cbn [member bind]; now apply G.
Qed.

Lemma balance_step_prim (partyType : string) (id : option string)
  (bal : num) (t : Raw.Entry num) :
  convertibleEntry t = true ->
  Raw.balance_step n2s partyType id bal t
  = Ok (balance_step partyType id bal (primEntry n2s t)).
Proof.
  intros Ht. destruct (convertible_amount t Ht) as [Ha Hp].
  unfold Raw.balance_step, balance_step.
  cbn [primEntry t_partyType t_partyId t_type] in *.
  destruct (negb (opt_eqb (Raw.t_partyType t) partyType)
            || negb (opt_eqb2 (Raw.t_partyId t) id)); trivial.
  rewrite Ha, Hp. cbn [bind].
  destruct (String.eqb partyType "client");
    repeat match goal with
           | |- context [if ?b then _ else _] => destruct b
           end; reflexivity.
Qed.

Lemma calcPartyBalance_prim co us (kind : string) (id : option string) :
  Raw.calcPartyBalance n2s (rawStore cs vs l) kind id
  = calcPartyBalance
      (store co us (map (primParty n2s) cs) (map (primParty n2s) vs)
         (map (primEntry n2s) l)) kind id.
Proof.
  unfold Raw.calcPartyBalance, calcPartyBalance. cbv zeta.
  rewrite (openingBalance_prim co us).
  destruct (openingBalance _ _ id) as [bal|e]; cbn [bind]; trivial.
  unfold rawStore, store. cbn [Raw.ledger ledger iterable bind].
  apply foldM_map. revert Hl. apply Forall_impl. intros t Ht s.
  now apply balance_step_prim.
Qed.

End Convertible.

(** The functions of the core over primitive fields are the functions over
    parsed fields, on the snapshots whose numeric fields are primitive. *)
Lemma raw_core_on_primitives (n2s : num -> string) (v : jsval num) :
  Raw.ToPrimitive n2s (Raw.JPrim v) = Ok v
  /\ Raw.Number n2s (Raw.JPrim v) = Ok (Number v)
  /\ Raw.safeNum n2s (Raw.JPrim v) = Ok (safeNum v)
  /\ primOf n2s (Raw.JPrim v) = v.
Proof. repeat split. Qed.

Lemma map_prim_raw (n2s : num -> string) (ps : list (Party num))
  (l : list (Entry num)) :
  map (primParty n2s) (map rawParty ps) = ps
  /\ map (primEntry n2s) (map rawEntry l) = l.
Proof.
  split; rewrite map_map.
  - rewrite <- (map_id ps) at 2. apply map_ext. now intros [i n o].
  - rewrite <- (map_id l) at 2. apply map_ext. now intros [i ty pt pi c a p].
Qed.

Lemma raw_totals_on_primitives (n2s : num -> string) co us
  (cs vs : list (Party num)) (l : list (Entry num)) :
  Raw.totals n2s (rawStore (map rawParty cs) (map rawParty vs)
                    (map rawEntry l))
  = totals (store co us cs vs l)
  /\ Raw.balanceSheet n2s (rawStore (map rawParty cs) (map rawParty vs)
                             (map rawEntry l))
     = balanceSheet (store co us cs vs l)
  /\ Raw.cashFlow n2s (rawStore (map rawParty cs) (map rawParty vs)
                         (map rawEntry l))
     = cashFlow (store co us cs vs l)
  /\ forall kind id,
       Raw.calcPartyBalance n2s (rawStore (map rawParty cs) (map rawParty vs)
                                   (map rawEntry l)) kind id
       = calcPartyBalance (store co us cs vs l) kind id.
Proof.
  assert (Hp : forall ps : list (Party num),
             Forall (fun p => convertibleParty p = true) (map rawParty ps)).
  { intros ps. apply Forall_forall. intros p Hin.
    apply in_map_iff in Hin. now destruct Hin as [q [<- _]]. }
  assert (Hl : Forall (fun t => convertibleEntry t = true) (map rawEntry l)).
  { apply Forall_forall. intros t Hin.
    apply in_map_iff in Hin. now destruct Hin as [q [<- _]]. }
  destruct (map_prim_raw n2s cs l) as [Ec El].
  destruct (map_prim_raw n2s vs l) as [Ev _].
  split; [|split; [|split]].
  - rewrite (totals_prim n2s (Hp cs) (Hp vs) Hl co us).
    now rewrite Ec, Ev, El.
  - rewrite (balanceSheet_prim n2s (Hp cs) (Hp vs) Hl co us).
    now rewrite Ec, Ev, El.
  - rewrite (cashFlow_prim n2s (map rawParty cs) (map rawParty vs) Hl co us).
    now rewrite Ec, Ev, El.
  - intros kind id.
    rewrite (calcPartyBalance_prim n2s (Hp cs) (Hp vs) Hl co us).
    now rewrite Ec, Ev, El.
Qed.

(** What [totals] throws over parsed fields when the collections are
    there. *)
Lemma rawSafeNum_exn (n2s : num -> string) (d : Raw.jsdata num) (e : exn) :
  Raw.safeNum n2s d = Throw e -> e = Raw.cannotConvert.
Proof.
  rewrite rawSafeNum_cases. destruct (unconvertible d); [|discriminate].
  intros H. now injection H as <-.
Qed.

Lemma addIf_exn (n2s : num -> string) (c : bool) (acc : num)
  (d : Raw.jsdata num) (e : exn) :
  Raw.addIf n2s c acc d = Throw e -> e = Raw.cannotConvert.
Proof.
  unfold Raw.addIf. destruct c; [|discriminate].
  destruct (Raw.safeNum n2s d) eqn:F; cbn [bind]; [discriminate|].
  intros H. injection H as <-. now apply (rawSafeNum_exn n2s d).
Qed.

Lemma totals_step_exn (n2s : num -> string) (s : Sums num)
  (t : Raw.Entry num) (e : exn) :
  Raw.totals_step n2s s t = Throw e -> e = Raw.cannotConvert.
Proof.
  unfold Raw.totals_step.
  repeat match goal with
         | |- context [bind (Raw.addIf n2s ?c ?a ?d) _] =>
             let F := fresh "F" in
             destruct (Raw.addIf n2s c a d) eqn:F; cbn [bind];
             [|intros H; injection H as <-; now apply (addIf_exn _ _ _ _ F)]
         end.
  discriminate.
Qed.

Lemma totals_step_throws (n2s : num -> string) (s : Sums num)
  (t : Raw.Entry num) :
  In (Raw.t_type t) entryTypes -> unconvertible (Raw.t_amount t) = true ->
  Raw.totals_step n2s s t = Throw Raw.cannotConvert.
Proof.
  intros Hty Hu. unfold Raw.totals_step, Raw.addIf.
  rewrite rawSafeNum_cases, Hu. cbn [bind].
  cbn [In entryTypes] in Hty.
  destruct Hty as [H | [H | [H | [H | [H | []]]]]]; rewrite <- H;
    reflexivity.
Qed.

Lemma totals_throws (n2s : num -> string) cl ve
  (l : list (Raw.Entry num)) (t : Raw.Entry num) :
  In t l -> In (Raw.t_type t) entryTypes ->
  unconvertible (Raw.t_amount t) = true ->
  Raw.totals n2s {| Raw.clients := cl; Raw.vendors := ve;
                    Raw.ledger := Some l |}
  = Throw Raw.cannotConvert.
Proof.
  intros Hin Hty Hu. unfold Raw.totals.
  cbn [Raw.ledger iterable bind].
  rewrite (@foldM_throws _ _ (Raw.totals_step n2s) Raw.cannotConvert l t).
  - reflexivity.
  - exact Hin.
  - intros s. now apply totals_step_throws.
  - intros s x e. apply totals_step_exn.
Qed.

End RawFacts.

(** ** C7 *)

Section Coercion.

Context {num : Type} {A : Arith num}.
Local Open Scope num_scope.
Local Open Scope string_scope.
Local Open Scope list_scope.

(** C7: every numeric read of the core goes through [safeNum].  On a
    primitive value [safeNum] returns the number the value stands for when
    that number is finite and [0] otherwise, and what it returns is always
    finite.  On an array or an object it does the same with the primitive
    the value converts to, unless the value cannot be converted (an object
    with an own property [toString], or an array that holds one): then it
    throws a [TypeError].  So [totals], [balanceOf], [balanceSheet] and
    [cashFlow] return on every snapshot whose numeric fields can be
    converted, with the figures of the converted snapshot, and [totals] and
    [balanceSheet] throw as soon as the ledger has an entry of one of the
    five types whose amount cannot be converted. *)
Theorem safeNum_coerces_to_zero :
  forall n2s : num -> string,
  (forall v : jsval num,
      Raw.safeNum n2s (Raw.JPrim v) = Ok (safeNum v)
      /\ safeNum v = fieldValue v
      /\ isFinite (safeNum v) = true)
  /\ (forall d : Raw.jsdata num,
        Raw.safeNum n2s d
        = if unconvertible d then Throw Raw.cannotConvert
          else Ok (fieldValue (primOf n2s d)))
  /\ (forall (cs vs : list (Raw.Party num)) (l : list (Raw.Entry num))
             (kind : string) (id : option string),
        Forall (fun p => convertibleParty p = true) cs ->
        Forall (fun p => convertibleParty p = true) vs ->
        Forall (fun t => convertibleEntry t = true) l ->
        let st := store None None (map (primParty n2s) cs)
                        (map (primParty n2s) vs) (map (primEntry n2s) l) in
        Raw.totals n2s (rawStore cs vs l) = totals st
        /\ Raw.calcPartyBalance n2s (rawStore cs vs l) kind id
           = calcPartyBalance st kind id
        /\ Raw.balanceSheet n2s (rawStore cs vs l) = balanceSheet st
        /\ Raw.cashFlow n2s (rawStore cs vs l) = cashFlow st
        /\ throws (totals st) = false
        /\ throws (calcPartyBalance st kind id) = false
        /\ throws (balanceSheet st) = false
        /\ throws (cashFlow st) = false)
  /\ (forall cl ve (l : list (Raw.Entry num)) (t : Raw.Entry num),
        In t l -> In (Raw.t_type t) entryTypes ->
        unconvertible (Raw.t_amount t) = true ->
        Raw.totals n2s {| Raw.clients := cl; Raw.vendors := ve;
                          Raw.ledger := Some l |}
        = Throw Raw.cannotConvert
        /\ Raw.balanceSheet n2s {| Raw.clients := cl; Raw.vendors := ve;
                                   Raw.ledger := Some l |}
           = Throw Raw.cannotConvert).
Proof.
  intros n2s. split; [|split; [|split]].
  - intros v. split; [reflexivity|].
    split; [apply safeNum_fieldValue | apply safeNum_finite].
  - intros d. rewrite rawSafeNum_cases.
    now rewrite safeNum_fieldValue.
  - intros cs vs l kind id Hcs Hvs Hl st. subst st.
    split; [now apply totals_prim|].
    split; [now apply calcPartyBalance_prim|].
    split; [now apply balanceSheet_prim|].
    split; [now apply cashFlow_prim|].
    rewrite totals_store, calcPartyBalance_store, cashFlow_store,
      balanceSheet_store.
    repeat split.
  - intros cl ve l t Hin Hty Hu.
    assert (Ht := totals_throws n2s cl ve l t Hin Hty Hu).
    split; [exact Ht|]. unfold Raw.balanceSheet. now rewrite Ht.
Qed.

End Coercion.

(** ** Exact arithmetic *)

Section ExactFacts.

Context {num : Type} {A : Arith num} {E : ExactArith A}.
Local Open Scope num_scope.
Local Open Scope string_scope.
Local Open Scope list_scope.

Lemma nadd_0_r (a : num) : a + num0 = a.
Proof. now rewrite nadd_comm, nadd_0_l. Qed.

Lemma nadd_swap (a b c : num) : (a + b) + c = (a + c) + b.
Proof.
  now rewrite <- nadd_assoc, (nadd_comm b c), nadd_assoc.
Qed.

Lemma nadd_sub_assoc (a b c : num) : (a + b) - c = a + (b - c).
Proof.
  now rewrite (nsub_def (a + b) c), (nsub_def b c), nadd_assoc.
Qed.

(** The two ways the source subtracts the three outflows from the inflow. *)
Lemma nsub_regroup (a b e c : num) :
  a - ((b + e) + c) = (a - (b + c)) - e.
Proof.
  rewrite (nsub_def a ((b + e) + c)), (nsub_def (a - (b + c)) e),
    (nsub_def a (b + c)).
  rewrite !nopp_add.
  rewrite (nadd_swap (num0 - b) (num0 - e) (num0 - c)).
  now rewrite !nadd_assoc.
Qed.

Lemma sumOf_from {X : Type} (g : X -> num) (xs : list X) (a : num) :
  fold_left (fun a x => a + g x) xs a = a + sumOf g xs.
Proof.
  unfold sumOf. revert a; induction xs as [|x xs IH]; intros a; simpl.
  - now rewrite nadd_0_r.
  - rewrite IH, (IH (num0 + g x)), nadd_0_l. symmetry. apply nadd_assoc.
Qed.

Lemma sumOf_cons {X : Type} (g : X -> num) (x : X) (xs : list X) :
  sumOf g (x :: xs) = g x + sumOf g xs.
Proof.
  unfold sumOf at 1. simpl. now rewrite sumOf_from, nadd_0_l.
Qed.

Lemma sumOf_nil {X : Type} (g : X -> num) : sumOf g [] = num0.
Proof. reflexivity. Qed.

Lemma sumOf_perm {X : Type} (g : X -> num) (xs ys : list X) :
  Permutation xs ys -> sumOf g xs = sumOf g ys.
Proof.
  induction 1 as [| x xs ys _ IH | x y xs | xs ys zs _ IH1 _ IH2].
  - reflexivity.
  - now rewrite !sumOf_cons, IH.
  - rewrite !sumOf_cons, !nadd_assoc. f_equal. apply nadd_comm.
  - now rewrite IH1.
Qed.

Lemma sumOf_ext {X : Type} (f g : X -> num) (xs : list X) :
  (forall x, In x xs -> f x = g x) -> sumOf f xs = sumOf g xs.
Proof.
  induction xs as [|x xs IH]; intros H; trivial.
  rewrite !sumOf_cons, IH.
  - f_equal. apply H. now left.
  - intros y Hy. apply H. now right.
Qed.

Lemma sumOf_add {X : Type} (f g : X -> num) (xs : list X) :
  sumOf (fun x => f x + g x) xs = sumOf f xs + sumOf g xs.
Proof.
  induction xs as [|x xs IH].
  - cbn. now rewrite nadd_0_0.
  - rewrite !sumOf_cons, IH, !nadd_assoc. f_equal. apply nadd_swap.
Qed.

Lemma sumOf_zero {X : Type} (xs : list X) :
  sumOf (fun _ => num0) xs = num0.
Proof.
  induction xs as [|x xs IH]; trivial.
  now rewrite sumOf_cons, IH, nadd_0_0.
Qed.

Lemma sumOf_filter {X : Type} (p : X -> bool) (g : X -> num) (xs : list X) :
  sumOf (fun x => if p x then g x else num0) xs = sumOf g (filter p xs).
Proof.
  induction xs as [|x xs IH]; trivial.
  rewrite sumOf_cons, IH. simpl.
  destruct (p x).
  - now rewrite sumOf_cons.
  - apply nadd_0_l.
Qed.

(** ** [balanceOf] in exact arithmetic *)

Lemma balance_spec_step_add (pt : string) (id : option string) (bal : num)
  (t : Entry num) :
  balance_spec_step pt id bal t = bal + contribution pt id t.
Proof.
  unfold balance_spec_step, contribution, delta.
  destruct (ofParty pt id t); [|now rewrite nadd_0_r].
  destruct (String.eqb (t_type t) (plusType pt)); trivial.
  destruct (String.eqb (t_type t) (minusType pt)).
  - apply nsub_def.
  - now rewrite nadd_0_r.
Qed.

Lemma balance_spec_sum (pt : string) (id : option string)
  (l : list (Entry num)) (bal : num) :
  fold_left (balance_spec_step pt id) l bal
  = bal + sumOf (contribution pt id) l.
Proof.
  rewrite <- sumOf_from. revert bal.
  induction l as [|t l IH]; intros bal; simpl; trivial.
  now rewrite IH, balance_spec_step_add.
Qed.

End ExactFacts.

(** ** C1 and C4 *)

Section Reconciliation.

Context {num : Type} {A : Arith num}.
Local Open Scope num_scope.
Local Open Scope string_scope.
Local Open Scope list_scope.

(** C1 (as amended): for every snapshot, [totals().cash] and
    [cashFlow().net] are computed from the same five sums of the ledger,
    the first as [(paidSales + cashIn) - (paidPurchases + expenses +
    cashOut)], the second as [(paidSales + cashIn) - (paidPurchases +
    cashOut) - expenses]; in exact arithmetic the two figures are equal. *)
Theorem cash_and_net :
  forall co us (cs vs : list (Party num)) (l : list (Entry num)),
  exists t cf,
    totals (store co us cs vs l) = Ok t
    /\ cashFlow (store co us cs vs l) = Ok cf
    /\ cash t = (paidOfType "sale" l + amountsOfType "cash_in" l)
                - ((paidOfType "purchase" l + amountsOfType "expense" l)
                   + amountsOfType "cash_out" l)
    /\ net cf = ((paidOfType "sale" l + amountsOfType "cash_in" l)
                 - (paidOfType "purchase" l + amountsOfType "cash_out" l))
                - amountsOfType "expense" l
    /\ (ExactArith A -> cash t = net cf).
Proof.
  intros. do 2 eexists.
  split; [apply totals_store|]. split; [apply cashFlow_store|].
  cbn [cash net]. do 2 (split; [reflexivity|]).
  intros E. apply nsub_regroup.
Qed.

(** C4 (as amended): for every partyType and partyId, [balanceOf] is the
    party's opening balance ([0] when no party has that id, or when the id is
    empty or null) updated, entry by entry in ledger order, by the entries
    whose partyType and partyId both match exactly: [+ (amount - paid)] for a
    sale of a client (a purchase of a vendor), [- amount] for a [cash_in] of
    a client (a [cash_out] of a vendor), any other entry being ignored; the
    result is returned as it is, without clamping; and in exact arithmetic
    it is the opening balance plus the sum of the contributions, hence
    independent of the order of the entries. *)
Theorem balanceOf_formula :
  forall co us (cs vs : list (Party num)) (l : list (Entry num))
         (kind : string) (id : option string),
  calcPartyBalance (store co us cs vs l) kind id =
    Ok (fold_left
          (balance_spec_step
             (if String.eqb kind "client" then "client" else "vendor") id)
          l (openingOf (if String.eqb kind "client" then cs else vs) id))
  /\ (ExactArith A ->
      calcPartyBalance (store co us cs vs l) kind id =
        Ok (openingOf (if String.eqb kind "client" then cs else vs) id
            + sumOf (contribution
                       (if String.eqb kind "client" then "client"
                        else "vendor") id) l)
      /\ forall l', Permutation l l' ->
           calcPartyBalance (store co us cs vs l') kind id
           = calcPartyBalance (store co us cs vs l) kind id).
Proof.
  intros. split; [apply calcPartyBalance_spec|].
  intros E. split.
  - now rewrite calcPartyBalance_spec, balance_spec_sum.
  - intros l' HP. rewrite !calcPartyBalance_spec, !balance_spec_sum.
    now rewrite (sumOf_perm _ HP).
Qed.

End Reconciliation.

(** ** Receivable and payable against the parties' balances *)

Section Additivity.

Context {num : Type} {A : Arith num} {E : ExactArith A}.
Local Open Scope num_scope.
Local Open Scope string_scope.
Local Open Scope list_scope.

Lemma sumValues_mapTotal (m : JsMap num) :
  sumValues (map_values m) = mapTotal m.
Proof. apply fold_left_map_add. Qed.

(** Adding [d] to the value under a key (taken as [0] when the key is
    absent) adds [d] to the total of the map. *)
Lemma mapTotal_set (m : JsMap num) (k : string) (d : num) :
  mapTotal
    (map_set m k
       (match map_get m k with Some v => v | None => num0 end + d))
  = mapTotal m + d.
Proof.
  unfold mapTotal. induction m as [|[k' v'] m IH]; cbn [map_set map_get].
  - rewrite !sumOf_cons, sumOf_nil. cbn [snd].
    now rewrite nadd_0_l, nadd_0_r.
  - destruct (String.eqb k' k).
    + rewrite !sumOf_cons. cbn [snd]. apply nadd_swap.
    + rewrite !sumOf_cons, IH. cbn [snd]. apply nadd_assoc.
Qed.

Lemma mapTotal_party_step (pt : string) (m : JsMap num) (t : Entry num) :
  mapTotal (party_step pt (plusType pt) (minusType pt) m t)
  = mapTotal m + increment pt t.
Proof.
  unfold party_step, increment, delta.
  destruct (opt_eqb (t_partyType t) pt); cbn [negb orb andb];
    [|now rewrite nadd_0_r].
  destruct (truthy (t_partyId t)); cbn [negb]; [|now rewrite nadd_0_r].
  destruct (String.eqb (t_type t) (plusType pt)) eqn:Ep.
  - rewrite (eqb_plus_minus pt _ Ep), nadd_sub_assoc. apply mapTotal_set.
  - destruct (String.eqb (t_type t) (minusType pt)).
    + rewrite nsub_def. apply mapTotal_set.
    + now rewrite nadd_0_r.
Qed.

Lemma mapTotal_ledger_loop (pt : string) (l : list (Entry num))
  (m : JsMap num) :
  mapTotal (fold_left (party_step pt (plusType pt) (minusType pt)) l m)
  = mapTotal m + sumOf (increment pt) l.
Proof.
  revert m; induction l as [|t l IH]; intros m; simpl.
  - now rewrite sumOf_nil, nadd_0_r.
  - now rewrite IH, mapTotal_party_step, sumOf_cons, nadd_assoc.
Qed.

(** The figure of [calcReceivables] and [calcPayables] in exact arithmetic:
    the opening balances plus the signed amounts of all the entries typed
    for the party type that name a party. *)
Lemma outstanding_sum (pt : string) (ps : list (Party num))
  (l : list (Entry num)) :
  NoDup (map (@p_id num) ps) ->
  outstanding pt ps l = sumOpening ps + sumOf (increment pt) l.
Proof.
  intros ND. unfold outstanding, outstandingMap.
  rewrite sumValues_mapTotal, mapTotal_ledger_loop.
  rewrite <- sumValues_mapTotal, openingMap_nodup by exact ND.
  now rewrite sumValues_opening.
Qed.

(** Over parties with distinct ids, the sum of a quantity attached to the
    party an id names is that quantity when the id names a party. *)
Lemma sumOf_indicator (ps : list (Party num)) (k : string) (d : num) :
  NoDup (map (@p_id num) ps) ->
  sumOf (fun c => if String.eqb k (p_id c) then d else num0) ps
  = if existsb (fun c => String.eqb k (p_id c)) ps then d else num0.
Proof.
  induction ps as [|c ps IH]; intros ND; trivial.
  inversion ND as [|x xs Hnotin ND']; subst.
  rewrite sumOf_cons, IH by exact ND'. simpl.
  destruct (String.eqb k (p_id c)) eqn:Ek; simpl.
  - apply String.eqb_eq in Ek. subst k.
    destruct (existsb _ ps) eqn:Ex; [|apply nadd_0_r].
    apply existsb_exists in Ex. destruct Ex as [c' [Hin Heq]].
    apply String.eqb_eq in Heq. exfalso. apply Hnotin.
    rewrite Heq. now apply in_map.
  - apply nadd_0_l.
Qed.

(** An entry counts in the map either for the party it names or as a
    dangling entry. *)
Lemma increment_split (pt : string) (ps : list (Party num))
  (t : Entry num) :
  NoDup (map (@p_id num) ps) ->
  Forall (fun c => p_id c <> "") ps ->
  increment pt t
  = sumOf (fun c => contribution pt (Some (p_id c)) t) ps
    + (if dangling pt ps t then delta pt t else num0).
Proof.
  intros ND NE. unfold increment, contribution, dangling, ofParty.
  destruct (opt_eqb (t_partyType t) pt); cbn [andb].
  2: now rewrite sumOf_zero, nadd_0_0.
  destruct (t_partyId t) as [k|]; cbn [truthy opt_eqb2 opt_eqb andb].
  2: now rewrite sumOf_zero, nadd_0_0.
  rewrite sumOf_indicator by exact ND.
  destruct (String.eqb k "") eqn:Ek; cbn [negb andb].
  - apply String.eqb_eq in Ek. subst k.
    destruct (existsb _ ps) eqn:Ex; [|now rewrite nadd_0_0].
    apply existsb_exists in Ex. destruct Ex as [c [Hin Heq]].
    apply String.eqb_eq in Heq. rewrite Forall_forall in NE.
    exfalso. now apply (NE c Hin).
  - destruct (existsb _ ps); cbn [negb].
    + now rewrite nadd_0_r.
    + now rewrite nadd_0_l.
Qed.

Lemma sumOf_swap {X Y : Type} (f : X -> Y -> num) (xs : list X)
  (ys : list Y) :
  sumOf (fun x => sumOf (f x) ys) xs
  = sumOf (fun y => sumOf (fun x => f x y) xs) ys.
Proof.
  induction xs as [|x xs IH].
  - cbn. now rewrite sumOf_zero.
  - rewrite sumOf_cons, IH, <- sumOf_add.
    apply sumOf_ext. intros y _. now rewrite sumOf_cons.
Qed.

Lemma findParty_in (ps : list (Party num)) (c : Party num) :
  NoDup (map (@p_id num) ps) -> In c ps ->
  findParty ps (Some (p_id c)) = Some c.
Proof.
  unfold findParty. induction ps as [|x ps IH]; simpl; intros ND Hin.
  - tauto.
  - inversion ND as [|y ys Hnotin ND']; subst.
    destruct Hin as [-> | Hin].
    + now rewrite String.eqb_refl.
    + destruct (String.eqb (p_id c) (p_id x)) eqn:Ec.
      * apply String.eqb_eq in Ec. exfalso. apply Hnotin.
        rewrite <- Ec. now apply in_map.
      * now apply IH.
Qed.

Lemma openingOf_in (ps : list (Party num)) (c : Party num) :
  NoDup (map (@p_id num) ps) -> Forall (fun c => p_id c <> "") ps ->
  In c ps ->
  openingOf ps (Some (p_id c)) = safeNum (p_openingBalance c).
Proof.
  intros ND NE Hin. unfold openingOf.
  rewrite findParty_in by assumption.
  rewrite Forall_forall in NE. specialize (NE c Hin).
  cbn [truthy]. apply String.eqb_neq in NE. now rewrite NE.
Qed.

Lemma mapM_Ok {X Y : Type} (f : X -> result Y) (g : X -> Y) (xs : list X) :
  (forall x, In x xs -> f x = Ok (g x)) -> mapM f xs = Ok (map g xs).
Proof.
  induction xs as [|x xs IH]; intros H; simpl; trivial.
  rewrite H by (now left). simpl.
  rewrite IH; trivial. intros y Hy. apply H. now right.
Qed.

(** The sum of the balances of the parties of a collection. *)
Lemma sumBalances_store co us (cs vs : list (Party num))
  (l : list (Entry num)) (kind : string) :
  let pt := if String.eqb kind "client" then "client" else "vendor" in
  let ps := if String.eqb kind "client" then cs else vs in
  NoDup (map (@p_id num) ps) -> Forall (fun c => p_id c <> "") ps ->
  sumBalances (store co us cs vs l) kind
  = Ok (sumOpening ps
        + sumOf (fun t =>
                   sumOf (fun c => contribution pt (Some (p_id c)) t) ps) l).
Proof.
  cbv zeta. intros ND NE. unfold sumBalances, balancesOf.
  assert (Hm : member "map"
             (if String.eqb kind "client"
              then clients (store co us cs vs l)
              else vendors (store co us cs vs l))
           = Ok (if String.eqb kind "client" then cs else vs))
    by now destruct (String.eqb kind "client").
  rewrite Hm. cbn [bind].
  rewrite (mapM_Ok _
    (fun c => safeNum (p_openingBalance c)
              + sumOf (contribution
                         (if String.eqb kind "client" then "client"
                          else "vendor") (Some (p_id c))) l)).
  - cbn [rmap bind]. f_equal. unfold sumValues.
    rewrite fold_left_map_add. fold (sumOf (fun c : Party num =>
      safeNum (p_openingBalance c)
      + sumOf (contribution
                 (if String.eqb kind "client" then "client" else "vendor")
                 (Some (p_id c))) l)
      (if String.eqb kind "client" then cs else vs)).
    rewrite sumOf_add. f_equal. apply sumOf_swap.
  - intros c Hin. rewrite calcPartyBalance_spec, balance_spec_sum.
    now rewrite openingOf_in.
Qed.

(** The total of the map against the balances of the parties. *)
Lemma outstanding_balances co us (cs vs : list (Party num))
  (l : list (Entry num)) (kind : string) :
  let pt := if String.eqb kind "client" then "client" else "vendor" in
  let ps := if String.eqb kind "client" then cs else vs in
  NoDup (map (@p_id num) ps) -> Forall (fun c => p_id c <> "") ps ->
  exists r,
    sumBalances (store co us cs vs l) kind = Ok r
    /\ outstanding pt ps l = r + danglingSum pt ps l.
Proof.
  cbv zeta. intros ND NE. eexists.
  split; [now apply sumBalances_store|].
  rewrite outstanding_sum by exact ND.
  rewrite <- nadd_assoc. f_equal.
  unfold danglingSum. rewrite <- sumOf_filter, <- sumOf_add.
  apply sumOf_ext. intros t _. now apply increment_split.
Qed.

End Additivity.

Section AdditivityTheorem.

Context {num : Type} {A : Arith num}.
Local Open Scope num_scope.
Local Open Scope string_scope.
Local Open Scope list_scope.

(** C2 (as amended): in exact arithmetic, for every snapshot whose party ids
    are distinct and non-empty, [totals().receivable] is the sum of
    [balanceOf('client', c.id)] over the clients plus the contributions of
    the entries typed ['client'] whose non-empty partyId matches no client,
    so the two are equal when the ledger has no such entry; likewise
    [totals().payable], the vendors and the entries typed ['vendor']. *)
Theorem receivable_additivity :
  forall (E : ExactArith A) co us (cs vs : list (Party num))
         (l : list (Entry num)),
  NoDup (map (@p_id num) cs) -> Forall (fun c => p_id c <> "") cs ->
  NoDup (map (@p_id num) vs) -> Forall (fun v => p_id v <> "") vs ->
  exists t r p,
    totals (store co us cs vs l) = Ok t
    /\ sumBalances (store co us cs vs l) "client" = Ok r
    /\ sumBalances (store co us cs vs l) "vendor" = Ok p
    /\ receivable t = r + danglingSum "client" cs l
    /\ payable t = p + danglingSum "vendor" vs l
    /\ (filter (dangling "client" cs) l = [] -> receivable t = r)
    /\ (filter (dangling "vendor" vs) l = [] -> payable t = p).
Proof.
  intros E co us cs vs l NDc NEc NDv NEv.
  destruct (@outstanding_balances _ _ E co us cs vs l "client" NDc NEc)
    as [r [Hr Hrec]].
  destruct (@outstanding_balances _ _ E co us cs vs l "vendor" NDv NEv)
    as [p [Hp Hpay]].
  cbn in Hrec, Hpay.
  exists (mkTotals (amountsOfType "sale" l) (amountsOfType "purchase" l)
            (cogsOf l) (amountsOfType "expense" l)
            (amountsOfType "cash_in" l) (amountsOfType "cash_out" l)
            ((paidOfType "sale" l + amountsOfType "cash_in" l)
             - ((paidOfType "purchase" l + amountsOfType "expense" l)
                + amountsOfType "cash_out" l))
            (outstanding "client" cs l) (outstanding "vendor" vs l)
            ((amountsOfType "sale" l - cogsOf l)
             - amountsOfType "expense" l)), r, p.
  split; [apply totals_store|].
  split; [exact Hr|]. split; [exact Hp|].
  cbn [receivable payable].
  split; [exact Hrec|]. split; [exact Hpay|].
  split; intros Hnone.
  - rewrite Hrec. unfold danglingSum. rewrite Hnone, sumOf_nil.
    apply nadd_0_r.
  - rewrite Hpay. unfold danglingSum. rewrite Hnone, sumOf_nil.
    apply nadd_0_r.
Qed.

End AdditivityTheorem.

(** ** Entries of parties that are not in the store *)

Section DanglingExact.

Context {num : Type} {A : Arith num} {E : ExactArith A}.
Local Open Scope num_scope.
Local Open Scope string_scope.
Local Open Scope list_scope.

(** In exact arithmetic an entry adds its signed amount to the figure,
    wherever it stands in the ledger. *)
Lemma outstanding_insert (pt : string) (ps : list (Party num))
  (l1 l2 : list (Entry num)) (e : Entry num) :
  outstanding pt ps (l1 ++ e :: l2)
  = outstanding pt ps (l1 ++ l2) + increment pt e.
Proof.
  unfold outstanding, outstandingMap.
  rewrite !sumValues_mapTotal, !mapTotal_ledger_loop.
  rewrite <- (sumOf_perm (increment pt) (Permutation_middle l1 l2 e)).
  rewrite sumOf_cons, (nadd_comm (increment pt e)). apply nadd_assoc.
Qed.

End DanglingExact.

Section Dangling.

Context {num : Type} {A : Arith num}.
Local Open Scope num_scope.
Local Open Scope string_scope.
Local Open Scope list_scope.

(** C10: an entry typed ['client'] whose non-empty partyId matches no client
    is still counted in [totals().receivable].  The figure is the sum of the
    values of the [Map] that [calcReceivables] builds; when the entry is a
    sale or a [cash_in], that [Map] holds under the partyId what the entries
    of that id accumulate from [0] ([cur + amount - paid] for a sale,
    [cur - amount] for a [cash_in]); and in exact arithmetic the figure is
    the figure of the ledger without the entry plus the entry's
    [amount - paid] (a sale) or minus its [amount] (a [cash_in]).  Likewise
    for an entry typed ['vendor'] and [totals().payable]. *)
Theorem dangling_entries_counted :
  forall co us (cs vs : list (Party num)) (l1 l2 : list (Entry num))
         (e : Entry num) (k : string),
  k <> "" -> t_partyId e = Some k ->
  exists t t0,
    totals (store co us cs vs (l1 ++ e :: l2)) = Ok t
    /\ totals (store co us cs vs (l1 ++ l2)) = Ok t0
    /\ (t_partyType e = Some "client" ->
        ~ In k (map (@p_id num) cs) ->
        receivable t
        = sumOver snd (outstandingMap "client" cs (l1 ++ e :: l2))
        /\ (t_type e = "sale" \/ t_type e = "cash_in" ->
            map_get (outstandingMap "client" cs (l1 ++ e :: l2)) k
            = Some (keyTotal "client" k (l1 ++ e :: l2)))
        /\ (ExactArith A ->
            receivable t = receivable t0 + signedAmount "client" e))
    /\ (t_partyType e = Some "vendor" ->
        ~ In k (map (@p_id num) vs) ->
        payable t
        = sumOver snd (outstandingMap "vendor" vs (l1 ++ e :: l2))
        /\ (t_type e = "purchase" \/ t_type e = "cash_out" ->
            map_get (outstandingMap "vendor" vs (l1 ++ e :: l2)) k
            = Some (keyTotal "vendor" k (l1 ++ e :: l2)))
        /\ (ExactArith A ->
            payable t = payable t0 + signedAmount "vendor" e)).
Proof.
  intros co us cs vs l1 l2 e k Hk Hid.
  do 2 eexists. split; [apply totals_store|]. split; [apply totals_store|].
  cbn [receivable payable]. split; intros Hpt Hnot.
  - split; [apply sumValues_sumOver|]. split.
    + intros Hty. now apply (@dangling_key_total _ _ "client").
    + intros E. rewrite outstanding_insert.
      now rewrite (@increment_signedAmount _ _ "client" k e Hk Hpt Hid).
  - split; [apply sumValues_sumOver|]. split.
    + intros Hty. now apply (@dangling_key_total _ _ "vendor").
    + intros E. rewrite outstanding_insert.
      now rewrite (@increment_signedAmount _ _ "vendor" k e Hk Hpt Hid).
Qed.

End Dangling.

(** ** The loader *)

Section Loader.

Context {num : Type} {A : Arith num}.
Local Open Scope string_scope.
Local Open Scope list_scope.

Lemma guardFails_iff (st : State num) :
  guardFails st = true <->
  company st = None \/ users st = None \/ ledger st = None.
Proof.
  unfold guardFails.
  destruct (company st), (users st), (ledger st); simpl;
    intuition discriminate.
Qed.

(** A snapshot without [company], [users] or [ledger] is refused: the only
    effect of the import is the alert, and [loadState] falls back to the
    default state. *)
Lemma import_refuses (obj : State num) (app : App num) :
  company obj = None \/ users obj = None \/ ledger obj = None ->
  importData (Some (ParsedObject obj)) app
  = alert app "Import failed: Invalid file"
  /\ loadState (Some (ParsedObject obj)) = defaultState.
Proof.
  intros H. apply guardFails_iff in H.
  unfold importData, loadState. simpl. now rewrite H.
Qed.

Lemma totals_without_vendors co us (cs : list (Party num))
  (l : list (Entry num)) :
  totals {| company := co; users := us; clients := Some cs; vendors := None;
            ledger := Some l |}
  = Throw (mkExn "TypeError" "state.vendors is not iterable").
Proof. reflexivity. Qed.

Lemma totals_without_clients co us (vs : option (list (Party num)))
  (l : list (Entry num)) :
  totals {| company := co; users := us; clients := None; vendors := vs;
            ledger := Some l |}
  = Throw (mkExn "TypeError" "state.clients is not iterable").
Proof. reflexivity. Qed.

Lemma route_keeps (app : App num) :
  present (storage app) = true ->
  state (fst (route app)) = state app
  /\ storage (fst (route app)) = storage app
  /\ alerts (fst (route app)) = alerts app.
Proof.
  intros HS. unfold route, runCore, showPage. rewrite HS.
  destruct (loggedIn app); cbn [negb]; [|now cbn].
  repeat match goal with
         | |- context [if ?b then _ else _] => destruct b
         end;
    repeat match goal with
           | |- context [match ?r with Ok _ => _ | Throw _ => _ end] =>
               destruct r
           end;
    now cbn.
Qed.

(** C8 (the behaviour of the code where the claim fails): a snapshot that has
    [company], [users] and [ledger] but no [clients] key passes the guard of
    [importData] and of [loadState]; the import replaces the in-memory state
    and the stored one and announces success; and with a session on the
    dashboard route the calculation functions are then run on that snapshot,
    where [totals()] throws a [TypeError]. *)
Theorem import_accepts_snapshot_without_clients :
  forall (co : Company) (us : list User) (vs : option (list (Party num)))
         (l : list (Entry num)) (app : App num),
  let obj := {| company := Some co; users := Some us; clients := None;
                vendors := vs; ledger := Some l |} in
  let app' := importData (Some (ParsedObject obj)) app in
  state app' = obj
  /\ storage app' = Some obj
  /\ In "Imported successfully." (alerts app')
  /\ loadState (Some (ParsedObject obj)) = obj
  /\ throws (totals obj) = true
  /\ (loggedIn app = true -> path app = "dashboard" ->
      coreLog app' = obj :: coreLog app
      /\ alerts app' =
         "Import failed: state.clients is not iterable"
         :: "Imported successfully." :: alerts app).
Proof.
  intros co us vs l app obj app'.
  assert (HK := route_keeps
    (alert (saveState (setState app obj)) "Imported successfully.") eq_refl).
  destruct HK as [Hst [Hsto Hal]]. cbn in Hst, Hsto, Hal.
  repeat split.
  - subst app'. unfold importData. cbn [parseSnapshot guardFails obj
      company users ledger present negb orb].
    destruct (route _) as [app3 [err|]]; cbn in *; assumption.
  - subst app'. unfold importData. cbn [parseSnapshot guardFails obj
      company users ledger present negb orb].
    destruct (route _) as [app3 [err|]]; cbn in *; assumption.
  - subst app'. unfold importData. cbn [parseSnapshot guardFails obj
      company users ledger present negb orb].
    destruct (route _) as [app3 [err|]]; cbn in *; rewrite Hal; cbn; tauto.
  - subst app' obj. unfold importData, route.
    cbn [parseSnapshot guardFails company users ledger present negb orb].
    change (loggedIn (alert (saveState (setState app ?st)) ?msg))
      with (loggedIn app).
    rewrite H. unfold runCore.
    cbn [alert saveState setState path storage state present negb].
    rewrite H0. cbn [String.eqb Ascii.eqb Bool.eqb].
    unfold renderDashboard. rewrite totals_without_clients.
    reflexivity.
  - subst app' obj. unfold importData, route.
    cbn [parseSnapshot guardFails company users ledger present negb orb].
    change (loggedIn (alert (saveState (setState app ?st)) ?msg))
      with (loggedIn app).
    rewrite H. unfold runCore.
    cbn [alert saveState setState path storage state present negb].
    rewrite H0. cbn [String.eqb Ascii.eqb Bool.eqb].
    unfold renderDashboard. rewrite totals_without_clients.
    reflexivity.
Qed.

End Loader.

(** ** The two arithmetics at work *)

Lemma exact_arith_laws (s2n : string -> Exact.xnum) :
  ExactArith (Exact.arith s2n).
Proof.
  constructor.
  - intros [x|] [y|]; simpl; trivial; f_equal; lia.
  - intros [x|] [y|] [z|]; simpl; trivial; f_equal; lia.
  - intros [x|]; simpl; trivial.
  - intros [x|] [y|]; simpl; trivial; f_equal; lia.
  - intros [x|] [y|]; simpl; trivial; f_equal; lia.
Qed.

Section Binary64.

Import PrimFloat.
#[local] Existing Instance F64.js.
#[local] Set Warnings "-inexact-float".
Local Open Scope string_scope.
Local Open Scope list_scope.

(** Binary64 addition is not associative. *)
Lemma binary64_not_exact : ~ ExactArith F64.js.
Proof.
  intros [_ Hassoc _ _ _].
  specialize (Hassoc 0.1%float 0.2%float 0.3%float).
  vm_compute in Hassoc. discriminate Hassoc.
Qed.

(** The scenarios of the specification, in binary64. *)

Example scenario_partial_payment :
  calcPartyBalance (F64.snapshot [F64.ali] [] F64.partialSale)
                   "client" (Some "c1") = Ok 600%float
  /\ rmap (@sales float) (totals (F64.snapshot [F64.ali] [] F64.partialSale))
     = Ok 1000%float
  /\ rmap (@cash float) (totals (F64.snapshot [F64.ali] [] F64.partialSale))
     = Ok 400%float.
Proof. repeat split. Qed.

Example scenario_cogs_profit :
  rmap (@profit float)
    (totals (F64.snapshot [] []
       [F64.entry "sale" None 5000 0;
        F64.entry "purchase" (Some "COGS") 3000 0;
        F64.entry "expense" None 500 500]))
  = Ok 1500%float.
Proof. reflexivity. Qed.

Example scenario_cash_reconciliation :
  rmap (@cash float)
    (totals (F64.snapshot [] []
       [F64.entry "sale" None 1000 1000; F64.entry "cash_out" None 200 200]))
  = Ok 800%float
  /\ rmap (@net float)
       (cashFlow (F64.snapshot [] []
          [F64.entry "sale" None 1000 1000;
           F64.entry "cash_out" None 200 200]))
     = Ok 800%float.
Proof. repeat split. Qed.

Example seedDemo_totals :
  totals (F64.snapshot F64.demoClients F64.demoVendors F64.demoLedger)
  = Ok (mkTotals 55000 40000 40000 3000 5000 7000 5000 42000 31000
                 12000)%float.
Proof. reflexivity. Qed.

(** A receipt of 500 from a client who owed nothing: the balance is
    negative and reported as it is. *)
Example overpayment_is_negative :
  calcPartyBalance
    (F64.snapshot [F64.ali] [] [F64.entryOf "cash_in" "client" "c1" 500 500])
    "client" (Some "c1") = Ok (-500)%float.
Proof. reflexivity. Qed.

Example safeNum_infinity :
  safeNum (VNum infinity) = 0%float
  /\ safeNum (VNum neg_infinity) = 0%float
  /\ safeNum (VNum nan) = 0%float
  /\ safeNum (VBool true) = 1%float.
Proof. repeat split. Qed.

Example cogs_is_case_sensitive :
  rmap (@cogs float)
    (totals (F64.snapshot [] []
       [F64.entry "purchase" (Some "cogs") 3000 0;
        F64.entry "purchase" None 10 0;
        F64.entry "purchase" (Some "COGS") 7 0]))
  = Ok 7%float.
Proof. reflexivity. Qed.

(** C1, counterexample: on a sale of 0.3 paid in full, a purchase of 0.1
    paid in full and an expense of 0.2, [totals().cash] is [-2^-54] and
    [cashFlow().net] is [-2^-55]. *)
Lemma cash_differs_from_net :
  rmap (@cash float) (totals (F64.snapshot [] [] F64.roundingLedger))
  = Ok (-0x1p-54)%float
  /\ rmap (@net float) (cashFlow (F64.snapshot [] [] F64.roundingLedger))
     = Ok (-0x1p-55)%float
  /\ PrimFloat.eqb (-0x1p-54) (-0x1p-55) = false.
Proof. repeat split. Qed.

(** C2, counterexample: with no client in the store and one sale of 100 to
    a client id that matches none, [totals().receivable] is 100 while the
    sum of the clients' balances is 0. *)
Lemma receivable_counts_missing_client :
  rmap (@receivable float) (totals (F64.snapshot [] [] F64.ghostSale))
  = Ok 100%float
  /\ sumBalances (F64.snapshot [] [] F64.ghostSale) "client" = Ok 0%float
  /\ PrimFloat.eqb 100 0 = false.
Proof. repeat split. Qed.

(** C3, counterexample: a client with a sale of 1000, 400 of it paid, is
    deleted; [balanceOf] for the missing client is 600, not 0. *)
Lemma balance_of_deleted_client :
  exists st',
    deleteParty (F64.snapshot [F64.ali] [] F64.partialSale) "client" "c1"
    = Ok st'
    /\ clients st' = Some []
    /\ calcPartyBalance st' "client" (Some "c1") = Ok 600%float
    /\ PrimFloat.eqb 600 0 = false.
Proof. eexists. repeat split. Qed.

(** C4, counterexample: three unpaid sales of 0.1, 0.2 and 0.3 to one client
    give the balance 0.6000000000000001 in this order and 0.6 in the reverse
    order. *)
Lemma balance_depends_on_order :
  calcPartyBalance (F64.snapshot [F64.ali] [] F64.threeSales)
                   "client" (Some "c1") = Ok 0x1.3333333333334p-1%float
  /\ calcPartyBalance (F64.snapshot [F64.ali] [] (rev F64.threeSales))
                      "client" (Some "c1") = Ok 0x1.3333333333333p-1%float
  /\ Permutation F64.threeSales (rev F64.threeSales)
  /\ PrimFloat.eqb 0x1.3333333333334p-1 0x1.3333333333333p-1 = false.
Proof.
  split; [reflexivity|]. split; [reflexivity|].
  split; [apply Permutation_rev | reflexivity].
Qed.

(** C3, witness: deleting the client [c1] of the demo data. *)
Lemma dangling_party_tolerance_witness :
  NoDup (map (@p_id float) F64.demoClients)
  /\ exists st',
       deleteParty
         (F64.snapshot F64.demoClients F64.demoVendors F64.demoLedger)
         "client" "c1" = Ok st'
       /\ throws (totals st') = false
       /\ throws (balanceSheet st') = false
       /\ throws (cashFlow st') = false
       /\ calcPartyBalance st' "client" (Some "c1") =
          Ok (fold_left (balance_spec_step "client" (Some "c1"))
                F64.demoLedger 0%float)
       /\ partyName st' (Some "client") (Some "c1") = Ok "-"
       /\ rmap flows (totals st')
          = rmap flows
              (totals (F64.snapshot F64.demoClients F64.demoVendors
                         F64.demoLedger)).
Proof.
  assert (ND : NoDup (map (@p_id float) F64.demoClients)).
  { repeat constructor; simpl; intuition discriminate. }
  split; [exact ND|].
  exact (@dangling_party_tolerance float F64.js _ _ F64.demoClients
           F64.demoVendors F64.demoLedger "client" "c1" ND).
Defined.

(** C9, witness: the demo parties with an empty ledger; the receivable is
    the 12000 and the 0 that the two clients open with. *)
Lemma zero_ledger_baseline_witness :
  NoDup (map (@p_id float) F64.demoClients)
  /\ exists t,
       totals (F64.snapshot F64.demoClients F64.demoVendors []) = Ok t
       /\ receivable t = 12000%float
       /\ sales t = 0%float /\ purchases t = 0%float
       /\ expenses t = 0%float /\ cash t = 0%float.
Proof.
  assert (ND : NoDup (map (@p_id float) F64.demoClients)).
  { repeat constructor; simpl; intuition discriminate. }
  split; [exact ND|].
  destruct (@zero_ledger_baseline float F64.js
              (Some (mkCompany "My Business" "PKR" 7)) (Some [])
              F64.demoClients F64.demoVendors)
    as [t [Ht [Hs [Hp [He [Hc Hr]]]]]].
  exists t. split; [exact Ht|].
  split; [rewrite (Hr ND); reflexivity|].
  repeat split; assumption.
Defined.

(** C9, counterexample: two clients share the id [a], with opening balances
    5 and 7, and the ledger is empty; [totals().receivable] is 7, the sum of
    the opening balances is 12. *)
Lemma receivable_with_shared_id :
  rmap (@receivable float)
    (totals (F64.snapshot [mkParty "a" "First" (VNum 5%float);
                           mkParty "a" "Second" (VNum 7%float)] [] []))
  = Ok 7%float
  /\ sumOver openingOfParty [mkParty "a" "First" (VNum 5%float);
                             mkParty "a" "Second" (VNum 7%float)]
     = 12%float
  /\ PrimFloat.eqb 7 12 = false.
Proof. repeat split. Qed.

(** C10, counterexample: a sale of 100 typed ['client'] whose partyId is
    the empty string, which is not [null] and matches no client, is not
    counted: [totals().receivable] is 0. *)
Lemma empty_party_id_is_not_counted :
  rmap (@receivable float)
    (totals (F64.snapshot [] []
               [mkEntry "t1" "sale" (Some "client") (Some "") None
                  (VNum 100%float) (VNum 0%float)]))
  = Ok 0%float
  /\ signedAmount "client"
       (mkEntry "t1" "sale" (Some "client") (Some "") None
          (VNum 100%float) (VNum 0%float)) = 100%float
  /\ PrimFloat.eqb 0 100 = false.
Proof. repeat split. Qed.

End Binary64.

Section ExactIntegers.

#[local] Existing Instance Exact.zs.
Local Open Scope string_scope.
Local Open Scope list_scope.

(** C2, witness: the demo data with a sale to a deleted client, in exact
    arithmetic. *)
Lemma receivable_additivity_witness :
  ExactArith Exact.zs
  /\ NoDup (map (@p_id Exact.xnum) Exact.demoClients)
  /\ Forall (fun c => p_id c <> "") Exact.demoClients
  /\ NoDup (map (@p_id Exact.xnum) Exact.demoVendors)
  /\ Forall (fun v => p_id v <> "") Exact.demoVendors
  /\ exists t r p,
       totals (Exact.snapshot Exact.demoClients Exact.demoVendors
                 Exact.demoLedger) = Ok t
       /\ sumBalances (Exact.snapshot Exact.demoClients Exact.demoVendors
                         Exact.demoLedger) "client" = Ok r
       /\ sumBalances (Exact.snapshot Exact.demoClients Exact.demoVendors
                         Exact.demoLedger) "vendor" = Ok p
       /\ receivable t
          = (r + danglingSum "client" Exact.demoClients Exact.demoLedger)%num
       /\ payable t
          = (p + danglingSum "vendor" Exact.demoVendors Exact.demoLedger)%num
       /\ (filter (dangling "client" Exact.demoClients) Exact.demoLedger = []
           -> receivable t = r)
       /\ (filter (dangling "vendor" Exact.demoVendors) Exact.demoLedger = []
           -> payable t = p).
Proof.
  assert (NDc : NoDup (map (@p_id Exact.xnum) Exact.demoClients)).
  { repeat constructor; simpl; intuition discriminate. }
  assert (NEc : Forall (fun c : Party Exact.xnum => p_id c <> "")
                  Exact.demoClients).
  { repeat constructor; simpl; discriminate. }
  assert (NDv : NoDup (map (@p_id Exact.xnum) Exact.demoVendors)).
  { repeat constructor; simpl; intuition discriminate. }
  assert (NEv : Forall (fun c : Party Exact.xnum => p_id c <> "")
                  Exact.demoVendors).
  { repeat constructor; simpl; discriminate. }
  split; [exact (exact_arith_laws Exact.noStrings)|].
  split; [exact NDc|]. split; [exact NEc|].
  split; [exact NDv|]. split; [exact NEv|].
  exact (@receivable_additivity Exact.xnum Exact.zs
           (exact_arith_laws Exact.noStrings) _ _ Exact.demoClients
           Exact.demoVendors Exact.demoLedger NDc NEc NDv NEv).
Defined.

(** C10, witness: the demo data followed by an unpaid sale of 100 to the
    client id [ghost], which no client has: the receivable goes from 42800
    to 42900 and the [Map] holds 100 under [ghost]. *)
Lemma dangling_entries_counted_witness :
  "ghost" <> ""
  /\ exists t t0,
       totals (Exact.snapshot Exact.demoClients Exact.demoVendors
                 (Exact.demoLedger
                  ++ [Exact.entryOf "sale" "client" "ghost" 100 0])) = Ok t
       /\ totals (Exact.snapshot Exact.demoClients Exact.demoVendors
                    Exact.demoLedger) = Ok t0
       /\ receivable t0 = Exact.XInt 42800
       /\ receivable t = Exact.XInt 42900
       /\ map_get (outstandingMap "client" Exact.demoClients
                     (Exact.demoLedger
                      ++ [Exact.entryOf "sale" "client" "ghost" 100 0]))
                  "ghost"
          = Some (Exact.XInt 100).
Proof.
  assert (NE : "ghost" <> "") by discriminate.
  split; [exact NE|].
  destruct (@dangling_entries_counted Exact.xnum Exact.zs
              (Some (mkCompany "My Business" "PKR" 7)) (Some [])
              Exact.demoClients Exact.demoVendors Exact.demoLedger []
              (Exact.entryOf "sale" "client" "ghost" 100 0) "ghost"
              NE eq_refl) as [t [t0 [Ht [Ht0 [Hc _]]]]].
  assert (Hnot : ~ In "ghost" (map (@p_id Exact.xnum) Exact.demoClients)).
  { simpl. intuition discriminate. }
  destruct (Hc eq_refl Hnot) as [_ [Hmap Hexact]].
  assert (H0 : receivable t0 = Exact.XInt 42800).
  { assert (H := f_equal (rmap (@receivable Exact.xnum)) Ht0).
    cbn in H. now injection H as <-. }
  exists t, t0. split; [exact Ht|]. split; [exact Ht0|].
  split; [exact H0|]. split.
  - rewrite (Hexact (exact_arith_laws Exact.noStrings)), H0. reflexivity.
  - rewrite (Hmap (or_introl eq_refl)). reflexivity.
Defined.

(** C1, witness: on the demo data in exact arithmetic the two figures are
    equal. *)
Lemma cash_and_net_witness :
  ExactArith Exact.zs
  /\ exists t cf,
       totals (Exact.snapshot Exact.demoClients Exact.demoVendors
                 Exact.demoLedger) = Ok t
       /\ cashFlow (Exact.snapshot Exact.demoClients Exact.demoVendors
                      Exact.demoLedger) = Ok cf
       /\ cash t = net cf
       /\ cash t = Exact.XInt 5100.
Proof.
  split; [exact (exact_arith_laws Exact.noStrings)|].
  destruct (@cash_and_net Exact.xnum Exact.zs
              (Some (mkCompany "My Business" "PKR" 7)) (Some [])
              Exact.demoClients Exact.demoVendors Exact.demoLedger)
    as [t [cf [Ht [Hcf [Hcash [_ Heq]]]]]].
  exists t, cf. split; [exact Ht|]. split; [exact Hcf|].
  split; [exact (Heq (exact_arith_laws Exact.noStrings))|].
  rewrite Hcash. reflexivity.
Defined.

(** C4, witness: the balance of the client [c1] of the demo data in exact
    arithmetic, under any reordering of the ledger. *)
Lemma balanceOf_formula_witness :
  ExactArith Exact.zs
  /\ calcPartyBalance (Exact.snapshot Exact.demoClients Exact.demoVendors
                         Exact.demoLedger) "client" (Some "c1")
     = Ok (Exact.XInt 42000)
  /\ forall l', Permutation Exact.demoLedger l' ->
       calcPartyBalance (Exact.snapshot Exact.demoClients Exact.demoVendors
                           l') "client" (Some "c1")
       = Ok (Exact.XInt 42000).
Proof.
  split; [exact (exact_arith_laws Exact.noStrings)|].
  destruct (@balanceOf_formula Exact.xnum Exact.zs
              (Some (mkCompany "My Business" "PKR" 7)) (Some [])
              Exact.demoClients Exact.demoVendors Exact.demoLedger
              "client" (Some "c1")) as [Hf Hx].
  destruct (Hx (exact_arith_laws Exact.noStrings)) as [_ Hperm].
  split; [reflexivity|].
  intros l' HP. unfold Exact.snapshot. now rewrite (Hperm l' HP).
Defined.

(** The demo data in exact arithmetic: receivable 42800 is the clients'
    balances 42000 plus the 800 outstanding on the sale to the deleted
    client. *)
Example exact_demo_receivable :
  rmap (@receivable Exact.xnum)
    (totals (Exact.snapshot Exact.demoClients Exact.demoVendors
               Exact.demoLedger)) = Ok (Exact.XInt 42800)
  /\ sumBalances (Exact.snapshot Exact.demoClients Exact.demoVendors
                    Exact.demoLedger) "client" = Ok (Exact.XInt 42000)
  /\ danglingSum "client" Exact.demoClients Exact.demoLedger
     = Exact.XInt 800.
Proof. repeat split. Qed.

End ExactIntegers.

(** * Properties of the pages around the core *)

(** ** Text for HTML and CSV *)

Section TextFacts.

Local Open Scope string_scope.
Local Open Scope list_scope.

Lemma string_app_assoc (a b c : string) :
  ((a ++ b) ++ c = a ++ (b ++ c))%string.
Proof. induction a as [|x a IH]; simpl; [reflexivity | now rewrite IH]. Qed.

Lemma chars_app (a b : string) :
  list_ascii_of_string (a ++ b)%string
  = list_ascii_of_string a ++ list_ascii_of_string b.
Proof. induction a as [|x a IH]; simpl; [reflexivity | now rewrite IH]. Qed.

(** What [escapeChar] returns, case by case. *)
Lemma escapeChar_cases (c : ascii) :
  (c = "&"%char /\ escapeChar c = "&amp;")
  \/ (c = "<"%char /\ escapeChar c = "&lt;")
  \/ (c = ">"%char /\ escapeChar c = "&gt;")
  \/ (c = dquote /\ escapeChar c = "&quot;")
  \/ (c = "'"%char /\ escapeChar c = "&#39;")
  \/ (isHtmlSpecial c = false /\ escapeChar c = String c "").
Proof.
  unfold escapeChar, isHtmlSpecial.
  destruct (Ascii.eqb_spec c "&"); [subst; tauto|].
  destruct (Ascii.eqb_spec c "<"); [subst; tauto|].
  destruct (Ascii.eqb_spec c ">"); [subst; tauto|].
  destruct (Ascii.eqb_spec c dquote); [subst; tauto|].
  destruct (Ascii.eqb_spec c "'"); [subst; tauto|].
  do 5 right. split; reflexivity.
Qed.

Lemma escapeChar_safe (c : ascii) :
  forallb (fun x => negb (isHtmlDelimiter x))
          (list_ascii_of_string (escapeChar c)) = true.
Proof.
  destruct (escapeChar_cases c)
    as [[-> ->]|[[-> ->]|[[-> ->]|[[-> ->]|[[-> ->]|[H ->]]]]]];
    try reflexivity.
  simpl. rewrite andb_true_r. unfold isHtmlSpecial in H.
  unfold isHtmlDelimiter.
  destruct (Ascii.eqb c "&"); [discriminate|]. simpl in H.
  now rewrite H.
Qed.

(** X1: the text returned by [escapeHtml] holds none of the characters that
    open or close a tag or an attribute value: no [<], no [>], no double
    quote and no apostrophe. *)
Theorem escapeHtml_has_no_delimiter :
  forall s : string,
    forallb (fun c => negb (isHtmlDelimiter c))
            (list_ascii_of_string (escapeHtml s)) = true.
Proof.
  induction s as [|c s IH]; simpl; [reflexivity|].
  now rewrite chars_app, forallb_app, escapeChar_safe, IH.
Qed.

Lemma escapeHtml_inj (s1 s2 : string) :
  escapeHtml s1 = escapeHtml s2 -> s1 = s2.
Proof.
  revert s2; induction s1 as [|c1 s1 IH]; intros [|c2 s2] H;
    cbn [escapeHtml] in H.
  - reflexivity.
  - destruct (escapeChar_cases c2)
      as [[_ E]|[[_ E]|[[_ E]|[[_ E]|[[_ E]|[_ E]]]]]];
      rewrite E in H; discriminate H.
  - destruct (escapeChar_cases c1)
      as [[_ E]|[[_ E]|[[_ E]|[[_ E]|[[_ E]|[_ E]]]]]];
      rewrite E in H; discriminate H.
  - destruct (escapeChar_cases c1)
      as [[-> E1]|[[-> E1]|[[-> E1]|[[-> E1]|[[-> E1]|[N1 E1]]]]]];
    destruct (escapeChar_cases c2)
      as [[-> E2]|[[-> E2]|[[-> E2]|[[-> E2]|[[-> E2]|[N2 E2]]]]]];
    rewrite ?E1, ?E2 in H; simpl in H;
    try discriminate H;
    try (injection H as H; f_equal; now apply IH);
    try (injection H as Hc H; subst; discriminate);
    try (injection H as Hc H; subst; f_equal; now apply IH).
Qed.

(** X2: [escapeHtml] loses nothing: two texts have the same escaped form
    exactly when they are the same text. *)
Theorem escapeHtml_injective :
  forall s1 s2 : string,
    String.eqb (escapeHtml s1) (escapeHtml s2) = String.eqb s1 s2.
Proof.
  intros s1 s2.
  destruct (String.eqb_spec s1 s2) as [->|N].
  - apply String.eqb_refl.
  - apply String.eqb_neq. intros H. apply N. now apply escapeHtml_inj.
Qed.

(** A text that does not begin with a double quote. *)
Lemma readQuoted_doubleQuotes (s rest : string) :
  match rest with
  | String c _ => Ascii.eqb c dquote
  | EmptyString => false
  end = false ->
  readQuoted (doubleQuotes s ++ String dquote rest)%string = Some (s, rest).
Proof.
  intros Hrest. induction s as [|c s IH]; simpl.
  - destruct rest as [|c2 r]; [reflexivity|]. now rewrite Hrest.
  - destruct (Ascii.eqb c dquote) eqn:Ec; simpl.
    + apply Ascii.eqb_eq in Ec. subst c. now rewrite IH.
    + now rewrite Ec, IH.
Qed.

Lemma readField_csvField (x : option string) (rest : string) :
  match rest with
  | String c _ => Ascii.eqb c dquote
  | EmptyString => false
  end = false ->
  readField (csvField x ++ rest)%string = Some (orEmpty x, rest).
Proof.
  intros Hrest. unfold csvField. simpl.
  rewrite string_app_assoc. simpl.
  now apply readQuoted_doubleQuotes.
Qed.

(** X3: a text column of the CSV export reads back as written: whatever the
    text holds (double quotes, commas, line feeds), a reader that takes the
    quoted field returns the text and stops in front of the comma, the line
    feed or the end that follows the column. *)
Theorem csvField_reads_back :
  forall (x : option string) (rest : string),
    readField (csvField x) = Some (orEmpty x, "")
    /\ readField (csvField x ++ String "," rest)%string
       = Some (orEmpty x, String "," rest)
    /\ readField (csvField x ++ String newline rest)%string
       = Some (orEmpty x, String newline rest).
Proof.
  intros x rest. split; [|split].
  - rewrite <- (readField_csvField x "") by reflexivity.
    f_equal. induction (csvField x) as [|c s IH]; simpl; congruence.
  - now apply readField_csvField.
  - now apply readField_csvField.
Qed.

(** X4: the quoting of a CSV column loses nothing: two texts give the same
    column exactly when they are the same text. *)
Theorem csvField_injective :
  forall s1 s2 : string,
    String.eqb (csvField (Some s1)) (csvField (Some s2)) = String.eqb s1 s2.
Proof.
  intros s1 s2.
  destruct (String.eqb_spec s1 s2) as [->|N].
  - apply String.eqb_refl.
  - apply String.eqb_neq. intros H. apply N.
    assert (H1 := readField_csvField (Some s1) "" eq_refl).
    assert (H2 := readField_csvField (Some s2) "" eq_refl).
    rewrite H in H1. rewrite H1 in H2. now injection H2.
Qed.

End TextFacts.

(** ** The transactions pages and their form *)

Section PageFacts.

Context {num : Type} {A : Arith num}.
Local Open Scope string_scope.
Local Open Scope list_scope.

(** X5: an entry whose type is one of the five entry types is listed on
    exactly one of the four transactions pages (sales, purchases, expenses,
    cashbook); an entry of any other type is listed on none of them. *)
Theorem entry_is_listed_on_one_page :
  forall t : Entry num,
    List.length (filter (fun mode => filterType mode t) txnModes)
    = if existsb (String.eqb (t_type t)) entryTypes then 1 else 0.
Proof.
  intros t. unfold txnModes, entryTypes, filterType. cbn [filter existsb].
  change (String.eqb "sale" "sale") with true.
  change (String.eqb "purchase" "sale") with false.
  change (String.eqb "purchase" "purchase") with true.
  change (String.eqb "expense" "sale") with false.
  change (String.eqb "expense" "purchase") with false.
  change (String.eqb "expense" "expense") with true.
  change (String.eqb "cash" "sale") with false.
  change (String.eqb "cash" "purchase") with false.
  change (String.eqb "cash" "expense") with false.
  change (String.eqb "cash" "cash") with true.
  cbv iota.
  destruct (String.eqb_spec (t_type t) "sale") as [E|_];
    [rewrite ?E; reflexivity|].
  destruct (String.eqb_spec (t_type t) "purchase") as [E|_];
    [rewrite ?E; reflexivity|].
  destruct (String.eqb_spec (t_type t) "expense") as [E|_];
    [rewrite ?E; reflexivity|].
  destruct (String.eqb_spec (t_type t) "cash_in") as [E|_];
    [rewrite ?E; reflexivity|].
  destruct (String.eqb_spec (t_type t) "cash_out") as [E|_];
    [rewrite ?E; reflexivity|].
  reflexivity.
Qed.

(** X6: every type the form of a transactions page offers is a type that
    page lists, so an entry saved from a page appears on that page. *)
Theorem offered_types_are_listed :
  forall (mode id : string) (partyType partyId category : option string)
         (amount paid : jsval num),
    forallb (fun v => filterType mode
                        (mkEntry id (fst v) partyType partyId category
                                 amount paid))
            (typesForMode mode) = true.
Proof.
  intros. unfold typesForMode, filterType.
  destruct (String.eqb mode "sale"); [reflexivity|].
  destruct (String.eqb mode "purchase"); [reflexivity|].
  destruct (String.eqb mode "expense"); [reflexivity|].
  destruct (String.eqb mode "cash"); reflexivity.
Qed.

Lemma existsb_id_in (ps : list (Party num)) (id : string) :
  In id (map (@p_id num) ps) ->
  existsb (fun p => opt_eqb (Some id) (p_id p)) ps = true.
Proof.
  intros H. apply existsb_exists.
  apply in_map_iff in H. destruct H as [p [Hp Hin]].
  exists p. split; [exact Hin|]. simpl. rewrite Hp. apply String.eqb_refl.
Qed.

Lemma dangling_of_option (pt : string) (ps : list (Party num))
  (e : Entry num) (party : string) :
  t_partyId e = (if String.eqb party "" then None else Some party) ->
  party = "" \/ In party (map (@p_id num) ps) ->
  dangling pt ps e = false.
Proof.
  intros Hid Hin. unfold dangling. rewrite Hid.
  destruct (String.eqb_spec party "") as [E|N].
  - cbn. now rewrite andb_false_r.
  - destruct Hin as [E|Hin]; [contradiction|].
    rewrite (existsb_id_in _ _ Hin). cbn. now rewrite andb_false_r.
Qed.

Lemma dangling_other_type (pt : string) (ps : list (Party num))
  (e : Entry num) :
  opt_eqb (t_partyType e) pt = false -> dangling pt ps e = false.
Proof. intros H. unfold dangling. now rewrite H. Qed.

(** X7: an entry saved through the transaction form with a party chosen
    among the options of its type never dangles when it is saved: its
    partyId is null or the id of a party of the collection its partyType
    names, and its partyType is null exactly when its partyId is. *)
Theorem saved_entry_does_not_dangle :
  forall co us (cs vs : list (Party num)) (l : list (Entry num))
         (form : TxnForm) (uid : string) (opts : list (string * string)),
  partyOptions (store co us cs vs l) (x_type form) = Ok opts ->
  In (x_party form) (map fst opts) ->
  dangling "client" cs (entryOfForm (num := num) form uid) = false
  /\ dangling "vendor" vs (entryOfForm (num := num) form uid) = false
  /\ present (t_partyType (entryOfForm (num := num) form uid))
     = present (t_partyId (entryOfForm (num := num) form uid)).
Proof.
  intros co us cs vs l form uid opts Hopts Hin.
  unfold partyOptions in Hopts. cbn [store clients vendors member bind]
    in Hopts.
  assert (Hid : t_partyId (entryOfForm (num := num) form uid)
                = if String.eqb (x_party form) "" then None
                  else Some (x_party form)) by reflexivity.
  destruct (String.eqb (x_type form) "sale"
            || String.eqb (x_type form) "cash_in") eqn:Ec.
  - injection Hopts as <-.
    cbn [map fst] in Hin. rewrite map_map in Hin. cbn [fst] in Hin.
    assert (Hc : x_party form = "" \/ In (x_party form) (map (@p_id num) cs)).
    { destruct Hin as [H|H]; [left; now symmetry | right; exact H]. }
    split; [now apply (dangling_of_option _ _ _ Hid)|].
    split.
    + apply dangling_other_type. unfold entryOfForm.
      cbn [t_partyType]. rewrite Ec.
      now destruct (truthy _).
    + unfold entryOfForm. cbn [t_partyType t_partyId]. rewrite Ec.
      destruct (String.eqb (x_party form) "") eqn:Ep; cbn; [reflexivity|].
      now rewrite Ep.
  - destruct (String.eqb (x_type form) "purchase"
              || String.eqb (x_type form) "cash_out") eqn:Ev.
    + injection Hopts as <-.
      cbn [map fst] in Hin. rewrite map_map in Hin. cbn [fst] in Hin.
      assert (Hv : x_party form = ""
                   \/ In (x_party form) (map (@p_id num) vs)).
      { destruct Hin as [H|H]; [left; now symmetry | right; exact H]. }
      split; [|split].
      * apply dangling_other_type. unfold entryOfForm.
        cbn [t_partyType]. rewrite Ec, Ev.
        now destruct (truthy _).
      * now apply (dangling_of_option _ _ _ Hid).
      * unfold entryOfForm. cbn [t_partyType t_partyId]. rewrite Ec, Ev.
        destruct (String.eqb (x_party form) "") eqn:Ep; cbn; [reflexivity|].
        now rewrite Ep.
    + injection Hopts as <-. cbn in Hin.
      destruct Hin as [H|[]].
      assert (Hn : x_party form = "" \/ In (x_party form) (map (@p_id num) cs))
        by (left; now symmetry).
      assert (Hn' : x_party form = ""
                    \/ In (x_party form) (map (@p_id num) vs))
        by (left; now symmetry).
      split; [now apply (dangling_of_option _ _ _ Hid)|].
      split; [now apply (dangling_of_option _ _ _ Hid)|].
      unfold entryOfForm. cbn [t_partyType t_partyId]. rewrite Ec, Ev.
      rewrite <- H. reflexivity.
Qed.

End PageFacts.

(** ** Saving and deleting entries and parties *)

Section UpsertFacts.

Context {num : Type} {A : Arith num}.
Local Open Scope num_scope.
Local Open Scope string_scope.
Local Open Scope list_scope.

Lemma NoDup_snoc {X : Type} (l : list X) (x : X) :
  NoDup l -> ~ In x l -> NoDup (l ++ [x]).
Proof.
  induction l as [|y l IH]; simpl; intros ND Hx.
  - constructor; [tauto | constructor].
  - inversion ND as [|z zs Hy ND']; subst. constructor.
    + rewrite in_app_iff. simpl. intros [H|[H|[]]]; [tauto|].
      apply Hx. now left.
    + apply IH; tauto.
Qed.

Lemma findEntry_notin (l : list (Entry num)) (id : string) :
  findEntry l id = None <-> ~ In id (map (@t_id num) l).
Proof.
  unfold findEntry. induction l as [|x l IH]; simpl.
  - tauto.
  - destruct (String.eqb_spec (t_id x) id) as [E|N].
    + split; [discriminate | intros H; exfalso; apply H; now left].
    + rewrite IH. tauto.
Qed.

Lemma findEntry_replace (l : list (Entry num)) (obj : Entry num)
  (id' : string) :
  findEntry l (t_id obj) <> None ->
  findEntry (replaceEntry (t_id obj) obj l) id' =
  if String.eqb id' (t_id obj) then Some obj else findEntry l id'.
Proof.
  unfold findEntry. induction l as [|x l IH]; simpl; intros H.
  - congruence.
  - destruct (String.eqb_spec (t_id x) (t_id obj)) as [E|N]; simpl.
    + rewrite (String.eqb_sym id'). 
      destruct (String.eqb_spec (t_id obj) id') as [E'|N'].
      * reflexivity.
      * rewrite E. apply String.eqb_neq in N'. now rewrite N'.
    + destruct (String.eqb_spec (t_id x) id') as [E'|N'].
      * subst id'. apply String.eqb_neq in N. now rewrite N.
      * now apply IH.
Qed.

Lemma findEntry_snoc (l : list (Entry num)) (obj : Entry num)
  (id' : string) :
  findEntry l (t_id obj) = None ->
  findEntry (l ++ [obj]) id' =
  if String.eqb id' (t_id obj) then Some obj else findEntry l id'.
Proof.
  unfold findEntry. induction l as [|x l IH]; simpl; intros H.
  - now rewrite (String.eqb_sym id').
  - destruct (String.eqb_spec (t_id x) (t_id obj)) as [E|N];
      [discriminate|].
    destruct (String.eqb_spec (t_id x) id') as [E'|N'].
    + subst id'. apply String.eqb_neq in N. now rewrite N.
    + now apply IH.
Qed.

Lemma replaceEntry_ids (l : list (Entry num)) (obj : Entry num) :
  map (@t_id num) (replaceEntry (t_id obj) obj l) = map (@t_id num) l.
Proof.
  induction l as [|x l IH]; simpl; trivial.
  destruct (String.eqb_spec (t_id x) (t_id obj)) as [E|N]; simpl.
  - now rewrite E.
  - now rewrite IH.
Qed.

Lemma saveTxn_store co us (cs vs : list (Party num)) (l : list (Entry num))
  (form : TxnForm) (uid : string) :
  saveTxn (store co us cs vs l) form uid =
  Ok (store co us cs vs
        (match findEntry l (t_id (entryOfForm (num := num) form uid)) with
         | Some _ =>
             replaceEntry (t_id (entryOfForm (num := num) form uid))
                          (entryOfForm form uid) l
         | None => l ++ [entryOfForm form uid]
         end)).
Proof. reflexivity. Qed.

(** X8: saving the transaction form replaces the entry of that id in place
    or, when no entry has the id, appends a new one: afterwards the id finds
    the object built from the form, every other id finds what it found
    before, the ledger is one entry longer only when the id was new, and
    ids that were distinct stay distinct. *)
Theorem saveTxn_upserts :
  forall co us (cs vs : list (Party num)) (l : list (Entry num))
         (form : TxnForm) (uid : string),
  exists l',
    saveTxn (store co us cs vs l) form uid = Ok (store co us cs vs l')
    /\ findEntry l' (t_id (entryOfForm (num := num) form uid))
       = Some (entryOfForm form uid)
    /\ (forall id', String.eqb id' (t_id (entryOfForm (num := num) form uid))
                    = false ->
                    findEntry l' id' = findEntry l id')
    /\ List.length l'
       = (if present (findEntry l (t_id (entryOfForm (num := num) form uid)))
          then List.length l else S (List.length l))
    /\ (NoDup (map (@t_id num) l) -> NoDup (map (@t_id num) l')).
Proof.
  intros. eexists. split; [apply saveTxn_store|].
  set (obj := entryOfForm (num := num) form uid).
  destruct (findEntry l (t_id obj)) as [x|] eqn:F.
  - assert (Hne : findEntry l (t_id obj) <> None) by congruence.
    split; [|split; [|split]].
    + rewrite (findEntry_replace _ _ _ Hne). now rewrite String.eqb_refl.
    + intros id' Hid. rewrite (findEntry_replace _ _ _ Hne). now rewrite Hid.
    + cbn [present]. rewrite <- !(length_map (@t_id num)).
      now rewrite replaceEntry_ids.
    + now rewrite replaceEntry_ids.
  - split; [|split; [|split]].
    + rewrite (findEntry_snoc _ _ _ F). now rewrite String.eqb_refl.
    + intros id' Hid. rewrite (findEntry_snoc _ _ _ F). now rewrite Hid.
    + cbn [present]. rewrite length_app. simpl. lia.
    + intros ND. rewrite map_app. simpl.
      apply NoDup_snoc; trivial.
      now apply findEntry_notin.
Qed.

End UpsertFacts.

Section DeleteFacts.

Context {num : Type} {A : Arith num}.
Local Open Scope num_scope.
Local Open Scope string_scope.
Local Open Scope list_scope.

Lemma findEntry_remove_other (l : list (Entry num)) (id id' : string) :
  String.eqb id' id = false ->
  findEntry (removeEntry id l) id' = findEntry l id'.
Proof.
  intros H. unfold findEntry. induction l as [|x l IH]; simpl; trivial.
  destruct (String.eqb_spec (t_id x) id) as [E|N]; simpl.
  - subst id. rewrite String.eqb_sym in H. now rewrite H.
  - now rewrite IH.
Qed.

Lemma removeEntry_absent (l : list (Entry num)) (id : string) :
  findEntry l id = None -> removeEntry id l = l.
Proof.
  unfold findEntry. induction l as [|x l IH]; simpl; trivial.
  destruct (String.eqb (t_id x) id); [discriminate|].
  intros H. now rewrite IH.
Qed.

Lemma removeEntry_length (l : list (Entry num)) (id : string) :
  List.length (removeEntry id l)
  = if present (findEntry l id) then pred (List.length l)
    else List.length l.
Proof.
  unfold findEntry. induction l as [|x l IH]; simpl; trivial.
  destruct (String.eqb (t_id x) id); simpl; trivial.
  rewrite IH. destruct (present _) eqn:P; trivial.
  destruct l; simpl in *; [discriminate | reflexivity].
Qed.

Lemma removeEntry_gone (l : list (Entry num)) (id : string) :
  NoDup (map (@t_id num) l) -> findEntry (removeEntry id l) id = None.
Proof.
  intros ND. apply findEntry_notin. revert ND.
  induction l as [|x l IH]; simpl; intros ND; [tauto|].
  inversion ND as [|y ys Hnotin ND']; subst.
  destruct (String.eqb_spec (t_id x) id) as [E|N].
  - now subst id.
  - simpl. intros [H|H]; [contradiction|]. now apply IH.
Qed.

Lemma removeEntry_snoc (l : list (Entry num)) (obj : Entry num) :
  findEntry l (t_id obj) = None ->
  removeEntry (t_id obj) (l ++ [obj]) = l.
Proof.
  unfold findEntry. induction l as [|x l IH]; simpl.
  - now rewrite String.eqb_refl.
  - destruct (String.eqb (t_id x) (t_id obj)); [discriminate|].
    intros H. now rewrite IH.
Qed.

(** X9: deleting an entry removes the first entry of that id and nothing
    else: every other id finds what it found before, an id that no entry
    has leaves the ledger as it is, the ledger is one entry shorter when
    the id was found, and with distinct ids the id finds nothing
    afterwards. *)
Theorem deleteTxn_removes_one :
  forall co us (cs vs : list (Party num)) (l : list (Entry num))
         (id : string),
  exists l',
    deleteTxn (store co us cs vs l) id = Ok (store co us cs vs l')
    /\ (forall id', String.eqb id' id = false ->
                    findEntry l' id' = findEntry l id')
    /\ (findEntry l id = None -> l' = l)
    /\ List.length l'
       = (if present (findEntry l id) then pred (List.length l)
          else List.length l)
    /\ (NoDup (map (@t_id num) l) -> findEntry l' id = None).
Proof.
  intros. exists (removeEntry id l). split; [reflexivity|].
  split; [intros id' H; now apply findEntry_remove_other|].
  split; [apply removeEntry_absent|].
  split; [apply removeEntry_length | apply removeEntry_gone].
Qed.

(** X10: an entry added through the form under a new id and then deleted
    leaves the record store exactly as it was. *)
Theorem add_then_delete_restores :
  forall co us (cs vs : list (Party num)) (l : list (Entry num))
         (form : TxnForm) (uid : string),
  findEntry l (t_id (entryOfForm (num := num) form uid)) = None ->
  bind (saveTxn (store co us cs vs l) form uid)
       (fun st' => deleteTxn st' (t_id (entryOfForm (num := num) form uid)))
  = Ok (store co us cs vs l).
Proof.
  intros co us cs vs l form uid F.
  rewrite saveTxn_store, F. cbn [bind]. unfold deleteTxn, store.
  cbn [ledger member bind company users clients vendors].
  now rewrite (removeEntry_snoc _ _ F).
Qed.

(** ** The party form *)

Lemma findParty_replace (ps : list (Party num)) (obj : Party num)
  (id' : string) :
  findParty ps (Some (p_id obj)) <> None ->
  findParty (replaceParty (p_id obj) obj ps) (Some id') =
  if String.eqb id' (p_id obj) then Some obj else findParty ps (Some id').
Proof.
  unfold findParty. induction ps as [|x ps IH]; simpl; intros H.
  - congruence.
  - rewrite (String.eqb_sym (p_id obj)) in H.
    destruct (String.eqb_spec (p_id x) (p_id obj)) as [E|N]; simpl.
    + destruct (String.eqb_spec id' (p_id obj)) as [E'|N'].
      * reflexivity.
      * rewrite E. apply String.eqb_neq in N'. now rewrite N'.
    + destruct (String.eqb_spec id' (p_id x)) as [E'|N'].
      * subst id'. apply String.eqb_neq in N. now rewrite N.
      * now apply IH.
Qed.

Lemma findParty_snoc (ps : list (Party num)) (obj : Party num)
  (id' : string) :
  findParty ps (Some (p_id obj)) = None ->
  findParty (ps ++ [obj]) (Some id') =
  if String.eqb id' (p_id obj) then Some obj else findParty ps (Some id').
Proof.
  unfold findParty. induction ps as [|x ps IH]; simpl; intros H.
  - reflexivity.
  - rewrite (String.eqb_sym (p_id obj)) in H.
    destruct (String.eqb_spec (p_id x) (p_id obj)) as [E|N];
      [discriminate|].
    destruct (String.eqb_spec id' (p_id x)) as [E'|N'].
    + subst id'. apply String.eqb_neq in N. now rewrite N.
    + now apply IH.
Qed.

Lemma replaceParty_ids (ps : list (Party num)) (obj : Party num) :
  map (@p_id num) (replaceParty (p_id obj) obj ps) = map (@p_id num) ps.
Proof.
  induction ps as [|x ps IH]; simpl; trivial.
  destruct (String.eqb_spec (p_id x) (p_id obj)) as [E|N]; simpl.
  - now rewrite E.
  - now rewrite IH.
Qed.

Lemma findParty_None_notin (ps : list (Party num)) (id : string) :
  findParty ps (Some id) = None -> ~ In id (map (@p_id num) ps).
Proof.
  unfold findParty. induction ps as [|x ps IH]; simpl; [tauto|].
  destruct (String.eqb_spec id (p_id x)) as [E|N]; [discriminate|].
  intros H [H'|H']; [congruence | now apply IH].
Qed.

(** The parties of the collection a kind names, after the party form was
    saved. *)
Lemma upsertParty_store (trim : string -> string) co us
  (cs vs : list (Party num)) (l : list (Entry num)) (kind : string)
  (form : PartyForm) (uid : string) :
  let obj := partyOfForm trim (num := num) form uid in
  let ps := if String.eqb kind "client" then cs else vs in
  let ps' := match findParty ps (Some (p_id obj)) with
             | Some _ => replaceParty (p_id obj) obj ps
             | None => ps ++ [obj]
             end in
  upsertParty trim (store co us cs vs l) kind form uid =
  Ok (store co us (if String.eqb kind "client" then ps' else cs)
                  (if String.eqb kind "client" then vs else ps') l).
Proof.
  cbv zeta. unfold upsertParty, store.
  now destruct (String.eqb kind "client").
Qed.

(** X11: saving the party form replaces the party of that id in place or,
    when no party of the collection has the id, appends a new one:
    afterwards the id finds the object built from the form, whose opening
    balance is a finite number whatever was typed; every other id finds
    what it found before; ids that were distinct stay distinct; and the
    other collection and the ledger are untouched. *)
Theorem upsertParty_upserts :
  forall (trim : string -> string) co us (cs vs : list (Party num))
         (l : list (Entry num)) (kind : string) (form : PartyForm)
         (uid : string),
  exists ps',
    upsertParty trim (store co us cs vs l) kind form uid =
      Ok (store co us (if String.eqb kind "client" then ps' else cs)
                      (if String.eqb kind "client" then vs else ps') l)
    /\ findParty ps' (Some (p_id (partyOfForm trim (num := num) form uid)))
       = Some (partyOfForm trim form uid)
    /\ (exists n, p_openingBalance (partyOfForm trim (num := num) form uid)
                  = VNum n /\ isFinite n = true)
    /\ (forall id', String.eqb id' (p_id (partyOfForm trim (num := num)
                                            form uid)) = false ->
          findParty ps' (Some id')
          = findParty (if String.eqb kind "client" then cs else vs)
                      (Some id'))
    /\ (NoDup (map (@p_id num) (if String.eqb kind "client" then cs else vs))
        -> NoDup (map (@p_id num) ps')).
Proof.
  intros. eexists. split; [apply upsertParty_store|].
  set (obj := partyOfForm trim (num := num) form uid).
  set (ps := if String.eqb kind "client" then cs else vs).
  assert (Hfin : exists n, p_openingBalance obj = VNum n
                           /\ isFinite n = true).
  { eexists. split; [reflexivity|]. apply safeNum_finite. }
  destruct (findParty ps (Some (p_id obj))) as [x|] eqn:F.
  - assert (Hne : findParty ps (Some (p_id obj)) <> None) by congruence.
    split; [|split; [exact Hfin|split]].
    + rewrite (findParty_replace _ _ _ Hne). now rewrite String.eqb_refl.
    + intros id' Hid. rewrite (findParty_replace _ _ _ Hne).
      now rewrite Hid.
    + now rewrite replaceParty_ids.
  - split; [|split; [exact Hfin|split]].
    + rewrite (findParty_snoc _ _ _ F). now rewrite String.eqb_refl.
    + intros id' Hid. rewrite (findParty_snoc _ _ _ F). now rewrite Hid.
    + intros ND. rewrite map_app. simpl.
      apply NoDup_snoc; trivial.
      now apply findParty_None_notin.
Qed.

End DeleteFacts.

(** ** What a saved entry changes in the figures *)

Section GrowthFacts.

Context {num : Type} {A : Arith num}.
Local Open Scope num_scope.
Local Open Scope string_scope.
Local Open Scope list_scope.

(** A number stored by a form reads back as itself. *)
Lemma safeNum_idem (v : jsval num) : safeNum (VNum (safeNum v)) = safeNum v.
Proof.
  unfold safeNum at 1. cbn [Number]. now rewrite safeNum_finite.
Qed.

Lemma sumOf_snoc {X : Type} (g : X -> num) (xs : list X) (x : X) :
  sumOf g (xs ++ [x]) = sumOf g xs + g x.
Proof. unfold sumOf. now rewrite fold_left_app. Qed.

Lemma amountsOfType_snoc (ty : string) (l : list (Entry num))
  (e : Entry num) :
  amountsOfType ty (l ++ [e]) =
  if String.eqb (t_type e) ty
  then amountsOfType ty l + safeNum (t_amount e)
  else amountsOfType ty l.
Proof.
  unfold amountsOfType. rewrite filter_app. cbn [filter].
  destruct (String.eqb (t_type e) ty).
  - now rewrite sumOf_snoc.
  - now rewrite app_nil_r.
Qed.

Lemma saveTxn_new co us (cs vs : list (Party num)) (l : list (Entry num))
  (form : TxnForm) (uid : string) :
  findEntry l (t_id (entryOfForm (num := num) form uid)) = None ->
  saveTxn (store co us cs vs l) form uid
  = Ok (store co us cs vs (l ++ [entryOfForm form uid])).
Proof. intros F. now rewrite saveTxn_store, F. Qed.

(** X12: saving a new entry adds the amount typed in the form, read through
    [safeNum], to the total of the entry's type and leaves the totals of
    the four other types as they were; this holds to the last bit in
    binary64. *)
Theorem new_entry_adds_to_its_type :
  forall co us (cs vs : list (Party num)) (l : list (Entry num))
         (form : TxnForm) (uid : string),
  findEntry l (t_id (entryOfForm (num := num) form uid)) = None ->
  exists t t',
    totals (store co us cs vs l) = Ok t
    /\ bind (saveTxn (store co us cs vs l) form uid) totals = Ok t'
    /\ sales t' = (if String.eqb (x_type form) "sale"
                   then sales t + safeNum (VStr (x_amount form))
                   else sales t)
    /\ purchases t' = (if String.eqb (x_type form) "purchase"
                       then purchases t + safeNum (VStr (x_amount form))
                       else purchases t)
    /\ expenses t' = (if String.eqb (x_type form) "expense"
                      then expenses t + safeNum (VStr (x_amount form))
                      else expenses t)
    /\ cashIn t' = (if String.eqb (x_type form) "cash_in"
                    then cashIn t + safeNum (VStr (x_amount form))
                    else cashIn t)
    /\ cashOut t' = (if String.eqb (x_type form) "cash_out"
                     then cashOut t + safeNum (VStr (x_amount form))
                     else cashOut t).
Proof.
  intros co us cs vs l form uid F. do 2 eexists.
  split; [apply totals_store|].
  rewrite (saveTxn_new _ _ _ _ _ _ _ F). cbn [bind].
  split; [apply totals_store|].
  cbn [sales purchases expenses cashIn cashOut].
  rewrite !amountsOfType_snoc. cbn [entryOfForm t_type t_amount].
  rewrite !safeNum_idem. repeat split.
Qed.

Lemma balance_fold_snoc (pt : string) (id : option string)
  (l : list (Entry num)) (e : Entry num) (bal : num) :
  fold_left (balance_spec_step pt id) (l ++ [e]) bal
  = balance_spec_step pt id (fold_left (balance_spec_step pt id) l bal) e.
Proof. now rewrite fold_left_app. Qed.

Lemma ofParty_form (pt : string) (form : TxnForm) (uid : string) :
  String.eqb (x_party form) "" = false ->
  ofParty pt (Some (x_party form)) (entryOfForm (num := num) form uid)
  = opt_eqb (t_partyType (entryOfForm (num := num) form uid)) pt.
Proof.
  intros H. unfold ofParty, entryOfForm. cbn [t_partyType t_partyId].
  rewrite H. cbn [opt_eqb2]. now rewrite String.eqb_refl, andb_true_r.
Qed.

(** X13: saving a new entry changes the balance of the party it names and
    of no other: a sale raises the client's balance by [amount - paid], a
    receipt ([cash_in]) lowers it by the amount, a purchase raises the
    vendor's balance by [amount - paid] and a payment ([cash_out]) lowers
    it by the amount, the amounts being read through [safeNum]; the balance
    of every other party id is unchanged.  This holds to the last bit in
    binary64. *)
Theorem new_entry_changes_one_balance :
  forall co us (cs vs : list (Party num)) (l : list (Entry num))
         (form : TxnForm) (uid kind : string) (id : option string),
  findEntry l (t_id (entryOfForm (num := num) form uid)) = None ->
  exists old new,
    calcPartyBalance (store co us cs vs l) kind id = Ok old
    /\ bind (saveTxn (store co us cs vs l) form uid)
            (fun st' => calcPartyBalance st' kind id) = Ok new
    /\ (opt_eqb2 (t_partyId (entryOfForm (num := num) form uid)) id = false
        -> new = old)
    /\ (String.eqb (x_party form) "" = false ->
        id = Some (x_party form) ->
        (kind = "client" -> x_type form = "sale" ->
         new = old + (safeNum (VStr (x_amount form))
                      - safeNum (VStr (x_paid form))))
        /\ (kind = "client" -> x_type form = "cash_in" ->
            new = old - safeNum (VStr (x_amount form)))
        /\ (kind = "vendor" -> x_type form = "purchase" ->
            new = old + (safeNum (VStr (x_amount form))
                         - safeNum (VStr (x_paid form))))
        /\ (kind = "vendor" -> x_type form = "cash_out" ->
            new = old - safeNum (VStr (x_amount form)))).
Proof.
  intros co us cs vs l form uid kind id F. do 2 eexists.
  split; [apply calcPartyBalance_spec|].
  rewrite (saveTxn_new _ _ _ _ _ _ _ F). cbn [bind].
  split; [rewrite calcPartyBalance_spec, balance_fold_snoc; reflexivity|].
  split.
  - intros H. unfold balance_spec_step at 1, ofParty.
    now rewrite H, andb_false_r.
  - intros Hp ->.
    repeat split; intros -> Hty;
      unfold balance_spec_step at 1;
      rewrite (ofParty_form _ _ _ Hp);
      unfold entryOfForm; cbn [t_partyType t_type t_amount t_paid];
      rewrite Hty, ?Hp; cbn; rewrite ?safeNum_idem, ?Hp; cbn;
      reflexivity.
Qed.

End GrowthFacts.

(** ** What a saved entry or party changes in receivable and payable *)

Section ExactGrowth.

Context {num : Type} {A : Arith num} {E : ExactArith A}.
Local Open Scope num_scope.
Local Open Scope string_scope.
Local Open Scope list_scope.

Lemma outstanding_snoc (pt : string) (ps : list (Party num))
  (l : list (Entry num)) (e : Entry num) :
  outstanding pt ps (l ++ [e]) = outstanding pt ps l + increment pt e.
Proof.
  unfold outstanding, outstandingMap. rewrite fold_left_app.
  cbn [fold_left]. rewrite !sumValues_mapTotal.
  apply mapTotal_party_step.
Qed.

Lemma increment_client_form (form : TxnForm) (uid : string) :
  increment "client" (entryOfForm (num := num) form uid) =
  if String.eqb (x_party form) "" then num0
  else if String.eqb (x_type form) "sale"
  then safeNum (VStr (x_amount form)) - safeNum (VStr (x_paid form))
  else if String.eqb (x_type form) "cash_in"
  then num0 - safeNum (VStr (x_amount form))
  else num0.
Proof.
  unfold increment, delta, entryOfForm. cbv zeta.
  cbn [t_partyType t_partyId t_type t_amount t_paid].
  destruct (String.eqb (x_party form) "") eqn:Ep.
  - cbn [truthy]. now rewrite andb_false_r.
  - cbn [truthy]. rewrite Ep. cbn [negb]. rewrite andb_true_r.
    destruct (String.eqb_spec (x_type form) "sale") as [H|_];
      [rewrite H; cbn; now rewrite !safeNum_idem|].
    destruct (String.eqb_spec (x_type form) "cash_in") as [H|_];
      [rewrite H; cbn; now rewrite !safeNum_idem|].
    cbn [orb].
    destruct (String.eqb (x_type form) "purchase"
              || String.eqb (x_type form) "cash_out"); reflexivity.
Qed.

Lemma increment_vendor_form (form : TxnForm) (uid : string) :
  increment "vendor" (entryOfForm (num := num) form uid) =
  if String.eqb (x_party form) "" then num0
  else if String.eqb (x_type form) "purchase"
  then safeNum (VStr (x_amount form)) - safeNum (VStr (x_paid form))
  else if String.eqb (x_type form) "cash_out"
  then num0 - safeNum (VStr (x_amount form))
  else num0.
Proof.
  unfold increment, delta, entryOfForm. cbv zeta.
  cbn [t_partyType t_partyId t_type t_amount t_paid].
  destruct (String.eqb (x_party form) "") eqn:Ep.
  - cbn [truthy]. now rewrite andb_false_r.
  - cbn [truthy]. rewrite Ep. cbn [negb]. rewrite andb_true_r.
    destruct (String.eqb_spec (x_type form) "sale") as [H|_];
      [rewrite H; reflexivity|].
    destruct (String.eqb_spec (x_type form) "cash_in") as [H|_];
      [rewrite H; reflexivity|].
    cbn [orb].
    destruct (String.eqb_spec (x_type form) "purchase") as [H|_];
      [rewrite H; cbn; now rewrite !safeNum_idem|].
    destruct (String.eqb_spec (x_type form) "cash_out") as [H|_];
      [rewrite H; cbn; now rewrite !safeNum_idem|].
    reflexivity.
Qed.

(** X14: in exact arithmetic, saving a new entry with a party raises
    [totals().receivable] by [amount - paid] when it is a sale and lowers it
    by the amount when it is a receipt, raises [totals().payable] by
    [amount - paid] when it is a purchase and lowers it by the amount when
    it is a payment; an entry without a party, or of another type, leaves
    both as they were. *)
Theorem new_entry_changes_receivable :
  forall co us (cs vs : list (Party num)) (l : list (Entry num))
         (form : TxnForm) (uid : string),
  findEntry l (t_id (entryOfForm (num := num) form uid)) = None ->
  exists t t',
    totals (store co us cs vs l) = Ok t
    /\ bind (saveTxn (store co us cs vs l) form uid) totals = Ok t'
    /\ receivable t' =
       receivable t
       + (if String.eqb (x_party form) "" then num0
          else if String.eqb (x_type form) "sale"
          then safeNum (VStr (x_amount form)) - safeNum (VStr (x_paid form))
          else if String.eqb (x_type form) "cash_in"
          then num0 - safeNum (VStr (x_amount form))
          else num0)
    /\ payable t' =
       payable t
       + (if String.eqb (x_party form) "" then num0
          else if String.eqb (x_type form) "purchase"
          then safeNum (VStr (x_amount form)) - safeNum (VStr (x_paid form))
          else if String.eqb (x_type form) "cash_out"
          then num0 - safeNum (VStr (x_amount form))
          else num0)
    /\ (x_party form = "" ->
        receivable t' = receivable t /\ payable t' = payable t).
Proof.
  intros co us cs vs l form uid F. do 2 eexists.
  split; [apply totals_store|].
  rewrite (saveTxn_new _ _ _ _ _ _ _ F). cbn [bind].
  split; [apply totals_store|].
  cbn [receivable payable].
  rewrite !outstanding_snoc, increment_client_form, increment_vendor_form.
  do 2 (split; [reflexivity|]).
  intros ->. cbn. now rewrite !nadd_0_r.
Qed.

Lemma removeFirst_NoDup (id : string) (ps : list (Party num)) :
  NoDup (map (@p_id num) ps) ->
  NoDup (map (@p_id num) (removeFirst id ps)).
Proof.
  induction ps as [|x ps IH]; simpl; intros ND; trivial.
  inversion ND as [|y ys Hnotin ND']; subst.
  destruct (String.eqb (p_id x) id); trivial.
  simpl. constructor; [|now apply IH].
  intros H. apply Hnotin. clear - H.
  induction ps as [|z ps IH]; simpl in *; [tauto|].
  destruct (String.eqb (p_id z) id); simpl in *; tauto.
Qed.

Lemma removeFirst_absent (id : string) (ps : list (Party num)) :
  findParty ps (Some id) = None -> removeFirst id ps = ps.
Proof.
  unfold findParty. induction ps as [|x ps IH]; simpl; trivial.
  rewrite (String.eqb_sym id).
  destruct (String.eqb (p_id x) id); [discriminate|].
  intros F. now rewrite IH.
Qed.

Lemma sumOpening_removeFirst (id : string) (ps : list (Party num))
  (c : Party num) :
  findParty ps (Some id) = Some c ->
  sumOpening ps
  = sumOpening (removeFirst id ps) + safeNum (p_openingBalance c).
Proof.
  unfold sumOpening, findParty.
  induction ps as [|x ps IH]; simpl; intros H; [discriminate|].
  rewrite (String.eqb_sym id) in H.
  destruct (String.eqb (p_id x) id).
  - injection H as ->. rewrite sumOf_cons. apply nadd_comm.
  - rewrite !sumOf_cons, (IH H). apply nadd_assoc.
Qed.

(** X15: in exact arithmetic, with distinct client ids, deleting a client
    lowers [totals().receivable] by the client's opening balance and by
    nothing else: the entries that referenced the client stay counted, and
    [totals().payable] and the figures computed from the ledger are
    unchanged.  Deleting an id that no client has leaves the record store as
    it is. *)
Theorem deleting_client_removes_opening_balance :
  forall co us (cs vs : list (Party num)) (l : list (Entry num))
         (id : string),
  NoDup (map (@p_id num) cs) ->
  exists t st' t',
    totals (store co us cs vs l) = Ok t
    /\ deleteParty (store co us cs vs l) "client" id = Ok st'
    /\ totals st' = Ok t'
    /\ receivable t =
       receivable t'
       + match findParty cs (Some id) with
         | Some c => safeNum (p_openingBalance c)
         | None => num0
         end
    /\ payable t' = payable t
    /\ flows t' = flows t
    /\ (findParty cs (Some id) = None -> st' = store co us cs vs l).
Proof.
  intros co us cs vs l id ND. do 3 eexists.
  split; [apply totals_store|].
  split; [apply deleteParty_store|].
  cbn [String.eqb Ascii.eqb Bool.eqb].
  split; [apply totals_store|].
  cbn [receivable payable flows sales purchases cogs expenses cashIn
       cashOut cash profit].
  split; [|split; [reflexivity|split; [reflexivity|]]].
  - rewrite !outstanding_sum by (trivial; now apply removeFirst_NoDup).
    destruct (findParty cs (Some id)) as [c|] eqn:F.
    + rewrite (sumOpening_removeFirst _ _ F). apply nadd_swap.
    + now rewrite nadd_0_r, (removeFirst_absent _ _ F).
  - intros F. now rewrite (removeFirst_absent _ _ F).
Qed.

(** X16: in exact arithmetic, with distinct client ids, adding a client
    under a new id raises [totals().receivable] by the opening balance typed
    in the form, read through [safeNum], and leaves [totals().payable] and
    the figures computed from the ledger unchanged. *)
Theorem new_client_adds_opening_balance :
  forall (trim : string -> string) co us (cs vs : list (Party num))
         (l : list (Entry num)) (form : PartyForm) (uid : string),
  NoDup (map (@p_id num) cs) ->
  findParty cs (Some (p_id (partyOfForm trim (num := num) form uid)))
  = None ->
  exists t t',
    totals (store co us cs vs l) = Ok t
    /\ bind (upsertParty trim (store co us cs vs l) "client" form uid)
            totals = Ok t'
    /\ receivable t' = receivable t + safeNum (VStr (f_opening form))
    /\ payable t' = payable t
    /\ flows t' = flows t.
Proof.
  intros trim co us cs vs l form uid ND F. do 2 eexists.
  split; [apply totals_store|].
  rewrite upsertParty_store. cbv zeta.
  cbn [String.eqb Ascii.eqb Bool.eqb]. rewrite F. cbn [bind].
  split; [apply totals_store|].
  cbn [receivable payable flows sales purchases cogs expenses cashIn
       cashOut cash profit].
  split; [|split; reflexivity].
  rewrite !outstanding_sum; trivial.
  - unfold sumOpening. rewrite sumOf_snoc. cbn [partyOfForm p_openingBalance].
    rewrite safeNum_idem. apply nadd_swap.
  - rewrite map_app. simpl. apply NoDup_snoc; trivial.
    now apply findParty_None_notin.
Qed.

End ExactGrowth.

(** ** The reports, the loader and the router *)

Section AppFacts.

Context {num : Type} {A : Arith num}.
Local Open Scope num_scope.
Local Open Scope string_scope.
Local Open Scope list_scope.

(** X17: the three reports agree on every snapshot, to the last bit in
    binary64: [cashFlow().cashToExpenses] is [totals().expenses],
    [cashFromSales] and [cashToSuppliers] are the paid sums plus
    [totals().cashIn] and [totals().cashOut], and the balance sheet lists
    [totals().cash] and [totals().receivable] as its assets and
    [totals().payable] as its liability, with [equity] their difference. *)
Theorem reports_agree_with_totals :
  forall co us (cs vs : list (Party num)) (l : list (Entry num)),
  exists t bs cf,
    totals (store co us cs vs l) = Ok t
    /\ balanceSheet (store co us cs vs l) = Ok bs
    /\ cashFlow (store co us cs vs l) = Ok cf
    /\ cashToExpenses cf = expenses t
    /\ cashFromSales cf = paidOfType "sale" l + cashIn t
    /\ cashToSuppliers cf = paidOfType "purchase" l + cashOut t
    /\ assets bs = [("Cash", cash t);
                    ("Accounts Receivable (Clients)", receivable t)]
    /\ liabilities bs = [("Accounts Payable (Vendors)", payable t)]
    /\ totalAssets bs = (num0 + cash t) + receivable t
    /\ totalLiab bs = num0 + payable t
    /\ equity bs = totalAssets bs - totalLiab bs.
Proof.
  intros. do 3 eexists.
  split; [apply totals_store|].
  split; [unfold balanceSheet; rewrite totals_store; reflexivity|].
  split; [apply cashFlow_store|].
  repeat split.
Qed.

(** X18: whatever is stored (nothing, a text that does not parse, [null],
    an object without [company], [users] or [ledger]), [loadState] returns a
    state that has the three keys: the stored snapshot when it has them, the
    default state otherwise. *)
Theorem loadState_passes_guard :
  forall raw : option (Parsed num),
    guardFails (loadState raw) = false
    /\ (loadState raw = defaultState
        \/ raw = Some (ParsedObject (loadState raw)))
    /\ (forall obj, raw = Some (ParsedObject obj) -> guardFails obj = false ->
          loadState raw = obj).
Proof.
  intros raw. unfold loadState.
  destruct raw as [[msg| |obj]|]; cbn [parseSnapshot].
  - split; [reflexivity|]. split; [now left|]. discriminate.
  - split; [reflexivity|]. split; [now left|]. discriminate.
  - destruct (guardFails obj) eqn:G.
    + split; [reflexivity|]. split; [now left|].
      intros obj' [= <-] G'. congruence.
    + split; [exact G|]. split; [now right|].
      now intros obj' [= <-] _.
  - split; [reflexivity|]. split; [now left|]. discriminate.
Qed.


(** X19: an import either fails, and then changes nothing but the list of
    alerts (one message added), or installs the parsed object both as the
    in-memory state and as the stored one; no import replaces a state that
    has [company], [users] and [ledger] by one that lacks any of them. *)
Theorem importData_outcomes :
  forall (file : option (Parsed num)) (app : App num),
    (importData file app = app
     \/ (exists msg, importData file app = alert app msg)
     \/ (exists obj, file = Some (ParsedObject obj)
                     /\ guardFails obj = false
                     /\ state (importData file app) = obj
                     /\ storage (importData file app) = Some obj))
    /\ (guardFails (state app) = false ->
        guardFails (state (importData file app)) = false).
Proof.
  intros file app. unfold importData.
  destruct file as [[msg| |obj]|]; cbn [parseSnapshot].
  - split; [right; left; now eexists | now cbn].
  - split; [right; left; now eexists | now cbn].
  - destruct (guardFails obj) eqn:G.
    + split; [right; left; now eexists | now cbn].
    + destruct (route_keeps
        (alert (saveState (setState app obj)) "Imported successfully.")
        eq_refl) as [Hst [Hsto _]].
      cbn in Hst, Hsto.
      destruct (route _) as [app3 [err|]]; cbn in Hst, Hsto.
      * split; [|intros _; cbn; now rewrite Hst].
        right; right. exists obj. cbn. now rewrite Hst, Hsto.
      * split; [|intros _; now rewrite Hst].
        right; right. exists obj. now rewrite Hst, Hsto.
  - split; [now left | trivial].
Qed.

(** With the three collections there, [partyName] returns. *)
Lemma partyName_store co us (cs vs : list (Party num))
  (l : list (Entry num)) (partyType partyId : option string) :
  throws (partyName (store co us cs vs l) partyType partyId) = false.
Proof.
  unfold partyName, store.
  destruct (negb (truthy partyType) || negb (truthy partyId)); trivial.
  now destruct (opt_eqb partyType "client").
Qed.









Lemma commit_in_step (app : App num) (r : result (State num)) :
  storage app = Some (state app) ->
  storage (fst (commit app r)) = Some (state (fst (commit app r))).
Proof.
  intros H. unfold commit. destruct r as [st|e]; [|exact H].
  destruct (route_keeps (saveState (setState app st)) eq_refl)
    as [Hst [Hsto _]].
  cbn in Hst, Hsto. now rewrite Hst, Hsto.
Qed.

(** X21: the four handlers that change the record store (saving a party,
    deleting a party, saving an entry, deleting an entry) keep the stored
    snapshot equal to the in-memory state, also when the page that is
    rendered afterwards throws, and when the deletion is not confirmed. *)
Theorem handlers_keep_storage_in_step :
  forall (trim : string -> string) (app : App num) (kind id uid : string)
         (pform : PartyForm) (tform : TxnForm) (confirmed : bool),
  storage app = Some (state app) ->
  storage (fst (onSaveParty trim kind pform uid app))
    = Some (state (fst (onSaveParty trim kind pform uid app)))
  /\ storage (fst (onDeleteParty kind id confirmed app))
     = Some (state (fst (onDeleteParty kind id confirmed app)))
  /\ storage (fst (onSaveTxn tform uid app))
     = Some (state (fst (onSaveTxn tform uid app)))
  /\ storage (fst (onDeleteTxn id confirmed app))
     = Some (state (fst (onDeleteTxn id confirmed app))).
Proof.
  intros trim app kind id uid pform tform confirmed H.
  unfold onSaveParty, onDeleteParty, onSaveTxn, onDeleteTxn.
  split; [now apply commit_in_step|].
  split; [|split; [now apply commit_in_step|]].
  - destruct (String.eqb id ""); [exact H|].
    destruct confirmed; cbn [negb]; [now apply commit_in_step | exact H].
  - destruct (String.eqb id ""); [exact H|].
    destruct confirmed; cbn [negb]; [now apply commit_in_step | exact H].
Qed.

End AppFacts.

(** ** Sessions and passwords *)

Section SessionFacts.

Context {num : Type} {A : Arith num}.
Local Open Scope string_scope.
Local Open Scope list_scope.

(** A state with its users. *)
Lemma tryLogin_users co (us : list User) cl ve le (uname pass : string) :
  tryLogin (num := num)
    {| company := co; users := Some us; clients := cl; vendors := ve;
       ledger := le |} uname pass
  = Ok (match find (fun x => String.eqb (username x) uname
                             && String.eqb (password x) pass) us with
        | Some u => Some (mkSession (username u) (role u))
        | None => None
        end).
Proof. reflexivity. Qed.

(** The element [find] returns is the first that passes the test. *)
Lemma find_first {X : Type} (p : X -> bool) (xs : list X) (x : X) :
  find p xs = Some x ->
  exists before after,
    xs = before ++ x :: after
    /\ p x = true
    /\ forall y, In y before -> p y = false.
Proof.
  induction xs as [|y xs IH]; cbn [find]; [discriminate|].
  destruct (p y) eqn:Py.
  - intros H. injection H as <-. exists [], xs.
    split; [reflexivity|]. split; [exact Py|]. intros z [].
  - intros H. destruct (IH H) as [before [after [E [Px Hb]]]].
    exists (y :: before), after. split; [now rewrite E|].
    split; [exact Px|]. intros z [<- | Hz]; [exact Py | now apply Hb].
Qed.

(** X22: [tryLogin] opens a session exactly when some user has both the
    username and the password given; the session then carries that
    username and the role of the first such user of the list.  On a state
    without [users] it throws. *)
Theorem tryLogin_checks_both :
  forall co (us : list User) cl ve le (uname pass : string),
  exists r,
    tryLogin (num := num)
      {| company := co; users := Some us; clients := cl; vendors := ve;
         ledger := le |} uname pass = Ok r
    /\ (r = None <->
        forall u, In u us -> ~ (username u = uname /\ password u = pass))
    /\ (forall s, r = Some s ->
          exists before u after,
            us = before ++ u :: after
            /\ username u = uname /\ password u = pass
            /\ (forall v, In v before ->
                  ~ (username v = uname /\ password v = pass))
            /\ s = mkSession uname (role u))
    /\ throws (tryLogin (num := num)
                 {| company := co; users := None; clients := cl;
                    vendors := ve; ledger := le |} uname pass) = true.
Proof.
  intros. eexists. split; [apply tryLogin_users|].
  split; [|split; [|reflexivity]].
  - destruct (find _ us) as [u|] eqn:F.
    + split; [discriminate|]. intros H. exfalso.
      apply find_some in F. destruct F as [Hin Hp].
      apply andb_true_iff in Hp. destruct Hp as [H1 H2].
      apply String.eqb_eq in H1, H2. now apply (H u Hin).
    + split; [|reflexivity]. intros _ u Hin [H1 H2].
      assert (Hf := find_none _ _ F u Hin). cbn in Hf.
      rewrite H1, H2, !String.eqb_refl in Hf. discriminate.
  - intros s Hs. destruct (find _ us) as [u|] eqn:F; [|discriminate].
    injection Hs as <-.
    destruct (find_first _ _ F) as [before [after [E [Hp Hb]]]].
    apply andb_true_iff in Hp. destruct Hp as [H1 H2].
    apply String.eqb_eq in H1, H2.
    exists before, u, after. split; [exact E|].
    split; [exact H1|]. split; [exact H2|].
    split; [|now rewrite H1].
    intros v Hv [V1 V2]. specialize (Hb v Hv). cbn in Hb.
    rewrite V1, V2, !String.eqb_refl in Hb. discriminate.
Qed.

Lemma setPassword_names (uname newPass : string) (us : list User) :
  map username (setPassword uname newPass us) = map username us
  /\ map role (setPassword uname newPass us) = map role us.
Proof.
  induction us as [|u us [IH1 IH2]]; simpl; [tauto|].
  destruct (String.eqb (username u) uname); simpl; [tauto|].
  now rewrite IH1, IH2.
Qed.

Lemma find_setPassword (uname newPass : string) (us : list User) :
  In uname (map username us) ->
  exists u,
    find (fun x => String.eqb (username x) uname
                   && String.eqb (password x) newPass)
         (setPassword uname newPass us) = Some u
    /\ username u = uname.
Proof.
  induction us as [|u us IH]; simpl; [tauto|]. intros H.
  destruct (String.eqb_spec (username u) uname) as [E|N]; simpl.
  - rewrite E, !String.eqb_refl. simpl. eexists. split; reflexivity.
  - apply String.eqb_neq in N. rewrite N. simpl.
    apply IH. destruct H as [H|H]; [|exact H].
    apply String.eqb_neq in N. contradiction.
Qed.

Lemma find_old_password (uname newPass pass : string) (us : list User) :
  NoDup (map username us) -> String.eqb pass newPass = false ->
  In uname (map username us) ->
  find (fun x => String.eqb (username x) uname
                 && String.eqb (password x) pass)
       (setPassword uname newPass us) = None.
Proof.
  intros ND Hp. induction us as [|u us IH]; simpl; [tauto|]. intros H.
  inversion ND as [|y ys Hnotin ND']; subst.
  destruct (String.eqb_spec (username u) uname) as [E|N]; simpl.
  - rewrite E, String.eqb_refl, (String.eqb_sym newPass), Hp. simpl.
    subst uname. clear - Hnotin.
    induction us as [|v us IH]; simpl in *; trivial.
    destruct (String.eqb_spec (username v) (username u)) as [E|N].
    + exfalso. apply Hnotin. now left.
    + simpl. apply IH. tauto.
  - apply String.eqb_neq in N. rewrite N. simpl.
    apply IH; trivial. destruct H as [H|H]; [|exact H].
    apply String.eqb_neq in N. contradiction.
Qed.

Lemma find_user_None (uname : string) (us : list User) :
  (forall u, In u us -> username u <> uname) ->
  find (fun x => String.eqb (username x) uname) us = None.
Proof.
  induction us as [|u us IH]; simpl; intros H; trivial.
  destruct (String.eqb_spec (username u) uname) as [E|N].
  - exfalso. apply (H u); tauto.
  - apply IH. intros v Hv. apply H. now right.
Qed.

Lemma find_user_Some (uname : string) (us : list User) :
  In uname (map username us) ->
  exists u, find (fun x => String.eqb (username x) uname) us = Some u.
Proof.
  induction us as [|u us IH]; simpl; [tauto|]. intros H.
  destruct (String.eqb_spec (username u) uname) as [E|N].
  - now eexists.
  - apply IH. destruct H as [H|H]; [contradiction | exact H].
Qed.

Lemma setPassword_first (uname newPass : string) (us before after : list User)
  (u : User) :
  us = before ++ u :: after -> username u = uname ->
  (forall v, In v before -> String.eqb (username v) uname = false) ->
  setPassword uname newPass us
  = before ++ mkUser uname newPass (role u) :: after.
Proof.
  intros -> Hu. induction before as [|v before IH]; cbn; intros Hb.
  - now rewrite Hu, String.eqb_refl.
  - rewrite (Hb v) by now left. f_equal. apply IH.
    intros w Hw. apply Hb. now right.
Qed.

Lemma jsLength_empty (s : string) : 4 <= jsLength s -> String.eqb s "" = false.
Proof. destruct s; cbn; [lia | reflexivity]. Qed.

(** X23: the password handler refuses a password of fewer than four UTF-16
    code units and an unknown username, leaving the state as it is; else it
    replaces the password of the first user of that name and changes nothing
    else: the users before and after that one, the user's name and role, and
    the business data stay as they were.  That user then logs in with the
    new password and, usernames being distinct, with no other. *)
Theorem changePassword_effect :
  forall co (us : list User) cl ve le (uname newPass : string),
  exists st' msg,
    changePassword (num := num)
      {| company := co; users := Some us; clients := cl; vendors := ve;
         ledger := le |} uname newPass = Ok (st', msg)
    /\ (jsLength newPass < 4 ->
        st' = {| company := co; users := Some us; clients := cl;
                 vendors := ve; ledger := le |}
        /\ msg = "Password must be at least 4 characters.")
    /\ (4 <= jsLength newPass ->
        (forall u, In u us -> username u <> uname) ->
        st' = {| company := co; users := Some us; clients := cl;
                 vendors := ve; ledger := le |}
        /\ msg = "User not found.")
    /\ (4 <= jsLength newPass -> In uname (map username us) ->
        msg = "Password updated."
        /\ (exists before u after,
              us = before ++ u :: after
              /\ username u = uname
              /\ (forall v, In v before -> username v <> uname)
              /\ st' = {| company := co;
                          users := Some (before
                                         ++ mkUser uname newPass (role u)
                                         :: after);
                          clients := cl; vendors := ve; ledger := le |})
        /\ (exists s, tryLogin st' uname newPass = Ok (Some s)
                      /\ s_username s = uname)
        /\ (NoDup (map username us) ->
            forall pass, String.eqb pass newPass = false ->
              tryLogin st' uname pass = Ok None)).
Proof.
  intros co us cl ve le uname newPass. unfold changePassword.
  destruct (Nat.ltb (jsLength newPass) 4) eqn:L.
  - rewrite orb_true_r. do 2 eexists. split; [reflexivity|].
    apply Nat.ltb_lt in L.
    split; [tauto|]. split; intros; lia.
  - apply Nat.ltb_ge in L.
    rewrite (jsLength_empty _ L). cbn [orb users member bind].
    destruct (find (fun x => String.eqb (username x) uname) us)
      as [u|] eqn:F.
    + do 2 eexists. split; [reflexivity|].
      split; [intros; lia|]. split.
      * intros _ H. rewrite (@find_user_None uname us H) in F. discriminate.
      * intros _ Hin. split; [reflexivity|].
        split; [|split].
        -- destruct (find_first _ _ F) as [before [after [E [Hp Hb]]]].
           apply String.eqb_eq in Hp.
           exists before, u, after. split; [exact E|].
           split; [exact Hp|].
           split.
           ++ intros v Hv Hn. specialize (Hb v Hv). cbn in Hb.
              rewrite Hn, String.eqb_refl in Hb. discriminate.
           ++ now rewrite (@setPassword_first uname newPass us before after
                             u E Hp Hb).
        -- destruct (@find_setPassword uname newPass us Hin) as [v [Hv Hn]].
           eexists. rewrite tryLogin_users, Hv. split; [reflexivity|].
           exact Hn.
        -- intros ND pass Hp.
           now rewrite tryLogin_users,
             (@find_old_password uname newPass pass us ND Hp Hin).
    + do 2 eexists. split; [reflexivity|].
      split; [intros; lia|]. split; [tauto|].
      intros _ Hin. destruct (@find_user_Some uname us Hin) as [u Hu].
      rewrite Hu in F. discriminate.
Qed.

End SessionFacts.

(** ** The pages at work on the demo data *)

Section PagesAtWork.

Import PrimFloat.
Local Open Scope string_scope.
Local Open Scope list_scope.

(** X7, witness: a sale to the client [c1], chosen among the options of a
    sale. *)
Lemma saved_entry_does_not_dangle_witness :
  partyOptions
    (F64.snapshot F64.demoClients F64.demoVendors F64.demoLedger)
    (x_type Demo.saleForm)
  = Ok [("", "(No Party)"); ("c1", "Ali Store"); ("c2", "Khan Mart")]
  /\ In (x_party Demo.saleForm)
        (map fst [("", "(No Party)"); ("c1", "Ali Store");
                  ("c2", "Khan Mart")])
  /\ dangling "client" F64.demoClients
       (@entryOfForm float Demo.js Demo.saleForm "t6") = false
  /\ dangling "vendor" F64.demoVendors
       (@entryOfForm float Demo.js Demo.saleForm "t6") = false
  /\ present (t_partyType (@entryOfForm float Demo.js Demo.saleForm "t6"))
     = present (t_partyId (@entryOfForm float Demo.js Demo.saleForm "t6")).
Proof.
  assert (Hin : In (x_party Demo.saleForm)
                   (map fst [("", "(No Party)"); ("c1", "Ali Store");
                             ("c2", "Khan Mart")])).
  { simpl. tauto. }
  split; [reflexivity|]. split; [exact Hin|].
  exact (@saved_entry_does_not_dangle float Demo.js
           (Some (mkCompany "My Business" "PKR" 7)) (Some [])
           F64.demoClients F64.demoVendors F64.demoLedger Demo.saleForm
           "t6" _ eq_refl Hin).
Defined.

(** X10, witness: the fuel expense added to the demo ledger under the id
    [t6] and deleted again. *)
Lemma add_then_delete_restores_witness :
  findEntry F64.demoLedger
    (t_id (@entryOfForm float Demo.js Demo.fuelForm "t6")) = None
  /\ bind (@saveTxn float Demo.js
             (F64.snapshot F64.demoClients F64.demoVendors F64.demoLedger)
             Demo.fuelForm "t6")
          (fun st' => deleteTxn st' "t6")
     = Ok (F64.snapshot F64.demoClients F64.demoVendors F64.demoLedger).
Proof.
  split; [reflexivity|].
  exact (@add_then_delete_restores float Demo.js
           (Some (mkCompany "My Business" "PKR" 7)) (Some [])
           F64.demoClients F64.demoVendors F64.demoLedger Demo.fuelForm
           "t6" eq_refl).
Defined.

(** X12, witness: the fuel expense of 500 raises the expenses of the demo
    data from 3000 to 3500 and leaves the sales at 55000. *)
Lemma new_entry_adds_to_its_type_witness :
  findEntry F64.demoLedger
    (t_id (@entryOfForm float Demo.js Demo.fuelForm "t6")) = None
  /\ exists t',
       bind (@saveTxn float Demo.js
               (F64.snapshot F64.demoClients F64.demoVendors
                  F64.demoLedger) Demo.fuelForm "t6")
            (@totals float Demo.js) = Ok t'
       /\ expenses t' = 3500%float
       /\ sales t' = 55000%float.
Proof.
  split; [reflexivity|].
  destruct (@new_entry_adds_to_its_type float Demo.js
              (Some (mkCompany "My Business" "PKR" 7)) (Some [])
              F64.demoClients F64.demoVendors F64.demoLedger Demo.fuelForm
              "t6" eq_refl)
    as [t [t' [Ht [Ht' [Hs [_ [He _]]]]]]].
  exists t'. split; [exact Ht'|].
  injection Ht as <-. split; [exact He | exact Hs].
Defined.

(** X13, witness: the sale of 1000, 400 of it paid, raises the balance of
    the client [c1] from 42000 to 42600. *)
Lemma new_entry_changes_one_balance_witness :
  findEntry F64.demoLedger
    (t_id (@entryOfForm float Demo.js Demo.saleForm "t6")) = None
  /\ exists new,
       bind (@saveTxn float Demo.js
               (F64.snapshot F64.demoClients F64.demoVendors
                  F64.demoLedger) Demo.saleForm "t6")
            (fun st' => @calcPartyBalance float Demo.js st' "client"
                          (Some "c1")) = Ok new
       /\ new = 42600%float.
Proof.
  split; [reflexivity|].
  destruct (@new_entry_changes_one_balance float Demo.js
              (Some (mkCompany "My Business" "PKR" 7)) (Some [])
              F64.demoClients F64.demoVendors F64.demoLedger Demo.saleForm
              "t6" "client" (Some "c1") eq_refl)
    as [old [new [Hold [Hnew [_ Hc]]]]].
  exists new. split; [exact Hnew|].
  injection Hold as <-.
  destruct (Hc eq_refl eq_refl) as [Hsale _].
  exact (Hsale eq_refl eq_refl).
Defined.

(** X21, witness: the four handlers on the demo data. *)
Lemma handlers_keep_storage_in_step_witness :
  storage Demo.app = Some (state Demo.app)
  /\ storage (fst (@onSaveTxn float Demo.js Demo.saleForm "t6" Demo.app))
     = Some (state (fst (@onSaveTxn float Demo.js Demo.saleForm "t6"
                           Demo.app)))
  /\ storage (fst (@onDeleteParty float Demo.js "client" "c1" true
                     Demo.app))
     = Some (state (fst (@onDeleteParty float Demo.js "client" "c1" true
                           Demo.app))).
Proof.
  split; [reflexivity|].
  destruct (@handlers_keep_storage_in_step float Demo.js (fun s => s)
              Demo.app "client" "c1" "t6" Demo.shopForm Demo.saleForm true
              eq_refl) as [_ [Hd [Hs _]]].
  split; [exact Hs | exact Hd].
Defined.

(** X14, witness: in exact arithmetic the sale of 1000, 400 of it paid,
    raises the receivable of the demo data by 600. *)
Lemma new_entry_changes_receivable_witness :
  ExactArith Demo.zs
  /\ findEntry Exact.demoLedger
       (t_id (@entryOfForm Exact.xnum Demo.zs Demo.saleForm "t6")) = None
  /\ exists t t',
       @totals Exact.xnum Demo.zs
         (Exact.snapshot Exact.demoClients Exact.demoVendors
            Exact.demoLedger) = Ok t
       /\ bind (@saveTxn Exact.xnum Demo.zs
                  (Exact.snapshot Exact.demoClients Exact.demoVendors
                     Exact.demoLedger) Demo.saleForm "t6")
               (@totals Exact.xnum Demo.zs) = Ok t'
       /\ receivable t = Exact.XInt 42800
       /\ receivable t' = Exact.XInt 43400
       /\ payable t' = payable t.
Proof.
  split; [exact (exact_arith_laws Demo.exactNumber)|].
  split; [reflexivity|].
  destruct (@new_entry_changes_receivable Exact.xnum Demo.zs
              (exact_arith_laws Demo.exactNumber)
              (Some (mkCompany "My Business" "PKR" 7)) (Some [])
              Exact.demoClients Exact.demoVendors Exact.demoLedger
              Demo.saleForm "t6" eq_refl)
    as [t [t' [Ht [Ht' [Hr [Hp _]]]]]].
  exists t, t'. split; [exact Ht|]. split; [exact Ht'|].
  injection Ht as <-.
  split; [reflexivity|]. split; [exact Hr | exact Hp].
Defined.

(** X15, witness: in exact arithmetic, deleting the client [c1] of the demo
    data lowers the receivable by its opening balance of 12000. *)
Lemma deleting_client_removes_opening_balance_witness :
  ExactArith Demo.zs
  /\ NoDup (map (@p_id Exact.xnum) Exact.demoClients)
  /\ exists t st' t',
       @totals Exact.xnum Demo.zs
         (Exact.snapshot Exact.demoClients Exact.demoVendors
            Exact.demoLedger) = Ok t
       /\ deleteParty
            (Exact.snapshot Exact.demoClients Exact.demoVendors
               Exact.demoLedger) "client" "c1" = Ok st'
       /\ @totals Exact.xnum Demo.zs st' = Ok t'
       /\ receivable t = @nadd _ Demo.zs (receivable t') (Exact.XInt 12000)
       /\ receivable t = Exact.XInt 42800.
Proof.
  assert (ND : NoDup (map (@p_id Exact.xnum) Exact.demoClients)).
  { repeat constructor; simpl; intuition discriminate. }
  split; [exact (exact_arith_laws Demo.exactNumber)|].
  split; [exact ND|].
  destruct (@deleting_client_removes_opening_balance Exact.xnum Demo.zs
              (exact_arith_laws Demo.exactNumber)
              (Some (mkCompany "My Business" "PKR" 7)) (Some [])
              Exact.demoClients Exact.demoVendors Exact.demoLedger "c1" ND)
    as [t [st' [t' [Ht [Hd [Ht' [Hr _]]]]]]].
  exists t, st', t'. split; [exact Ht|]. split; [exact Hd|].
  split; [exact Ht'|]. split; [exact Hr|].
  injection Ht as <-. reflexivity.
Defined.

(** X16, witness: in exact arithmetic, a new client with an opening balance
    of 2500 raises the receivable of the demo data from 42800 to 45300. *)
Lemma new_client_adds_opening_balance_witness :
  ExactArith Demo.zs
  /\ NoDup (map (@p_id Exact.xnum) Exact.demoClients)
  /\ findParty Exact.demoClients
       (Some (p_id (@partyOfForm Exact.xnum Demo.zs (fun s => s)
                      Demo.shopForm "c9"))) = None
  /\ exists t',
       bind (@upsertParty Exact.xnum Demo.zs (fun s => s)
               (Exact.snapshot Exact.demoClients Exact.demoVendors
                  Exact.demoLedger) "client" Demo.shopForm "c9")
            (@totals Exact.xnum Demo.zs) = Ok t'
       /\ receivable t' = Exact.XInt 45300.
Proof.
  assert (ND : NoDup (map (@p_id Exact.xnum) Exact.demoClients)).
  { repeat constructor; simpl; intuition discriminate. }
  split; [exact (exact_arith_laws Demo.exactNumber)|].
  split; [exact ND|]. split; [reflexivity|].
  destruct (@new_client_adds_opening_balance Exact.xnum Demo.zs
              (exact_arith_laws Demo.exactNumber) (fun s => s)
              (Some (mkCompany "My Business" "PKR" 7)) (Some [])
              Exact.demoClients Exact.demoVendors Exact.demoLedger
              Demo.shopForm "c9" ND eq_refl)
    as [t [t' [Ht [Ht' [Hr _]]]]].
  exists t'. split; [exact Ht'|].
  injection Ht as <-. exact Hr.
Defined.

End PagesAtWork.

(** ** Malformed numeric fields at work *)

Section MalformedFields.

Import PrimFloat.
Local Open Scope string_scope.
Local Open Scope list_scope.

(** C5, witness: a ledger with numeric strings, a text, [null], missing
    fields and an infinity; the sales are 55000 + 1500, the purchases
    40000 + 250 + 10, the expenses 0 + 3000, the receipts 5000 + 0, the
    payments 7000, and the cash (20000 + 5000) - (250 + 3000 + 7000). *)
Lemma totals_flow_figures_witness :
  exists t,
    @totals float Demo.js (F64.snapshot [] [] Demo.mixedLedger) = Ok t
    /\ sales t = 56500%float
    /\ purchases t = 40260%float
    /\ expenses t = 3000%float
    /\ cashIn t = 5000%float
    /\ cashOut t = 7000%float
    /\ cash t = 14750%float.
Proof.
  destruct (@totals_flow_figures float Demo.js
              (Some (mkCompany "My Business" "PKR" 7)) (Some [])
              [] [] Demo.mixedLedger)
    as [t [Ht [Hs [Hp [He [Hi [Ho Hc]]]]]]].
  exists t. split; [exact Ht|].
  rewrite Hi, He, Ho in Hc.
  split; [rewrite Hs; reflexivity|].
  split; [rewrite Hp; reflexivity|].
  split; [rewrite He; reflexivity|].
  split; [rewrite Hi; reflexivity|].
  split; [rewrite Ho; reflexivity|].
  rewrite Hc. reflexivity.
Defined.

(** C6, witness: on the same ledger the only purchase tagged COGS is the one
    of 40000 (the others are tagged Asset and cogs), the profit is
    56500 - 40000 - 3000, and it is the same without the purchase tagged
    Asset. *)
Lemma cogs_and_profit_witness :
  exists t,
    @totals float Demo.js (F64.snapshot [] [] Demo.mixedLedger) = Ok t
    /\ cogs t = 40000%float
    /\ profit t = 13500%float
    /\ rmap (@profit float)
         (@totals float Demo.js
            (F64.snapshot [] []
               (firstn 3 Demo.mixedLedger ++ skipn 4 Demo.mixedLedger)))
       = Ok 13500%float.
Proof.
  destruct (@cogs_and_profit float Demo.js
              (Some (mkCompany "My Business" "PKR" 7)) (Some [])
              [] [] Demo.mixedLedger)
    as [t [Ht [Hc [_ [Hp Hrem]]]]].
  assert (Hs : sales t = 56500%float /\ expenses t = 3000%float).
  { assert (H := f_equal (rmap (fun t => (sales t, expenses t))) Ht).
    cbn in H. injection H as H1 H2. now rewrite <- H1, <- H2. }
  destruct Hs as [Hs He].
  assert (P : profit t = 13500%float).
  { rewrite Hp, Hc, Hs, He. reflexivity. }
  exists t. split; [exact Ht|].
  split; [rewrite Hc; reflexivity|].
  split; [exact P|].
  rewrite <- P.
  apply (Hrem (mkEntry "m4" "purchase" None None (Some "Asset")
                 (VNum 250%float) (VNum 250%float))
              (firstn 3 Demo.mixedLedger) (skipn 4 Demo.mixedLedger)).
  - reflexivity.
  - reflexivity.
  - discriminate.
Defined.

(** C7, witness: a parsed ledger whose fields are not numbers but convert
    gives the figures of the converted ledger (sales 55000 + 1500, expenses
    0 + 3000, cash 20000 - 3000), and the same ledger followed by a sale
    whose amount is what [JSON.parse] makes of
    [{"valueOf":0,"toString":0}] makes [totals] throw. *)
Lemma safeNum_coerces_to_zero_witness :
  (exists t,
     @Raw.totals float Demo.js Demo.noPrinting
       (rawStore [] [] Demo.parsedLedger) = Ok t
     /\ sales t = 56500%float
     /\ expenses t = 3000%float
     /\ cash t = 17000%float)
  /\ @Raw.safeNum float Demo.js Demo.noPrinting Demo.badAmount
     = Throw Raw.cannotConvert
  /\ @Raw.totals float Demo.js Demo.noPrinting
       (rawStore [] [] Demo.poisonedLedger)
     = Throw Raw.cannotConvert.
Proof.
  destruct (@safeNum_coerces_to_zero float Demo.js Demo.noPrinting)
    as [_ [Hd [Hc Ht]]].
  split; [|split].
  - destruct (Hc [] [] Demo.parsedLedger "client" None) as [H _].
    + constructor.
    + constructor.
    + repeat constructor.
    + eexists. split; [rewrite H; reflexivity|]. repeat split.
  - rewrite Hd. reflexivity.
  - apply (Ht (Some []) (Some []) Demo.poisonedLedger
              (Raw.mkEntry "r5" "sale" None None None
                 Demo.badAmount (Raw.JPrim (VNum 0%float)))).
    + unfold Demo.poisonedLedger. apply in_or_app. right. now left.
    + now left.
    + reflexivity.
Defined.

(** The length of a password is counted in UTF-16 code units: a password of
    three letters with diaeresis, which UTF-8 writes on six bytes, is
    refused. *)
Example password_of_three_letters :
  jsLength "äöü" = 3
  /\ changePassword (num := float)
       (F64.snapshot [] [] []) "admin" "äöü"
     = Ok (F64.snapshot [] [] [],
           "Password must be at least 4 characters.").
Proof. split; reflexivity. Qed.

(** A snapshot without [clients] passes the guard of [importData]; on the
    sales page the import then announces success and the failure of the
    page, whose row calls [partyName] on the sale to the client [c1]. *)
Example sales_page_without_clients :
  alerts
    (@importData float F64.js
       (Some (ParsedObject
                {| company := Some (mkCompany "X" "PKR" 7);
                   users := Some [];
                   clients := None;
                   vendors := Some [];
                   ledger := Some F64.partialSale |}))
       (mkApp (F64.snapshot [] [] []) (Some (mkSession "admin" "admin"))
              "sales" (Some (F64.snapshot [] [] [])) [] Blank []))
  = ["Import failed: Cannot read properties of undefined (reading 'find')";
     "Imported successfully."].
Proof. reflexivity. Qed.

End MalformedFields.
